(** * The serial configuration protocol of the minipad box controller

    A shallow embedding of [SerialHandler] in its two revisions:

    - [Legacy]  : src/handlers/serial_handler.cpp, the [key<N>.<setting>]
                  protocol with [String *] input;
    - [Rewrite] : the later revision of the same file, the
                  [hkey<N>.<setting>] protocol with [char *] input.

    Integers of the firmware are modelled as [Z].  A [uint8_t] or
    [uint16_t] object holds a value of its range; the narrowing done by C
    when an [int] initialises such an object is written out with
    [C.uint8_t] and [C.uint16_t].  Arithmetic on [uint16_t] operands is
    carried out in [int] after the integer promotions (the target is a
    32-bit RP2040), hence plain [Z] arithmetic: a difference of two
    [uint16_t] values can be negative and never wraps.

    The headers that declare the key structures, the configuration and the
    keypad state are not part of the sources at hand.  The records below
    hold the members the handler reads and writes, with the types of the
    setters' parameters ([uint16_t] for the numeric settings, [uint8_t] for
    the key character, [bool] for the flags). *)

From Stdlib Require Import ZArith String Ascii List Lia Bool DecimalString
  DecimalPos.
From stdpp Require Import base list.
Import ListNotations.

#[local] Open Scope string_scope.
#[local] Open Scope Z_scope.

(** ** The C library functions the handler relies on *)

Module C.

Definition uint8_t (z : Z) : Z := z mod 256.
Definition uint16_t (z : Z) : Z := z mod 65536.

Definition is_uint8_t (z : Z) : Prop := 0 <= z < 256.
Definition is_uint16_t (z : Z) : Prop := 0 <= z < 65536.

Definition INT_MAX : Z := 2147483647.
Definition INT_MIN : Z := -2147483648.

Definition code (c : ascii) : Z := Z.of_nat (nat_of_ascii c).

Definition strlen (s : string) : Z := Z.of_nat (String.length s).

(** [s + n] for a pointer [s] into a zero-terminated buffer; stepping
    over the terminator is not modelled here (callers guard it). *)
Fixpoint advance (n : nat) (s : string) : string :=
  match n, s with
  | O, _ => s
  | S n', String _ s' => advance n' s'
  | S _, EmptyString => EmptyString
  end.

(** [strcmp(str1, str2) == 0] *)
Definition isEqual (str1 str2 : string) : bool := String.eqb str1 str2.

(** [isEqual(str, "1") || isEqual(str, "true")] *)
Definition isTrue (str : string) : bool :=
  isEqual str "1" || isEqual str "true".

(** [strstr(s, p) == s] *)
Definition starts_with (p s : string) : bool := String.prefix p s.

Definition isspace (c : ascii) : bool :=
  (code c =? 32) || ((9 <=? code c) && (code c <=? 13)).

Definition isdigit (c : ascii) : bool :=
  (48 <=? code c) && (code c <=? 57).

Fixpoint skip_spaces (s : string) : string :=
  match s with
  | String c s' => if isspace c then skip_spaces s' else s
  | EmptyString => s
  end.

Fixpoint digits (acc : Z) (s : string) : Z :=
  match s with
  | String c s' =>
      if isdigit c then digits (acc * 10 + (code c - 48)) s' else acc
  | EmptyString => acc
  end.

(** [atoi] is [(int) strtol(s, NULL, 10)]: leading white space, an
    optional sign, the longest run of digits, and saturation at the
    limits of a 32-bit [long]. *)
Definition atoi (s : string) : Z :=
  let v :=
    match skip_spaces s with
    | String "-" s' => - digits 0 s'
    | String "+" s' => digits 0 s'
    | s' => digits 0 s'
    end in
  Z.max INT_MIN (Z.min INT_MAX v).

(** The text [printf] produces for a [%d] conversion. *)
Definition printf_d (z : Z) : string := NilEmpty.string_of_int (Z.to_int z).

Definition printf_b (b : bool) : string := printf_d (if b then 1 else 0).

End C.

(** ** helpers/string_helper.hpp *)

Module StringHelper.

Definition lower (c : ascii) : ascii :=
  if (65 <=? C.code c) && (C.code c <=? 90)
  then ascii_of_nat (nat_of_ascii c + 32)
  else c.

(** Modelled from the spec: [StringHelper::toLower] is declared in
    helpers/string_helper.hpp, which is not part of the sources at hand.
    The protocol is "case-insensitive (normalized to lowercase before
    parsing)": every upper-case ASCII letter of the buffer is replaced
    by its lower-case counterpart. *)
Fixpoint toLower (input : string) : string :=
  match input with
  | String c s => String (lower c) (toLower s)
  | EmptyString => EmptyString
  end.

(** Modelled from the spec: [StringHelper::getArgumentAt] is declared in
    helpers/string_helper.hpp, which is not part of the sources at hand.
    A line is a sequence of "space-separated tokens" and a key command
    has the shape [key<N?>.<setting>]: the helper yields the field
    number [index] of [input] cut at every [delimiter], and the empty
    string when [input] has fewer fields. *)
Fixpoint getArgumentAt (input : string) (delimiter : ascii) (index : nat)
  : string :=
  match input with
  | EmptyString => EmptyString
  | String c s =>
      if Ascii.eqb c delimiter then
        match index with
        | O => EmptyString
        | S i => getArgumentAt s delimiter i
        end
      else
        match index with
        | O => String c (getArgumentAt s delimiter O)
        | S _ => getArgumentAt s delimiter index
        end
  end.

End StringHelper.

(** ** definitions.hpp *)

(** The build constants come from definitions.hpp, which is not part of
    the sources at hand: they are parameters of the development.  All of
    them are plain [int] literals in the firmware (they are printed with
    [%d] by [get]). *)
Class Definitions := {
  HYSTERESIS_TOLERANCE : Z;
  RAPID_TRIGGER_TOLERANCE : Z;
  TRAVEL_DISTANCE_IN_0_01MM : Z;
  ANALOG_RESOLUTION : Z;
  FIRMWARE_VERSION : string;
}.

(** ** The loop over the targeted keys *)

(** [for (uint8_t i = 0; i < n; i++) { T &key = keys[i]; body }] where
    [keys] points at element [first] of the array [arr] and [body] updates
    the key it is handed.  The handlers run it with [first + n] within the
    array. *)
Definition for_keys {T} (first n : nat) (body : T -> T) (arr : list T)
  : list T :=
  fold_left (fun arr i => alter body (first + i)%nat arr) (seq 0 n) arr.

(** ** The rewritten handler ([hkey] protocol) *)

Module Rewrite.

(** Base class of the two kinds of keys. *)
Record Key := {
  index : Z;            (* uint8_t, position in its array *)
  keyChar : Z;          (* uint8_t *)
  hidEnabled : bool;
}.

(** [struct HEKey : Key] *)
Record HEKey := {
  he_key : Key;
  rapidTrigger : bool;
  continuousRapidTrigger : bool;
  rapidTriggerUpSensitivity : Z;      (* uint16_t *)
  rapidTriggerDownSensitivity : Z;    (* uint16_t *)
  lowerHysteresis : Z;                (* uint16_t *)
  upperHysteresis : Z;                (* uint16_t *)
}.

(** [struct DigitalKey : Key] *)
Record DigitalKey := {
  digital_key : Key;
}.

(** The members of [KeypadHandler.heKeyStates] the handler reads. *)
Record HEKeyState := {
  lastSensorValue : Z;
  lastMappedValue : Z;
  restPosition : Z;
  downPosition : Z;
}.

Record Configuration := {
  config_name : string;
  heKeys : list HEKey;              (* HEKey heKeys[HE_KEYS] *)
  digitalKeys : list DigitalKey;    (* DigitalKey digitalKeys[DIGITAL_KEYS] *)
}.

(** Everything the handler can read or write: the configuration held
    by [ConfigController], what [saveConfig] persisted last, the state
    of [KeypadHandler], whether the boot ROM was entered, and the lines
    written to [Serial]. *)
Record Firmware := {
  config : Configuration;
  savedConfig : Configuration;
  heKeyStates : list HEKeyState;
  outputMode : bool;
  usbBoot : bool;
  serial : list string;
}.

(** The array sizes are the build flags [-DHE_KEYS] and
    [-DDIGITAL_KEYS]; an array of the configuration has exactly that
    many elements. *)
Definition HE_KEYS (fw : Firmware) : Z :=
  Z.of_nat (length (heKeys (config fw))).
Definition DIGITAL_KEYS (fw : Firmware) : Z :=
  Z.of_nat (length (digitalKeys (config fw))).

(** A reference to a derived key used as a [Key &]. *)
Class IsKey (T : Type) := {
  as_key : T -> Key;
  with_key : Key -> T -> T;
}.

#[global] Instance HEKey_IsKey : IsKey HEKey := {
  as_key := he_key;
  with_key k key :=
    {| he_key := k;
       rapidTrigger := rapidTrigger key;
       continuousRapidTrigger := continuousRapidTrigger key;
       rapidTriggerUpSensitivity := rapidTriggerUpSensitivity key;
       rapidTriggerDownSensitivity := rapidTriggerDownSensitivity key;
       lowerHysteresis := lowerHysteresis key;
       upperHysteresis := upperHysteresis key |};
}.

#[global] Instance DigitalKey_IsKey : IsKey DigitalKey := {
  as_key := digital_key;
  with_key k _ := {| digital_key := k |};
}.

Definition through_key {T} `{IsKey T} (f : Key -> Key) (key : T) : T :=
  with_key (f (as_key key)) key.

(** *** Assignments to single members *)

Definition set_rapidTrigger (v : bool) (key : HEKey) : HEKey :=
  {| he_key := he_key key;
     rapidTrigger := v;
     continuousRapidTrigger := continuousRapidTrigger key;
     rapidTriggerUpSensitivity := rapidTriggerUpSensitivity key;
     rapidTriggerDownSensitivity := rapidTriggerDownSensitivity key;
     lowerHysteresis := lowerHysteresis key;
     upperHysteresis := upperHysteresis key |}.

Definition set_continuousRapidTrigger (v : bool) (key : HEKey) : HEKey :=
  {| he_key := he_key key;
     rapidTrigger := rapidTrigger key;
     continuousRapidTrigger := v;
     rapidTriggerUpSensitivity := rapidTriggerUpSensitivity key;
     rapidTriggerDownSensitivity := rapidTriggerDownSensitivity key;
     lowerHysteresis := lowerHysteresis key;
     upperHysteresis := upperHysteresis key |}.

Definition set_rapidTriggerUpSensitivity (v : Z) (key : HEKey) : HEKey :=
  {| he_key := he_key key;
     rapidTrigger := rapidTrigger key;
     continuousRapidTrigger := continuousRapidTrigger key;
     rapidTriggerUpSensitivity := v;
     rapidTriggerDownSensitivity := rapidTriggerDownSensitivity key;
     lowerHysteresis := lowerHysteresis key;
     upperHysteresis := upperHysteresis key |}.

Definition set_rapidTriggerDownSensitivity (v : Z) (key : HEKey) : HEKey :=
  {| he_key := he_key key;
     rapidTrigger := rapidTrigger key;
     continuousRapidTrigger := continuousRapidTrigger key;
     rapidTriggerUpSensitivity := rapidTriggerUpSensitivity key;
     rapidTriggerDownSensitivity := v;
     lowerHysteresis := lowerHysteresis key;
     upperHysteresis := upperHysteresis key |}.

Definition set_lowerHysteresis (v : Z) (key : HEKey) : HEKey :=
  {| he_key := he_key key;
     rapidTrigger := rapidTrigger key;
     continuousRapidTrigger := continuousRapidTrigger key;
     rapidTriggerUpSensitivity := rapidTriggerUpSensitivity key;
     rapidTriggerDownSensitivity := rapidTriggerDownSensitivity key;
     lowerHysteresis := v;
     upperHysteresis := upperHysteresis key |}.

Definition set_upperHysteresis (v : Z) (key : HEKey) : HEKey :=
  {| he_key := he_key key;
     rapidTrigger := rapidTrigger key;
     continuousRapidTrigger := continuousRapidTrigger key;
     rapidTriggerUpSensitivity := rapidTriggerUpSensitivity key;
     rapidTriggerDownSensitivity := rapidTriggerDownSensitivity key;
     lowerHysteresis := lowerHysteresis key;
     upperHysteresis := v |}.

Definition set_keyChar (v : Z) (key : Key) : Key :=
  {| index := index key; keyChar := v; hidEnabled := hidEnabled key |}.

Definition set_hidEnabled (v : bool) (key : Key) : Key :=
  {| index := index key; keyChar := keyChar key; hidEnabled := v |}.

Definition set_config_name (v : string) (c : Configuration) : Configuration :=
  {| config_name := v; heKeys := heKeys c; digitalKeys := digitalKeys c |}.

Definition set_heKeys (v : list HEKey) (c : Configuration) : Configuration :=
  {| config_name := config_name c; heKeys := v;
     digitalKeys := digitalKeys c |}.

Definition set_digitalKeys (v : list DigitalKey) (c : Configuration)
  : Configuration :=
  {| config_name := config_name c; heKeys := heKeys c;
     digitalKeys := v |}.

Definition set_config (v : Configuration) (fw : Firmware) : Firmware :=
  {| config := v; savedConfig := savedConfig fw;
     heKeyStates := heKeyStates fw; outputMode := outputMode fw;
     usbBoot := usbBoot fw; serial := serial fw |}.

Definition set_savedConfig (v : Configuration) (fw : Firmware) : Firmware :=
  {| config := config fw; savedConfig := v;
     heKeyStates := heKeyStates fw; outputMode := outputMode fw;
     usbBoot := usbBoot fw; serial := serial fw |}.

Definition set_outputMode (v : bool) (fw : Firmware) : Firmware :=
  {| config := config fw; savedConfig := savedConfig fw;
     heKeyStates := heKeyStates fw; outputMode := v;
     usbBoot := usbBoot fw; serial := serial fw |}.

Definition set_usbBoot (v : bool) (fw : Firmware) : Firmware :=
  {| config := config fw; savedConfig := savedConfig fw;
     heKeyStates := heKeyStates fw; outputMode := outputMode fw;
     usbBoot := v; serial := serial fw |}.

(** [print(fmt, ...)] and [Serial.println]: one more line on the port. *)
Definition print (line : string) (fw : Firmware) : Firmware :=
  {| config := config fw; savedConfig := savedConfig fw;
     heKeyStates := heKeyStates fw; outputMode := outputMode fw;
     usbBoot := usbBoot fw; serial := (serial fw ++ [line])%list |}.

Definition print_all (lines : list string) (fw : Firmware) : Firmware :=
  fold_left (fun fw line => print line fw) lines fw.

(** [KeypadHandler.heKeyStates[i]].  The array has [HE_KEYS] elements
    and every [index] member is below [HE_KEYS]; a read outside the
    array, undefined in C++, yields a zeroed state here. *)
Definition stateAt (fw : Firmware) (i : Z) : HEKeyState :=
  default {| lastSensorValue := 0; lastMappedValue := 0;
             restPosition := 0; downPosition := 0 |}
          (heKeyStates fw !! Z.to_nat i).

(** platformio.ini: [-DDEV=1] *)
Definition DEV : bool := true.

Section Handler.

Context {defs : Definitions}.

(** *** The setters *)

Definition hkey_rt (key : HEKey) (state : bool) : HEKey :=
  set_rapidTrigger state key.

Definition hkey_crt (key : HEKey) (state : bool) : HEKey :=
  set_continuousRapidTrigger state key.

Definition hkey_rtus (key : HEKey) (value : Z) : HEKey :=
  if (value >=? RAPID_TRIGGER_TOLERANCE)
     && (value <=? TRAVEL_DISTANCE_IN_0_01MM)
  then set_rapidTriggerUpSensitivity value key
  else key.

Definition hkey_rtds (key : HEKey) (value : Z) : HEKey :=
  if (value >=? RAPID_TRIGGER_TOLERANCE)
     && (value <=? TRAVEL_DISTANCE_IN_0_01MM)
  then set_rapidTriggerDownSensitivity value key
  else key.

Definition hkey_lh (key : HEKey) (value : Z) : HEKey :=
  if upperHysteresis key - value >=? HYSTERESIS_TOLERANCE
  then set_lowerHysteresis value key
  else key.

Definition hkey_uh (key : HEKey) (value : Z) : HEKey :=
  if (value - lowerHysteresis key >=? HYSTERESIS_TOLERANCE)
     && (TRAVEL_DISTANCE_IN_0_01MM - value >=? HYSTERESIS_TOLERANCE)
  then set_upperHysteresis value key
  else key.

Definition key_char (key : Key) (keyChar : Z) : Key :=
  set_keyChar keyChar key.

Definition key_hid (key : Key) (state : bool) : Key :=
  set_hidEnabled state key.

(** *** The global commands *)

Definition boot (fw : Firmware) : Firmware := set_usbBoot true fw.

Definition save (fw : Firmware) : Firmware :=
  set_savedConfig (config fw) fw.

Definition printHEKeyOutput (key : HEKey) (fw : Firmware) : Firmware :=
  let st := stateAt fw (index (he_key key)) in
  print ("OUT hkey" ++ C.printf_d (index (he_key key) + 1)
         ++ "=" ++ C.printf_d (lastSensorValue st)
         ++ " " ++ C.printf_d (lastMappedValue st)) fw.

Definition get_hkey (fw : Firmware) (key : HEKey) : Firmware :=
  let n := C.printf_d (index (he_key key) + 1) in
  let st := stateAt fw (index (he_key key)) in
  print_all
    [ "GET hkey" ++ n ++ ".rt=" ++ C.printf_b (rapidTrigger key);
      "GET hkey" ++ n ++ ".crt=" ++ C.printf_b (continuousRapidTrigger key);
      "GET hkey" ++ n ++ ".rtus="
        ++ C.printf_d (rapidTriggerUpSensitivity key);
      "GET hkey" ++ n ++ ".rtds="
        ++ C.printf_d (rapidTriggerDownSensitivity key);
      "GET hkey" ++ n ++ ".lh=" ++ C.printf_d (lowerHysteresis key);
      "GET hkey" ++ n ++ ".uh=" ++ C.printf_d (upperHysteresis key);
      "GET hkey" ++ n ++ ".char=" ++ C.printf_d (keyChar (he_key key));
      "GET hkey" ++ n ++ ".rest=" ++ C.printf_d (restPosition st);
      "GET hkey" ++ n ++ ".down=" ++ C.printf_d (downPosition st);
      "GET hkey" ++ n ++ ".hid=" ++ C.printf_b (hidEnabled (he_key key)) ]
    fw.

Definition get_dkey (fw : Firmware) (key : DigitalKey) : Firmware :=
  let n := C.printf_d (index (digital_key key) + 1) in
  print_all
    [ "GET dkey" ++ n ++ ".char=" ++ C.printf_d (keyChar (digital_key key));
      "GET dkey" ++ n ++ ".hid="
        ++ C.printf_b (hidEnabled (digital_key key)) ]
    fw.

Definition get (fw : Firmware) : Firmware :=
  let fw :=
    print_all
      [ "GET version=" ++ FIRMWARE_VERSION ++ (if DEV then "-dev" else "");
        "GET hkeys=" ++ C.printf_d (HE_KEYS fw);
        "GET dkeys=" ++ C.printf_d (DIGITAL_KEYS fw);
        "GET name=" ++ config_name (config fw);
        "GET htol=" ++ C.printf_d HYSTERESIS_TOLERANCE;
        "GET rtol=" ++ C.printf_d RAPID_TRIGGER_TOLERANCE;
        "GET trdt=" ++ C.printf_d TRAVEL_DISTANCE_IN_0_01MM;
        "GET ares=" ++ C.printf_d ANALOG_RESOLUTION ]
      fw in
  let fw := fold_left get_hkey (heKeys (config fw)) fw in
  let fw := fold_left get_dkey (digitalKeys (config fw)) fw in
  print "GET END" fw.

Definition name (name : string) (fw : Firmware) : Firmware :=
  let length := C.strlen name in
  if (length >=? 1) && (length <=? 128)
  then set_config (set_config_name name (config fw)) fw
  else fw.

Definition out (single state : bool) (fw : Firmware) : Firmware :=
  if single
  then fold_left (fun fw key => printHEKeyOutput key fw)
                 (heKeys (config fw)) fw
  else set_outputMode state fw.

Definition echo (input : string) (fw : Firmware) : Firmware :=
  print input fw.

(** *** The dispatcher *)

(** [(int)arg0[0]] *)
Definition first_char (arg0 : string) : Z :=
  match arg0 with
  | String c _ => C.code c
  | EmptyString => 0
  end.

(** [strlen(arg0) == 1 ? (int)arg0[0] : atoi(arg0)] *)
Definition char_argument (arg0 : string) : Z :=
  if C.strlen arg0 =? 1 then first_char arg0 else C.atoi arg0.

(** The chain of [if]s inside the loop over the hall effect keys; the
    [int] arguments are narrowed to the parameter types of the
    setters. *)
Definition hkey_setting (setting arg0 : string) (key : HEKey) : HEKey :=
  if C.isEqual setting "rt" then hkey_rt key (C.isTrue arg0)
  else if C.isEqual setting "crt" then hkey_crt key (C.isTrue arg0)
  else if C.isEqual setting "rtus"
  then hkey_rtus key (C.uint16_t (C.atoi arg0))
  else if C.isEqual setting "rtds"
  then hkey_rtds key (C.uint16_t (C.atoi arg0))
  else if C.isEqual setting "lh"
  then hkey_lh key (C.uint16_t (C.atoi arg0))
  else if C.isEqual setting "uh"
  then hkey_uh key (C.uint16_t (C.atoi arg0))
  else if C.isEqual setting "char"
  then through_key
         (fun k => key_char k (C.uint8_t (char_argument arg0))) key
  else if C.isEqual setting "hid"
  then through_key (fun k => key_hid k (C.isTrue arg0)) key
  else key.

Definition dkey_setting (setting arg0 : string) (key : DigitalKey)
  : DigitalKey :=
  if C.isEqual setting "char"
  then through_key
         (fun k => key_char k (C.uint8_t (char_argument arg0))) key
  else if C.isEqual setting "hid"
  then through_key (fun k => key_hid k (C.isTrue arg0)) key
  else key.

Definition with_heKeys (f : list HEKey -> list HEKey) (fw : Firmware)
  : Firmware :=
  set_config (set_heKeys (f (heKeys (config fw))) (config fw)) fw.

Definition with_digitalKeys (f : list DigitalKey -> list DigitalKey)
  (fw : Firmware) : Firmware :=
  set_config (set_digitalKeys (f (digitalKeys (config fw))) (config fw)) fw.

(** The [hkey] block.  [None] stands for the [return] taken on an index
    out of range, which leaves [handleSerialInput] at once. *)
Definition hkey_commands (command arg0 : string) (fw : Firmware)
  : option Firmware :=
  if C.starts_with "hkey" command then
    let keyStr := StringHelper.getArgumentAt command "."%char 0 in
    let setting := StringHelper.getArgumentAt command "."%char 1 in
    if C.strlen keyStr >? 4 then
      let keyIndex := C.uint8_t (C.atoi (C.advance 4 keyStr) - 1) in
      if keyIndex >=? HE_KEYS fw then None
      else Some (with_heKeys
                   (for_keys (Z.to_nat keyIndex) 1
                             (hkey_setting setting arg0)) fw)
    else Some (with_heKeys
                 (for_keys 0 (Z.to_nat (HE_KEYS fw))
                           (hkey_setting setting arg0)) fw)
  else Some fw.

(** The [dkey] block, with the same convention. *)
Definition dkey_commands (command arg0 : string) (fw : Firmware)
  : option Firmware :=
  if C.starts_with "dkey" command then
    let keyStr := StringHelper.getArgumentAt command "."%char 0 in
    let setting := StringHelper.getArgumentAt command "."%char 1 in
    if C.strlen keyStr >? 4 then
      let keyIndex := C.uint8_t (C.atoi (C.advance 4 keyStr) - 1) in
      if keyIndex >=? DIGITAL_KEYS fw then None
      else Some (with_digitalKeys
                   (for_keys (Z.to_nat keyIndex) 1
                             (dkey_setting setting arg0)) fw)
    else Some (with_digitalKeys
                 (for_keys 0 (Z.to_nat (DIGITAL_KEYS fw))
                           (dkey_setting setting arg0)) fw)
  else Some fw.

Definition global_commands (command parameters arg0 : string)
  (fw : Firmware) : Firmware :=
  if C.isEqual command "boot" then boot fw
  else if C.isEqual command "save" then save fw
  else if C.isEqual command "get" then get fw
  else if C.isEqual command "name" then name parameters fw
  else if C.isEqual command "out"
  then out (C.isEqual arg0 "") (C.isTrue arg0) fw
  else if C.isEqual command "echo" then echo parameters fw
  else fw.

Definition handleSerialInput (input : string) (fw : Firmware) : Firmware :=
  let input := StringHelper.toLower input in
  let command := StringHelper.getArgumentAt input " "%char 0 in
  let parameters := C.advance (String.length command) input in
  let parameters :=
    if C.starts_with " " parameters then C.advance 1 parameters
    else parameters in
  let arg0 := StringHelper.getArgumentAt parameters " "%char 0 in
  let fw := global_commands command parameters arg0 fw in
  match hkey_commands command arg0 fw with
  | None => fw
  | Some fw =>
      match dkey_commands command arg0 fw with
      | None => fw
      | Some fw => fw
      end
  end.

End Handler.

End Rewrite.

(** ** The legacy handler ([key] protocol) *)

Module Legacy.

Record HEKey := {
  index : Z;                          (* uint8_t *)
  rapidTrigger : bool;
  continuousRapidTrigger : bool;
  rapidTriggerUpSensitivity : Z;      (* uint16_t *)
  rapidTriggerDownSensitivity : Z;    (* uint16_t *)
  lowerHysteresis : Z;                (* uint16_t *)
  upperHysteresis : Z;                (* uint16_t *)
  keyChar : Z;                        (* uint8_t *)
  restPosition : Z;                   (* uint16_t *)
  downPosition : Z;                   (* uint16_t *)
  hidEnabled : bool;
}.

Record DigitalKey := {
  dindex : Z;
  dkeyChar : Z;
  dhidEnabled : bool;
}.

Record Configuration := {
  config_name : string;
  heKeys : list HEKey;
  digitalKeys : list DigitalKey;
}.

Record Firmware := {
  config : Configuration;
  savedConfig : Configuration;
  outputMode : bool;
  usbBoot : bool;
  serial : list string;
}.

Definition HE_KEYS (fw : Firmware) : Z :=
  Z.of_nat (length (heKeys (config fw))).
Definition DIGITAL_KEYS (fw : Firmware) : Z :=
  Z.of_nat (length (digitalKeys (config fw))).

(** What this revision of the file uses without defining it: the
    [DEBUG] flag, the two setters of the digital keys (taken with the
    parameter types of [key_char] and [key_hid]), and the text [printf]
    writes when [get] hands an [int] to a [%s] conversion (undefined in
    C). *)
Class Externals := {
  DEBUG : bool;
  dkey_char : DigitalKey -> Z -> DigitalKey;
  dkey_hid : DigitalKey -> bool -> DigitalKey;
  printf_s : Z -> string;
}.

(** *** Assignments to single members *)

Definition set_rapidTrigger (v : bool) (key : HEKey) : HEKey :=
  {| index := index key; rapidTrigger := v;
     continuousRapidTrigger := continuousRapidTrigger key;
     rapidTriggerUpSensitivity := rapidTriggerUpSensitivity key;
     rapidTriggerDownSensitivity := rapidTriggerDownSensitivity key;
     lowerHysteresis := lowerHysteresis key;
     upperHysteresis := upperHysteresis key; keyChar := keyChar key;
     restPosition := restPosition key; downPosition := downPosition key;
     hidEnabled := hidEnabled key |}.

Definition set_continuousRapidTrigger (v : bool) (key : HEKey) : HEKey :=
  {| index := index key; rapidTrigger := rapidTrigger key;
     continuousRapidTrigger := v;
     rapidTriggerUpSensitivity := rapidTriggerUpSensitivity key;
     rapidTriggerDownSensitivity := rapidTriggerDownSensitivity key;
     lowerHysteresis := lowerHysteresis key;
     upperHysteresis := upperHysteresis key; keyChar := keyChar key;
     restPosition := restPosition key; downPosition := downPosition key;
     hidEnabled := hidEnabled key |}.

Definition set_rapidTriggerUpSensitivity (v : Z) (key : HEKey) : HEKey :=
  {| index := index key; rapidTrigger := rapidTrigger key;
     continuousRapidTrigger := continuousRapidTrigger key;
     rapidTriggerUpSensitivity := v;
     rapidTriggerDownSensitivity := rapidTriggerDownSensitivity key;
     lowerHysteresis := lowerHysteresis key;
     upperHysteresis := upperHysteresis key; keyChar := keyChar key;
     restPosition := restPosition key; downPosition := downPosition key;
     hidEnabled := hidEnabled key |}.

Definition set_rapidTriggerDownSensitivity (v : Z) (key : HEKey) : HEKey :=
  {| index := index key; rapidTrigger := rapidTrigger key;
     continuousRapidTrigger := continuousRapidTrigger key;
     rapidTriggerUpSensitivity := rapidTriggerUpSensitivity key;
     rapidTriggerDownSensitivity := v;
     lowerHysteresis := lowerHysteresis key;
     upperHysteresis := upperHysteresis key; keyChar := keyChar key;
     restPosition := restPosition key; downPosition := downPosition key;
     hidEnabled := hidEnabled key |}.

Definition set_lowerHysteresis (v : Z) (key : HEKey) : HEKey :=
  {| index := index key; rapidTrigger := rapidTrigger key;
     continuousRapidTrigger := continuousRapidTrigger key;
     rapidTriggerUpSensitivity := rapidTriggerUpSensitivity key;
     rapidTriggerDownSensitivity := rapidTriggerDownSensitivity key;
     lowerHysteresis := v;
     upperHysteresis := upperHysteresis key; keyChar := keyChar key;
     restPosition := restPosition key; downPosition := downPosition key;
     hidEnabled := hidEnabled key |}.

Definition set_upperHysteresis (v : Z) (key : HEKey) : HEKey :=
  {| index := index key; rapidTrigger := rapidTrigger key;
     continuousRapidTrigger := continuousRapidTrigger key;
     rapidTriggerUpSensitivity := rapidTriggerUpSensitivity key;
     rapidTriggerDownSensitivity := rapidTriggerDownSensitivity key;
     lowerHysteresis := lowerHysteresis key;
     upperHysteresis := v; keyChar := keyChar key;
     restPosition := restPosition key; downPosition := downPosition key;
     hidEnabled := hidEnabled key |}.

Definition set_keyChar (v : Z) (key : HEKey) : HEKey :=
  {| index := index key; rapidTrigger := rapidTrigger key;
     continuousRapidTrigger := continuousRapidTrigger key;
     rapidTriggerUpSensitivity := rapidTriggerUpSensitivity key;
     rapidTriggerDownSensitivity := rapidTriggerDownSensitivity key;
     lowerHysteresis := lowerHysteresis key;
     upperHysteresis := upperHysteresis key; keyChar := v;
     restPosition := restPosition key; downPosition := downPosition key;
     hidEnabled := hidEnabled key |}.

Definition set_restPosition (v : Z) (key : HEKey) : HEKey :=
  {| index := index key; rapidTrigger := rapidTrigger key;
     continuousRapidTrigger := continuousRapidTrigger key;
     rapidTriggerUpSensitivity := rapidTriggerUpSensitivity key;
     rapidTriggerDownSensitivity := rapidTriggerDownSensitivity key;
     lowerHysteresis := lowerHysteresis key;
     upperHysteresis := upperHysteresis key; keyChar := keyChar key;
     restPosition := v; downPosition := downPosition key;
     hidEnabled := hidEnabled key |}.

Definition set_downPosition (v : Z) (key : HEKey) : HEKey :=
  {| index := index key; rapidTrigger := rapidTrigger key;
     continuousRapidTrigger := continuousRapidTrigger key;
     rapidTriggerUpSensitivity := rapidTriggerUpSensitivity key;
     rapidTriggerDownSensitivity := rapidTriggerDownSensitivity key;
     lowerHysteresis := lowerHysteresis key;
     upperHysteresis := upperHysteresis key; keyChar := keyChar key;
     restPosition := restPosition key; downPosition := v;
     hidEnabled := hidEnabled key |}.

Definition set_hidEnabled (v : bool) (key : HEKey) : HEKey :=
  {| index := index key; rapidTrigger := rapidTrigger key;
     continuousRapidTrigger := continuousRapidTrigger key;
     rapidTriggerUpSensitivity := rapidTriggerUpSensitivity key;
     rapidTriggerDownSensitivity := rapidTriggerDownSensitivity key;
     lowerHysteresis := lowerHysteresis key;
     upperHysteresis := upperHysteresis key; keyChar := keyChar key;
     restPosition := restPosition key; downPosition := downPosition key;
     hidEnabled := v |}.

Definition set_config_name (v : string) (c : Configuration) : Configuration :=
  {| config_name := v; heKeys := heKeys c; digitalKeys := digitalKeys c |}.

Definition set_heKeys (v : list HEKey) (c : Configuration) : Configuration :=
  {| config_name := config_name c; heKeys := v;
     digitalKeys := digitalKeys c |}.

Definition set_digitalKeys (v : list DigitalKey) (c : Configuration)
  : Configuration :=
  {| config_name := config_name c; heKeys := heKeys c;
     digitalKeys := v |}.

Definition set_config (v : Configuration) (fw : Firmware) : Firmware :=
  {| config := v; savedConfig := savedConfig fw;
     outputMode := outputMode fw; usbBoot := usbBoot fw;
     serial := serial fw |}.

Definition set_savedConfig (v : Configuration) (fw : Firmware) : Firmware :=
  {| config := config fw; savedConfig := v;
     outputMode := outputMode fw; usbBoot := usbBoot fw;
     serial := serial fw |}.

Definition set_outputMode (v : bool) (fw : Firmware) : Firmware :=
  {| config := config fw; savedConfig := savedConfig fw;
     outputMode := v; usbBoot := usbBoot fw; serial := serial fw |}.

Definition set_usbBoot (v : bool) (fw : Firmware) : Firmware :=
  {| config := config fw; savedConfig := savedConfig fw;
     outputMode := outputMode fw; usbBoot := v; serial := serial fw |}.

Definition print (line : string) (fw : Firmware) : Firmware :=
  {| config := config fw; savedConfig := savedConfig fw;
     outputMode := outputMode fw; usbBoot := usbBoot fw;
     serial := (serial fw ++ [line])%list |}.

Definition print_all (lines : list string) (fw : Firmware) : Firmware :=
  fold_left (fun fw line => print line fw) lines fw.

Section Handler.

Context {defs : Definitions} {ext : Externals}.

(** *** The setters *)

Definition key_rt (key : HEKey) (state : bool) : HEKey :=
  set_rapidTrigger state key.

Definition key_crt (key : HEKey) (state : bool) : HEKey :=
  set_continuousRapidTrigger state key.

Definition key_rtus (key : HEKey) (value : Z) : HEKey :=
  if (value >=? RAPID_TRIGGER_TOLERANCE)
     && (value <=? TRAVEL_DISTANCE_IN_0_01MM)
  then set_rapidTriggerUpSensitivity value key
  else key.

Definition key_rtds (key : HEKey) (value : Z) : HEKey :=
  if (value >=? RAPID_TRIGGER_TOLERANCE)
     && (value <=? TRAVEL_DISTANCE_IN_0_01MM)
  then set_rapidTriggerDownSensitivity value key
  else key.

Definition key_lh (key : HEKey) (value : Z) : HEKey :=
  if upperHysteresis key - value >=? HYSTERESIS_TOLERANCE
  then set_lowerHysteresis value key
  else key.

Definition key_uh (key : HEKey) (value : Z) : HEKey :=
  if (value - lowerHysteresis key >=? HYSTERESIS_TOLERANCE)
     && (TRAVEL_DISTANCE_IN_0_01MM - value >=? HYSTERESIS_TOLERANCE)
  then set_upperHysteresis value key
  else key.

Definition key_char (key : HEKey) (keyChar : Z) : HEKey :=
  if (keyChar >=? 97) && (keyChar <=? 122)
  then set_keyChar keyChar key
  else key.

(** [pow(2, ANALOG_RESOLUTION) - 1] is computed in [double], exactly
    for the resolutions of an ADC. *)
Definition key_rest (key : HEKey) (value : Z) : HEKey :=
  if (value >? downPosition key) && (value <=? 2 ^ ANALOG_RESOLUTION - 1)
  then set_restPosition value key
  else key.

Definition key_down (key : HEKey) (value : Z) : HEKey :=
  if value <? restPosition key
  then set_downPosition value key
  else key.

Definition key_hid (key : HEKey) (state : bool) : HEKey :=
  set_hidEnabled state key.

(** *** The global commands *)

Definition boot (fw : Firmware) : Firmware := set_usbBoot true fw.

Definition save (fw : Firmware) : Firmware :=
  set_savedConfig (config fw) fw.

Definition get_key (fw : Firmware) (key : HEKey) : Firmware :=
  let n := C.printf_d (index key + 1) in
  print_all
    [ "GET key" ++ n ++ ".rt=" ++ C.printf_b (rapidTrigger key);
      "GET key" ++ n ++ ".crt=" ++ C.printf_b (continuousRapidTrigger key);
      "GET key" ++ n ++ ".rtus="
        ++ C.printf_d (rapidTriggerUpSensitivity key);
      "GET key" ++ n ++ ".rtds="
        ++ C.printf_d (rapidTriggerDownSensitivity key);
      "GET key" ++ n ++ ".lh=" ++ C.printf_d (lowerHysteresis key);
      "GET key" ++ n ++ ".uh=" ++ C.printf_d (upperHysteresis key);
      "GET key" ++ n ++ ".key=" ++ C.printf_d (keyChar key);
      "GET key" ++ n ++ ".rest=" ++ C.printf_d (restPosition key);
      "GET key" ++ n ++ ".down=" ++ C.printf_d (downPosition key);
      "GET key" ++ n ++ ".hid=" ++ C.printf_b (hidEnabled key) ]
    fw.

Definition get (fw : Firmware) : Firmware :=
  let fw :=
    print_all
      [ "GET version=" ++ FIRMWARE_VERSION
          ++ (if DEBUG then "-dev" else "");
        "GET hkeys=" ++ printf_s (HE_KEYS fw);
        "GET dkeys=" ++ printf_s (DIGITAL_KEYS fw);
        "GET name=" ++ config_name (config fw);
        "GET htol=" ++ C.printf_d HYSTERESIS_TOLERANCE;
        "GET rtol=" ++ C.printf_d RAPID_TRIGGER_TOLERANCE;
        "GET trdt=" ++ C.printf_d TRAVEL_DISTANCE_IN_0_01MM ]
      fw in
  let fw := fold_left get_key (heKeys (config fw)) fw in
  print "GET END" fw.

Definition name (name : string) (fw : Firmware) : Firmware :=
  let length := C.strlen name in
  if (length >=? 1) && (length <=? 128)
  then set_config (set_config_name name (config fw)) fw
  else fw.

Definition out (state : bool) (fw : Firmware) : Firmware :=
  set_outputMode state fw.

Definition echo (input : string) (fw : Firmware) : Firmware :=
  print input fw.

(** *** The dispatcher *)

Definition key_setting (setting arg0 : string) (key : HEKey) : HEKey :=
  if C.isEqual setting "rt" then key_rt key (C.isTrue arg0)
  else if C.isEqual setting "crt" then key_crt key (C.isTrue arg0)
  else if C.isEqual setting "rtus"
  then key_rtus key (C.uint16_t (C.atoi arg0))
  else if C.isEqual setting "rtds"
  then key_rtds key (C.uint16_t (C.atoi arg0))
  else if C.isEqual setting "lh"
  then key_lh key (C.uint16_t (C.atoi arg0))
  else if C.isEqual setting "uh"
  then key_uh key (C.uint16_t (C.atoi arg0))
  else if C.isEqual setting "char"
  then key_char key (C.uint8_t (C.atoi arg0))
  else if C.isEqual setting "rest"
  then key_rest key (C.uint16_t (C.atoi arg0))
  else if C.isEqual setting "down"
  then key_down key (C.uint16_t (C.atoi arg0))
  else if C.isEqual setting "hid" then key_hid key (C.isTrue arg0)
  else key.

Definition dkey_setting (setting arg0 : string) (key : DigitalKey)
  : DigitalKey :=
  if C.isEqual setting "char"
  then dkey_char key (C.uint8_t (C.atoi arg0))
  else if C.isEqual setting "hid" then dkey_hid key (C.isTrue arg0)
  else key.

Definition with_heKeys (f : list HEKey -> list HEKey) (fw : Firmware)
  : Firmware :=
  set_config (set_heKeys (f (heKeys (config fw))) (config fw)) fw.

Definition with_digitalKeys (f : list DigitalKey -> list DigitalKey)
  (fw : Firmware) : Firmware :=
  set_config (set_digitalKeys (f (digitalKeys (config fw))) (config fw)) fw.

(** The [key] block; [None] is the [return] on an index out of range. *)
Definition key_commands (command arg0 : string) (fw : Firmware)
  : option Firmware :=
  if C.starts_with "key" command then
    let keyStr := StringHelper.getArgumentAt command "."%char 0 in
    let setting := StringHelper.getArgumentAt command "."%char 1 in
    if C.strlen keyStr >? 3 then
      let keyIndex := C.uint8_t (C.atoi (C.advance 3 keyStr) - 1) in
      if keyIndex >=? HE_KEYS fw then None
      else Some (with_heKeys
                   (for_keys (Z.to_nat keyIndex) 1
                             (key_setting setting arg0)) fw)
    else Some (with_heKeys
                 (for_keys 0 (Z.to_nat (HE_KEYS fw))
                           (key_setting setting arg0)) fw)
  else Some fw.

Definition dkey_commands (command arg0 : string) (fw : Firmware)
  : option Firmware :=
  if C.starts_with "dkey" command then
    let keyStr := StringHelper.getArgumentAt command "."%char 0 in
    let setting := StringHelper.getArgumentAt command "."%char 1 in
    if C.strlen keyStr >? 4 then
      let keyIndex := C.uint8_t (C.atoi (C.advance 4 keyStr) - 1) in
      if keyIndex >=? DIGITAL_KEYS fw then None
      else Some (with_digitalKeys
                   (for_keys (Z.to_nat keyIndex) 1
                             (dkey_setting setting arg0)) fw)
    else Some (with_digitalKeys
                 (for_keys 0 (Z.to_nat (DIGITAL_KEYS fw))
                           (dkey_setting setting arg0)) fw)
  else Some fw.

Definition global_commands (command parameters arg0 : string)
  (fw : Firmware) : Firmware :=
  if C.isEqual command "boot" then boot fw
  else if C.isEqual command "save" then save fw
  else if C.isEqual command "get" then get fw
  else if C.isEqual command "name" then name parameters fw
  else if C.isEqual command "out" then out (C.isTrue arg0) fw
  else if DEBUG && C.isEqual command "echo" then echo parameters fw
  else fw.

(** [parameters = input + strlen(command) + 1] steps over the
    character that ends the command.  When that character is the
    terminator of [input] the pointer leaves the buffer, and
    [beyond] stands for whatever zero-terminated bytes lie there. *)
Definition handleSerialInput (beyond : string) (inputStr : string)
  (fw : Firmware) : Firmware :=
  let input := StringHelper.toLower inputStr in
  let command := StringHelper.getArgumentAt input " "%char 0 in
  let parameters :=
    if C.strlen command <? C.strlen input
    then C.advance (String.length command + 1) input
    else beyond in
  let arg0 := StringHelper.getArgumentAt parameters " "%char 0 in
  let fw := global_commands command parameters arg0 fw in
  match key_commands command arg0 fw with
  | None => fw
  | Some fw =>
      match dkey_commands command arg0 fw with
      | None => fw
      | Some fw => fw
      end
  end.

End Handler.

End Legacy.

(** ** A build to evaluate the handlers on *)

(** The [minipad-box] environment of platformio.ini has three hall effect
    keys and eighteen digital keys.  The constants of definitions.hpp are
    given sample values: a travel of 400 and a 12-bit converter as in the
    scenarios of the specification, and tolerances of 10. *)
Module Box.

Definition defs : Definitions :=
  {| HYSTERESIS_TOLERANCE := 10;
     RAPID_TRIGGER_TOLERANCE := 10;
     TRAVEL_DISTANCE_IN_0_01MM := 400;
     ANALOG_RESOLUTION := 12;
     FIRMWARE_VERSION := "2023.1" |}.

Definition hkey (i : Z) : Rewrite.HEKey :=
  {| Rewrite.he_key :=
       {| Rewrite.index := i; Rewrite.keyChar := 97 + i;
          Rewrite.hidEnabled := false |};
     Rewrite.rapidTrigger := false;
     Rewrite.continuousRapidTrigger := false;
     Rewrite.rapidTriggerUpSensitivity := 50;
     Rewrite.rapidTriggerDownSensitivity := 50;
     Rewrite.lowerHysteresis := 250;
     Rewrite.upperHysteresis := 300 |}.

Definition dkey (i : Z) : Rewrite.DigitalKey :=
  {| Rewrite.digital_key :=
       {| Rewrite.index := i; Rewrite.keyChar := 100 + i;
          Rewrite.hidEnabled := false |} |}.

Definition state (i : Z) : Rewrite.HEKeyState :=
  {| Rewrite.lastSensorValue := 3000 + i;
     Rewrite.lastMappedValue := 90 + i;
     Rewrite.restPosition := 3800;
     Rewrite.downPosition := 200 |}.

Definition upto {A} (n : nat) (f : Z -> A) : list A :=
  map (fun i => f (Z.of_nat i)) (seq 0 n).

Definition configuration : Rewrite.Configuration :=
  {| Rewrite.config_name := "minipad";
     Rewrite.heKeys := upto 3 hkey;
     Rewrite.digitalKeys := upto 18 dkey |}.

Definition firmware : Rewrite.Firmware :=
  {| Rewrite.config := configuration;
     Rewrite.savedConfig := configuration;
     Rewrite.heKeyStates := upto 3 state;
     Rewrite.outputMode := false;
     Rewrite.usbBoot := false;
     Rewrite.serial := [] |}.

Definition legacy_key (i : Z) : Legacy.HEKey :=
  {| Legacy.index := i;
     Legacy.rapidTrigger := false;
     Legacy.continuousRapidTrigger := false;
     Legacy.rapidTriggerUpSensitivity := 50;
     Legacy.rapidTriggerDownSensitivity := 50;
     Legacy.lowerHysteresis := 250;
     Legacy.upperHysteresis := 300;
     Legacy.keyChar := 97 + i;
     Legacy.restPosition := 3800;
     Legacy.downPosition := 200;
     Legacy.hidEnabled := false |}.

Definition legacy_dkey (i : Z) : Legacy.DigitalKey :=
  {| Legacy.dindex := i; Legacy.dkeyChar := 100 + i;
     Legacy.dhidEnabled := false |}.

Definition legacy_configuration : Legacy.Configuration :=
  {| Legacy.config_name := "minipad";
     Legacy.heKeys := upto 3 legacy_key;
     Legacy.digitalKeys := upto 18 legacy_dkey |}.

Definition legacy_firmware : Legacy.Firmware :=
  {| Legacy.config := legacy_configuration;
     Legacy.savedConfig := legacy_configuration;
     Legacy.outputMode := false;
     Legacy.usbBoot := false;
     Legacy.serial := [] |}.

(** Stand-ins for what the legacy file leaves undefined, needed only to
    run it: digital setters that store their argument, a release build,
    and a [%s] that prints the number. *)
Definition externals : Legacy.Externals :=
  {| Legacy.DEBUG := false;
     Legacy.dkey_char key keyChar :=
       {| Legacy.dindex := Legacy.dindex key; Legacy.dkeyChar := keyChar;
          Legacy.dhidEnabled := Legacy.dhidEnabled key |};
     Legacy.dkey_hid key state :=
       {| Legacy.dindex := Legacy.dindex key;
          Legacy.dkeyChar := Legacy.dkeyChar key;
          Legacy.dhidEnabled := state |};
     Legacy.printf_s := C.printf_d |}.

End Box.

(** ** Vocabulary of the properties *)

(** The thresholds of a key are at least the tolerance apart. *)
Definition hysteresis_gap {defs : Definitions} (key : Rewrite.HEKey) : Prop :=
  Rewrite.upperHysteresis key - Rewrite.lowerHysteresis key
  >= HYSTERESIS_TOLERANCE.

Definition legacy_hysteresis_gap {defs : Definitions} (key : Legacy.HEKey) : Prop :=
  Legacy.upperHysteresis key - Legacy.lowerHysteresis key
  >= HYSTERESIS_TOLERANCE.

(** The calibration points of a key have the polarity of the sensor. *)
Definition rest_above_down (key : Legacy.HEKey) : Prop :=
  Legacy.restPosition key > Legacy.downPosition key.

(** The range of the two rapid trigger sensitivities. *)
Definition sensitivity_in_range {defs : Definitions} (value : Z) : Prop :=
  RAPID_TRIGGER_TOLERANCE <= value <= TRAVEL_DISTANCE_IN_0_01MM.

(** The settings of a legacy key as a key of the rewrite, where the
    calibration points are no longer part of the configuration. *)
Definition settings_of (key : Legacy.HEKey) : Rewrite.HEKey :=
  {| Rewrite.he_key :=
       {| Rewrite.index := Legacy.index key;
          Rewrite.keyChar := Legacy.keyChar key;
          Rewrite.hidEnabled := Legacy.hidEnabled key |};
     Rewrite.rapidTrigger := Legacy.rapidTrigger key;
     Rewrite.continuousRapidTrigger := Legacy.continuousRapidTrigger key;
     Rewrite.rapidTriggerUpSensitivity := Legacy.rapidTriggerUpSensitivity key;
     Rewrite.rapidTriggerDownSensitivity :=
       Legacy.rapidTriggerDownSensitivity key;
     Rewrite.lowerHysteresis := Legacy.lowerHysteresis key;
     Rewrite.upperHysteresis := Legacy.upperHysteresis key |}.

(** A legacy key with the settings of [key] and the given calibration. *)
Definition legacy_of (key : Rewrite.HEKey) (rest down : Z) : Legacy.HEKey :=
  {| Legacy.index := Rewrite.index (Rewrite.he_key key);
     Legacy.rapidTrigger := Rewrite.rapidTrigger key;
     Legacy.continuousRapidTrigger := Rewrite.continuousRapidTrigger key;
     Legacy.rapidTriggerUpSensitivity := Rewrite.rapidTriggerUpSensitivity key;
     Legacy.rapidTriggerDownSensitivity :=
       Rewrite.rapidTriggerDownSensitivity key;
     Legacy.lowerHysteresis := Rewrite.lowerHysteresis key;
     Legacy.upperHysteresis := Rewrite.upperHysteresis key;
     Legacy.keyChar := Rewrite.keyChar (Rewrite.he_key key);
     Legacy.restPosition := rest;
     Legacy.downPosition := down;
     Legacy.hidEnabled := Rewrite.hidEnabled (Rewrite.he_key key) |}.

(** The calibration points, which only the legacy key carries. *)
Definition calibration_of (key : Legacy.HEKey) : Z * Z :=
  (Legacy.restPosition key, Legacy.downPosition key).

(** The members of a key, and the value a key holds in each of them
    (a flag read as 0 or 1; [None] where the key has no such member). *)
Inductive member : Set :=
  | m_index
  | m_keyChar
  | m_hidEnabled
  | m_rapidTrigger
  | m_continuousRapidTrigger
  | m_rapidTriggerUpSensitivity
  | m_rapidTriggerDownSensitivity
  | m_lowerHysteresis
  | m_upperHysteresis
  | m_restPosition
  | m_downPosition.

Definition read (m : member) (key : Rewrite.HEKey) : option Z :=
  match m with
  | m_index => Some (Rewrite.index (Rewrite.he_key key))
  | m_keyChar => Some (Rewrite.keyChar (Rewrite.he_key key))
  | m_hidEnabled => Some (Z.b2z (Rewrite.hidEnabled (Rewrite.he_key key)))
  | m_rapidTrigger => Some (Z.b2z (Rewrite.rapidTrigger key))
  | m_continuousRapidTrigger =>
      Some (Z.b2z (Rewrite.continuousRapidTrigger key))
  | m_rapidTriggerUpSensitivity => Some (Rewrite.rapidTriggerUpSensitivity key)
  | m_rapidTriggerDownSensitivity =>
      Some (Rewrite.rapidTriggerDownSensitivity key)
  | m_lowerHysteresis => Some (Rewrite.lowerHysteresis key)
  | m_upperHysteresis => Some (Rewrite.upperHysteresis key)
  | m_restPosition | m_downPosition => None
  end.

Definition read_digital (m : member) (key : Rewrite.DigitalKey) : option Z :=
  match m with
  | m_index => Some (Rewrite.index (Rewrite.digital_key key))
  | m_keyChar => Some (Rewrite.keyChar (Rewrite.digital_key key))
  | m_hidEnabled => Some (Z.b2z (Rewrite.hidEnabled (Rewrite.digital_key key)))
  | _ => None
  end.

Definition read_legacy (m : member) (key : Legacy.HEKey) : option Z :=
  match m with
  | m_index => Some (Legacy.index key)
  | m_keyChar => Some (Legacy.keyChar key)
  | m_hidEnabled => Some (Z.b2z (Legacy.hidEnabled key))
  | m_rapidTrigger => Some (Z.b2z (Legacy.rapidTrigger key))
  | m_continuousRapidTrigger => Some (Z.b2z (Legacy.continuousRapidTrigger key))
  | m_rapidTriggerUpSensitivity => Some (Legacy.rapidTriggerUpSensitivity key)
  | m_rapidTriggerDownSensitivity =>
      Some (Legacy.rapidTriggerDownSensitivity key)
  | m_lowerHysteresis => Some (Legacy.lowerHysteresis key)
  | m_upperHysteresis => Some (Legacy.upperHysteresis key)
  | m_restPosition => Some (Legacy.restPosition key)
  | m_downPosition => Some (Legacy.downPosition key)
  end.

(** [key'] differs from [key] in the member [m] at most. *)
Definition differs_at_most {K} (reading : member -> K -> option Z)
  (m : member) (key key' : K) : Prop :=
  forall m', m' <> m -> reading m' key' = reading m' key.


(** The string made of [n] copies of the character [c]. *)
Fixpoint repeated (c : ascii) (n : nat) : string :=
  match n with
  | O => EmptyString
  | S n' => String c (repeated c n')
  end.

(** The first token of a line as the handlers see it, and the first
    token of what follows it in the rewrite. *)
Definition command_of (input : string) : string :=
  StringHelper.getArgumentAt (StringHelper.toLower input) " "%char 0.

Definition parameters_of (input : string) : string :=
  let parameters :=
    C.advance (String.length (command_of input)) (StringHelper.toLower input) in
  if C.starts_with " " parameters then C.advance 1 parameters else parameters.

Definition arg0_of (input : string) : string :=
  StringHelper.getArgumentAt (parameters_of input) " "%char 0.


(** The commands that set a member of the configuration. *)
Definition setter_command (command : string) : bool :=
  C.starts_with "hkey" command || C.starts_with "dkey" command
  || C.isEqual command "name".

Definition legacy_setter_command (command : string) : bool :=
  C.starts_with "key" command || C.starts_with "dkey" command
  || C.isEqual command "name".

(** What the legacy handler takes for the parameters of a line. *)
Definition legacy_parameters_of (beyond input : string) : string :=
  if C.strlen (command_of input) <? C.strlen (StringHelper.toLower input)
  then C.advance (String.length (command_of input) + 1)
                 (StringHelper.toLower input)
  else beyond.

Definition legacy_arg0_of (beyond input : string) : string :=
  StringHelper.getArgumentAt (legacy_parameters_of beyond input) " "%char 0.


(** The line [printHEKeyOutput] writes for a key: index plus one, last
    raw reading, last mapped reading. *)
Definition out_line (fw : Rewrite.Firmware) (key : Rewrite.HEKey) : string :=
  "OUT hkey" ++ C.printf_d (Rewrite.index (Rewrite.he_key key) + 1)
  ++ "="
  ++ C.printf_d
       (Rewrite.lastSensorValue
          (Rewrite.stateAt fw (Rewrite.index (Rewrite.he_key key))))
  ++ " "
  ++ C.printf_d
       (Rewrite.lastMappedValue
          (Rewrite.stateAt fw (Rewrite.index (Rewrite.he_key key)))).

(** The line the specification gives for [out]:
    [OUT key<N>=<raw> <mapped>]. *)
Definition specified_out_line (n raw mapped : Z) : string :=
  "OUT key" ++ C.printf_d n ++ "=" ++ C.printf_d raw ++ " "
  ++ C.printf_d mapped.


(** The invariants the data model asks of the settings of a hall effect
    key: thresholds a tolerance apart, the upper one a tolerance below the
    end of the travel, both sensitivities within their range. *)
Definition key_invariant {defs : Definitions} (key : Rewrite.HEKey) : Prop :=
  hysteresis_gap key
  /\ TRAVEL_DISTANCE_IN_0_01MM - Rewrite.upperHysteresis key
     >= HYSTERESIS_TOLERANCE
  /\ sensitivity_in_range (Rewrite.rapidTriggerUpSensitivity key)
  /\ sensitivity_in_range (Rewrite.rapidTriggerDownSensitivity key).

(** The same for a legacy key, which also carries its calibration. *)
Definition legacy_key_invariant {defs : Definitions} (key : Legacy.HEKey)
  : Prop :=
  key_invariant (settings_of key) /\ rest_above_down key.


(** The members of a key hold values of their C types. *)
Definition members_in_range (key : Rewrite.HEKey) : Prop :=
  C.is_uint16_t (Rewrite.rapidTriggerUpSensitivity key)
  /\ C.is_uint16_t (Rewrite.rapidTriggerDownSensitivity key)
  /\ C.is_uint16_t (Rewrite.lowerHysteresis key)
  /\ C.is_uint16_t (Rewrite.upperHysteresis key)
  /\ C.is_uint8_t (Rewrite.keyChar (Rewrite.he_key key)).



(** The parts of a key command: the text before the first dot, the text
    between the first and the second dot, and the index the handler
    computes from the digits that follow the [skip] letters of the
    prefix. *)
Definition key_string_of (input : string) : string :=
  StringHelper.getArgumentAt (command_of input) "."%char 0.

Definition setting_of (input : string) : string :=
  StringHelper.getArgumentAt (command_of input) "."%char 1.

Definition key_index_of (skip : nat) (input : string) : Z :=
  C.uint8_t (C.atoi (C.advance skip (key_string_of input)) - 1).

(** The lines of a dump, in the order [get] writes them. *)
Definition get_header {defs : Definitions} (fw : Rewrite.Firmware)
  : list string :=
  [ "GET version=" ++ FIRMWARE_VERSION ++ (if Rewrite.DEV then "-dev" else "");
    "GET hkeys=" ++ C.printf_d (Rewrite.HE_KEYS fw);
    "GET dkeys=" ++ C.printf_d (Rewrite.DIGITAL_KEYS fw);
    "GET name=" ++ Rewrite.config_name (Rewrite.config fw);
    "GET htol=" ++ C.printf_d HYSTERESIS_TOLERANCE;
    "GET rtol=" ++ C.printf_d RAPID_TRIGGER_TOLERANCE;
    "GET trdt=" ++ C.printf_d TRAVEL_DISTANCE_IN_0_01MM;
    "GET ares=" ++ C.printf_d ANALOG_RESOLUTION ].

Definition get_hkey_lines (fw : Rewrite.Firmware) (key : Rewrite.HEKey)
  : list string :=
  let n := C.printf_d (Rewrite.index (Rewrite.he_key key) + 1) in
  let st := Rewrite.stateAt fw (Rewrite.index (Rewrite.he_key key)) in
  [ "GET hkey" ++ n ++ ".rt=" ++ C.printf_b (Rewrite.rapidTrigger key);
    "GET hkey" ++ n ++ ".crt="
      ++ C.printf_b (Rewrite.continuousRapidTrigger key);
    "GET hkey" ++ n ++ ".rtus="
      ++ C.printf_d (Rewrite.rapidTriggerUpSensitivity key);
    "GET hkey" ++ n ++ ".rtds="
      ++ C.printf_d (Rewrite.rapidTriggerDownSensitivity key);
    "GET hkey" ++ n ++ ".lh=" ++ C.printf_d (Rewrite.lowerHysteresis key);
    "GET hkey" ++ n ++ ".uh=" ++ C.printf_d (Rewrite.upperHysteresis key);
    "GET hkey" ++ n ++ ".char="
      ++ C.printf_d (Rewrite.keyChar (Rewrite.he_key key));
    "GET hkey" ++ n ++ ".rest=" ++ C.printf_d (Rewrite.restPosition st);
    "GET hkey" ++ n ++ ".down=" ++ C.printf_d (Rewrite.downPosition st);
    "GET hkey" ++ n ++ ".hid="
      ++ C.printf_b (Rewrite.hidEnabled (Rewrite.he_key key)) ].

Definition get_dkey_lines (key : Rewrite.DigitalKey) : list string :=
  let n := C.printf_d (Rewrite.index (Rewrite.digital_key key) + 1) in
  [ "GET dkey" ++ n ++ ".char="
      ++ C.printf_d (Rewrite.keyChar (Rewrite.digital_key key));
    "GET dkey" ++ n ++ ".hid="
      ++ C.printf_b (Rewrite.hidEnabled (Rewrite.digital_key key)) ].

Definition get_lines {defs : Definitions} (fw : Rewrite.Firmware)
  : list string :=
  (get_header fw
   ++ flat_map (get_hkey_lines fw) (Rewrite.heKeys (Rewrite.config fw))
   ++ flat_map get_dkey_lines (Rewrite.digitalKeys (Rewrite.config fw))
   ++ ["GET END"])%list.


(** The global commands, and the settings of the two kinds of keys. *)
Definition global_command_names : list string :=
  ["boot"; "save"; "get"; "name"; "out"; "echo"].

Definition hkey_setting_names : list string :=
  ["rt"; "crt"; "rtus"; "rtds"; "lh"; "uh"; "char"; "hid"].

Definition dkey_setting_names : list string := ["char"; "hid"].




(** ** Proof tools *)

(** Cases on every comparison a setter makes. *)
Ltac decide_checks :=
  repeat match goal with
    | |- context [?a >=? ?b] => destruct (Z.geb_spec a b)
    | |- context [?a <=? ?b] => destruct (Z.leb_spec a b)
    | |- context [?a >? ?b] => destruct (Z.gtb_spec a b)
    | |- context [?a <? ?b] => destruct (Z.ltb_spec a b)
    end;
  cbn [andb orb negb].

(** Closes a goal "the check holds and the value is stored, or it fails
    and the key is unchanged" once the comparisons are decided. *)
Ltac accepted_or_rejected :=
  first [ left; split; [lia | reflexivity]
        | right; split; [lia | reflexivity] ].

(** The frame of a setter, member by member. *)
Tactic Notation "frame_of" reference(setter) :=
  intros m' Hm'; unfold setter; decide_checks;
  solve [ reflexivity | destruct m'; first [ reflexivity | congruence ] ].

(** Cases on every comparison of [command] with a literal, keeping the
    ones that agree with the hypotheses on [command]. *)
Ltac compare_with_literals command :=
  repeat match goal with
    | |- context [C.isEqual command ?lit] =>
        unfold C.isEqual at 1;
        destruct (String.eqb_spec command lit);
        [ try (subst command; simpl in *; discriminate) | ]
    end.

(** ** Narrowing *)

(** The values the dispatcher hands to the setters are of the parameter
    types, and narrowing leaves a value of the type as it is. *)
Lemma uint16_t_range z : C.is_uint16_t (C.uint16_t z).
Proof. unfold C.is_uint16_t, C.uint16_t. apply Z.mod_pos_bound. lia. Qed.

Lemma uint8_t_range z : C.is_uint8_t (C.uint8_t z).
Proof. unfold C.is_uint8_t, C.uint8_t. apply Z.mod_pos_bound. lia. Qed.

Lemma uint16_t_of_uint16_t z : C.is_uint16_t z -> C.uint16_t z = z.
Proof. unfold C.is_uint16_t, C.uint16_t. intros H. now apply Z.mod_small. Qed.

Lemma uint8_t_of_uint8_t z : C.is_uint8_t z -> C.uint8_t z = z.
Proof. unfold C.is_uint8_t, C.uint8_t. intros H. now apply Z.mod_small. Qed.

(** ** The range of the rapid trigger sensitivities *)

Section Sensitivities.

Context {defs : Definitions}.

Lemma hkey_rtus_cases key value :
  (sensitivity_in_range value /\
   Rewrite.hkey_rtus key value
   = Rewrite.set_rapidTriggerUpSensitivity value key)
  \/ (~ sensitivity_in_range value /\ Rewrite.hkey_rtus key value = key).
Proof.
  unfold Rewrite.hkey_rtus, sensitivity_in_range.
  decide_checks; accepted_or_rejected.
Qed.

Lemma hkey_rtds_cases key value :
  (sensitivity_in_range value /\
   Rewrite.hkey_rtds key value
   = Rewrite.set_rapidTriggerDownSensitivity value key)
  \/ (~ sensitivity_in_range value /\ Rewrite.hkey_rtds key value = key).
Proof.
  unfold Rewrite.hkey_rtds, sensitivity_in_range.
  decide_checks; accepted_or_rejected.
Qed.

Lemma key_rtus_cases key value :
  (sensitivity_in_range value /\
   Legacy.key_rtus key value
   = Legacy.set_rapidTriggerUpSensitivity value key)
  \/ (~ sensitivity_in_range value /\ Legacy.key_rtus key value = key).
Proof.
  unfold Legacy.key_rtus, sensitivity_in_range.
  decide_checks; accepted_or_rejected.
Qed.

Lemma key_rtds_cases key value :
  (sensitivity_in_range value /\
   Legacy.key_rtds key value
   = Legacy.set_rapidTriggerDownSensitivity value key)
  \/ (~ sensitivity_in_range value /\ Legacy.key_rtds key value = key).
Proof.
  unfold Legacy.key_rtds, sensitivity_in_range.
  decide_checks; accepted_or_rejected.
Qed.

End Sensitivities.

(** C8.  For every key and every value (in particular every [uint16_t]),
    the up and down sensitivity setters take the value exactly when
    [RAPID_TRIGGER_TOLERANCE <= value <= TRAVEL_DISTANCE_IN_0_01MM]: inside
    the range the value is written to the member the setter is named
    after, outside of it the key is left as it was.  The legacy setters
    are the same. *)
Theorem sensitivity_setters_accept_exactly_the_range
  {defs : Definitions} (key : Rewrite.HEKey) (lkey : Legacy.HEKey)
  (value : Z) :
  (sensitivity_in_range value ->
     Rewrite.hkey_rtus key value
     = Rewrite.set_rapidTriggerUpSensitivity value key
     /\ Rewrite.rapidTriggerUpSensitivity (Rewrite.hkey_rtus key value) = value
     /\ Rewrite.hkey_rtds key value
        = Rewrite.set_rapidTriggerDownSensitivity value key
     /\ Rewrite.rapidTriggerDownSensitivity (Rewrite.hkey_rtds key value)
        = value
     /\ Legacy.rapidTriggerUpSensitivity (Legacy.key_rtus lkey value) = value
     /\ Legacy.rapidTriggerDownSensitivity (Legacy.key_rtds lkey value)
        = value)
  /\ (~ sensitivity_in_range value ->
        Rewrite.hkey_rtus key value = key
        /\ Rewrite.hkey_rtds key value = key
        /\ Legacy.key_rtus lkey value = lkey
        /\ Legacy.key_rtds lkey value = lkey).
Proof.
  destruct (hkey_rtus_cases key value) as [[Hin Hus] | [Hout Hus]],
           (hkey_rtds_cases key value) as [[Hin' Hds] | [Hout' Hds]],
           (key_rtus_cases lkey value) as [[Hin'' Hlus] | [Hout'' Hlus]],
           (key_rtds_cases lkey value) as [[Hin3 Hlds] | [Hout3 Hlds]];
    try contradiction;
    rewrite Hus, Hds, Hlus, Hlds;
    (split; [intros ? | intros ?]); try contradiction; repeat split.
Qed.

Lemma sensitivity_setters_witness :
  Rewrite.rapidTriggerUpSensitivity
    (Rewrite.hkey_rtus (defs := Box.defs) (Box.hkey 0) 25) = 25
  /\ Rewrite.hkey_rtds (defs := Box.defs) (Box.hkey 0) 401 = Box.hkey 0.
Proof.
  split.
  - apply (sensitivity_setters_accept_exactly_the_range
             (defs := Box.defs) (Box.hkey 0) (Box.legacy_key 0) 25).
    unfold sensitivity_in_range; simpl; lia.
  - apply (sensitivity_setters_accept_exactly_the_range
             (defs := Box.defs) (Box.hkey 0) (Box.legacy_key 0) 401).
    unfold sensitivity_in_range; simpl; lia.
Defined.

(** ** The hysteresis thresholds *)

Section Hysteresis.

Context {defs : Definitions}.

Lemma hkey_lh_cases key value :
  (Rewrite.upperHysteresis key - value >= HYSTERESIS_TOLERANCE /\
   Rewrite.hkey_lh key value = Rewrite.set_lowerHysteresis value key)
  \/ (Rewrite.upperHysteresis key - value < HYSTERESIS_TOLERANCE /\
      Rewrite.hkey_lh key value = key).
Proof. unfold Rewrite.hkey_lh. decide_checks; accepted_or_rejected. Qed.

Lemma hkey_uh_cases key value :
  ((value - Rewrite.lowerHysteresis key >= HYSTERESIS_TOLERANCE /\
    TRAVEL_DISTANCE_IN_0_01MM - value >= HYSTERESIS_TOLERANCE) /\
   Rewrite.hkey_uh key value = Rewrite.set_upperHysteresis value key)
  \/ (~ (value - Rewrite.lowerHysteresis key >= HYSTERESIS_TOLERANCE /\
         TRAVEL_DISTANCE_IN_0_01MM - value >= HYSTERESIS_TOLERANCE) /\
      Rewrite.hkey_uh key value = key).
Proof. unfold Rewrite.hkey_uh. decide_checks; accepted_or_rejected. Qed.

Lemma key_lh_cases key value :
  (Legacy.upperHysteresis key - value >= HYSTERESIS_TOLERANCE /\
   Legacy.key_lh key value = Legacy.set_lowerHysteresis value key)
  \/ (Legacy.upperHysteresis key - value < HYSTERESIS_TOLERANCE /\
      Legacy.key_lh key value = key).
Proof. unfold Legacy.key_lh. decide_checks; accepted_or_rejected. Qed.

Lemma key_uh_cases key value :
  ((value - Legacy.lowerHysteresis key >= HYSTERESIS_TOLERANCE /\
    TRAVEL_DISTANCE_IN_0_01MM - value >= HYSTERESIS_TOLERANCE) /\
   Legacy.key_uh key value = Legacy.set_upperHysteresis value key)
  \/ (~ (value - Legacy.lowerHysteresis key >= HYSTERESIS_TOLERANCE /\
         TRAVEL_DISTANCE_IN_0_01MM - value >= HYSTERESIS_TOLERANCE) /\
      Legacy.key_uh key value = key).
Proof. unfold Legacy.key_uh. decide_checks; accepted_or_rejected. Qed.

Lemma hkey_lh_gap key value :
  hysteresis_gap key -> hysteresis_gap (Rewrite.hkey_lh key value).
Proof.
  intros Hgap.
  destruct (hkey_lh_cases key value) as [[Hok ->] | [_ ->]]; [| exact Hgap].
  unfold hysteresis_gap; simpl. exact Hok.
Qed.

Lemma hkey_uh_gap key value :
  hysteresis_gap key -> hysteresis_gap (Rewrite.hkey_uh key value).
Proof.
  intros Hgap.
  destruct (hkey_uh_cases key value) as [[[Hok _] ->] | [_ ->]];
    [| exact Hgap].
  unfold hysteresis_gap; simpl. exact Hok.
Qed.

Lemma key_lh_gap key value :
  legacy_hysteresis_gap key -> legacy_hysteresis_gap (Legacy.key_lh key value).
Proof.
  intros Hgap.
  destruct (key_lh_cases key value) as [[Hok ->] | [_ ->]]; [| exact Hgap].
  unfold legacy_hysteresis_gap; simpl. exact Hok.
Qed.

Lemma key_uh_gap key value :
  legacy_hysteresis_gap key -> legacy_hysteresis_gap (Legacy.key_uh key value).
Proof.
  intros Hgap.
  destruct (key_uh_cases key value) as [[[Hok _] ->] | [_ ->]];
    [| exact Hgap].
  unfold legacy_hysteresis_gap; simpl. exact Hok.
Qed.

End Hysteresis.

(** C1.  A key whose thresholds are at least [HYSTERESIS_TOLERANCE] apart
    keeps them so through the lower and the upper hysteresis setter of
    either revision, whatever the value; a value that would bring the
    thresholds closer is refused and the key is left as it was. *)
Theorem hysteresis_gap_preserved
  {defs : Definitions} (key : Rewrite.HEKey) (lkey : Legacy.HEKey)
  (value : Z) :
  hysteresis_gap key ->
  legacy_hysteresis_gap lkey ->
  hysteresis_gap (Rewrite.hkey_lh key value)
  /\ hysteresis_gap (Rewrite.hkey_uh key value)
  /\ legacy_hysteresis_gap (Legacy.key_lh lkey value)
  /\ legacy_hysteresis_gap (Legacy.key_uh lkey value)
  /\ (Rewrite.upperHysteresis key - value < HYSTERESIS_TOLERANCE ->
      Rewrite.hkey_lh key value = key)
  /\ (value - Rewrite.lowerHysteresis key < HYSTERESIS_TOLERANCE ->
      Rewrite.hkey_uh key value = key)
  /\ (Legacy.upperHysteresis lkey - value < HYSTERESIS_TOLERANCE ->
      Legacy.key_lh lkey value = lkey)
  /\ (value - Legacy.lowerHysteresis lkey < HYSTERESIS_TOLERANCE ->
      Legacy.key_uh lkey value = lkey).
Proof.
  intros Hgap Hlgap.
  split; [now apply hkey_lh_gap |].
  split; [now apply hkey_uh_gap |].
  split; [now apply key_lh_gap |].
  split; [now apply key_uh_gap |].
  repeat split; intros Hsmall.
  - destruct (hkey_lh_cases key value) as [[Hok _] | [_ Heq]]; [lia | exact Heq].
  - destruct (hkey_uh_cases key value) as [[[Hok _] _] | [_ Heq]];
      [lia | exact Heq].
  - destruct (key_lh_cases lkey value) as [[Hok _] | [_ Heq]]; [lia | exact Heq].
  - destruct (key_uh_cases lkey value) as [[[Hok _] _] | [_ Heq]];
      [lia | exact Heq].
Qed.

Lemma hysteresis_gap_witness :
  hysteresis_gap (defs := Box.defs)
    (Rewrite.hkey_lh (defs := Box.defs) (Box.hkey 0) 120)
  /\ Rewrite.hkey_lh (defs := Box.defs) (Box.hkey 0) 295 = Box.hkey 0.
Proof.
  assert (Hgap : hysteresis_gap (defs := Box.defs) (Box.hkey 0))
    by (unfold hysteresis_gap; simpl; lia).
  assert (Hlgap : legacy_hysteresis_gap (defs := Box.defs) (Box.legacy_key 0))
    by (unfold legacy_hysteresis_gap; simpl; lia).
  split.
  - apply (hysteresis_gap_preserved (Box.hkey 0) (Box.legacy_key 0) 120
             Hgap Hlgap).
  - apply (hysteresis_gap_preserved (Box.hkey 0) (Box.legacy_key 0) 295
             Hgap Hlgap).
    simpl; lia.
Defined.

(** ** The calibration points *)

Section Calibration.

Context {defs : Definitions}.

Lemma key_rest_cases key value :
  ((value > Legacy.downPosition key /\ value <= 2 ^ ANALOG_RESOLUTION - 1) /\
   Legacy.key_rest key value = Legacy.set_restPosition value key)
  \/ (~ (value > Legacy.downPosition key
         /\ value <= 2 ^ ANALOG_RESOLUTION - 1) /\
      Legacy.key_rest key value = key).
Proof. unfold Legacy.key_rest. decide_checks; accepted_or_rejected. Qed.

Lemma key_down_cases key value :
  (value < Legacy.restPosition key /\
   Legacy.key_down key value = Legacy.set_downPosition value key)
  \/ (~ value < Legacy.restPosition key /\ Legacy.key_down key value = key).
Proof. unfold Legacy.key_down. decide_checks; accepted_or_rejected. Qed.

End Calibration.

(** C4.  A key whose rest position is above its down position keeps it
    above through [key_rest] and [key_down], whatever the value:
    [key_rest] stores exactly the values that are above the down position
    and at most [2 ^ ANALOG_RESOLUTION - 1], [key_down] exactly the values
    below the rest position, and a refused value leaves the key as it
    was. *)
Theorem rest_stays_above_down
  {defs : Definitions} (key : Legacy.HEKey) (value : Z) :
  rest_above_down key ->
  rest_above_down (Legacy.key_rest key value)
  /\ rest_above_down (Legacy.key_down key value)
  /\ (value > Legacy.downPosition key /\ value <= 2 ^ ANALOG_RESOLUTION - 1 ->
      Legacy.key_rest key value = Legacy.set_restPosition value key)
  /\ (~ (value > Legacy.downPosition key
         /\ value <= 2 ^ ANALOG_RESOLUTION - 1) ->
      Legacy.key_rest key value = key)
  /\ (value < Legacy.restPosition key ->
      Legacy.key_down key value = Legacy.set_downPosition value key)
  /\ (~ value < Legacy.restPosition key -> Legacy.key_down key value = key).
Proof.
  intros Hpol. unfold rest_above_down in *.
  destruct (key_rest_cases key value) as [[Hr ->] | [Hr ->]],
           (key_down_cases key value) as [[Hd ->] | [Hd ->]];
    simpl; repeat split; intros; try contradiction; try lia; reflexivity.
Qed.

Lemma rest_stays_above_down_witness :
  rest_above_down (Legacy.key_rest (defs := Box.defs) (Box.legacy_key 0) 3900)
  /\ Legacy.key_down (Box.legacy_key 0) 3800
     = Box.legacy_key 0.
Proof.
  assert (Hpol : rest_above_down (Box.legacy_key 0))
    by (unfold rest_above_down; simpl; lia).
  split.
  - apply (rest_stays_above_down (defs := Box.defs) (Box.legacy_key 0) 3900
             Hpol).
  - apply (rest_stays_above_down (defs := Box.defs) (Box.legacy_key 0) 3800
             Hpol).
    simpl; lia.
Defined.

(** ** The two revisions side by side *)

Section Revisions.

Context {defs : Definitions}.

Lemma settings_of_legacy_of key rest down :
  settings_of (legacy_of key rest down) = key.
Proof. destruct key as [[? ? ?] ? ? ? ? ? ?]. reflexivity. Qed.

Lemma rtus_commutes key value :
  settings_of (Legacy.key_rtus key value)
  = Rewrite.hkey_rtus (settings_of key) value.
Proof.
  unfold Legacy.key_rtus, Rewrite.hkey_rtus. decide_checks; reflexivity.
Qed.

Lemma rtds_commutes key value :
  settings_of (Legacy.key_rtds key value)
  = Rewrite.hkey_rtds (settings_of key) value.
Proof.
  unfold Legacy.key_rtds, Rewrite.hkey_rtds. decide_checks; reflexivity.
Qed.

Lemma lh_commutes key value :
  settings_of (Legacy.key_lh key value)
  = Rewrite.hkey_lh (settings_of key) value.
Proof.
  unfold Legacy.key_lh, Rewrite.hkey_lh; simpl. decide_checks; reflexivity.
Qed.

Lemma uh_commutes key value :
  settings_of (Legacy.key_uh key value)
  = Rewrite.hkey_uh (settings_of key) value.
Proof.
  unfold Legacy.key_uh, Rewrite.hkey_uh; simpl. decide_checks; reflexivity.
Qed.

Lemma numeric_setters_keep_calibration key value :
  calibration_of (Legacy.key_rtus key value) = calibration_of key
  /\ calibration_of (Legacy.key_rtds key value) = calibration_of key
  /\ calibration_of (Legacy.key_lh key value) = calibration_of key
  /\ calibration_of (Legacy.key_uh key value) = calibration_of key.
Proof.
  unfold Legacy.key_rtus, Legacy.key_rtds, Legacy.key_lh, Legacy.key_uh.
  repeat split; decide_checks; reflexivity.
Qed.

(** A legacy key is determined by its settings and its calibration. *)
Lemma legacy_key_eq key key' :
  settings_of key = settings_of key' ->
  calibration_of key = calibration_of key' ->
  key = key'.
Proof.
  destruct key, key'; unfold settings_of, calibration_of; simpl.
  intros Hs Hc. injection Hs as -> -> -> -> -> -> -> -> ->.
  injection Hc as -> ->. reflexivity.
Qed.

End Revisions.

(** C7.  The numeric setters of the rewrite are those of the legacy
    revision: on every key and every value the legacy setter followed by
    the view of the key as a key of the rewrite is the rewritten setter on
    that view, the legacy setter leaves the calibration points alone, one
    revision leaves its key untouched exactly when the other does, and
    every key of the rewrite is the view of a legacy key. *)
Theorem rewrite_setters_equal_legacy_setters
  {defs : Definitions} (key : Legacy.HEKey) (value : Z) :
  (settings_of (Legacy.key_rtus key value)
   = Rewrite.hkey_rtus (settings_of key) value
   /\ settings_of (Legacy.key_rtds key value)
      = Rewrite.hkey_rtds (settings_of key) value
   /\ settings_of (Legacy.key_lh key value)
      = Rewrite.hkey_lh (settings_of key) value
   /\ settings_of (Legacy.key_uh key value)
      = Rewrite.hkey_uh (settings_of key) value)
  /\ (calibration_of (Legacy.key_rtus key value) = calibration_of key
      /\ calibration_of (Legacy.key_rtds key value) = calibration_of key
      /\ calibration_of (Legacy.key_lh key value) = calibration_of key
      /\ calibration_of (Legacy.key_uh key value) = calibration_of key)
  /\ ((Legacy.key_rtus key value = key
       <-> Rewrite.hkey_rtus (settings_of key) value = settings_of key)
      /\ (Legacy.key_rtds key value = key
          <-> Rewrite.hkey_rtds (settings_of key) value = settings_of key)
      /\ (Legacy.key_lh key value = key
          <-> Rewrite.hkey_lh (settings_of key) value = settings_of key)
      /\ (Legacy.key_uh key value = key
          <-> Rewrite.hkey_uh (settings_of key) value = settings_of key))
  /\ (forall hkey : Rewrite.HEKey, exists lkey, settings_of lkey = hkey).
Proof.
  pose proof (numeric_setters_keep_calibration key value)
    as (Hc1 & Hc2 & Hc3 & Hc4).
  split; [| split; [| split]].
  - auto using rtus_commutes, rtds_commutes, lh_commutes, uh_commutes.
  - auto.
  - rewrite <- rtus_commutes, <- rtds_commutes, <- lh_commutes, <- uh_commutes.
    repeat split; intros H;
      solve [ now rewrite H | now apply legacy_key_eq ].
  - intros hkey. exists (legacy_of hkey 0 0). apply settings_of_legacy_of.
Qed.

(** ** What a setter leaves alone *)

Section Frame.

Context {defs : Definitions}.

Lemma hkey_rt_frame key state :
  differs_at_most read m_rapidTrigger key (Rewrite.hkey_rt key state).
Proof. frame_of Rewrite.hkey_rt. Qed.

Lemma hkey_crt_frame key state :
  differs_at_most read m_continuousRapidTrigger key
    (Rewrite.hkey_crt key state).
Proof. frame_of Rewrite.hkey_crt. Qed.

Lemma hkey_rtus_frame key value :
  differs_at_most read m_rapidTriggerUpSensitivity key
    (Rewrite.hkey_rtus key value).
Proof. frame_of Rewrite.hkey_rtus. Qed.

Lemma hkey_rtds_frame key value :
  differs_at_most read m_rapidTriggerDownSensitivity key
    (Rewrite.hkey_rtds key value).
Proof. frame_of Rewrite.hkey_rtds. Qed.

Lemma hkey_lh_frame key value :
  differs_at_most read m_lowerHysteresis key (Rewrite.hkey_lh key value).
Proof. frame_of Rewrite.hkey_lh. Qed.

Lemma hkey_uh_frame key value :
  differs_at_most read m_upperHysteresis key (Rewrite.hkey_uh key value).
Proof. frame_of Rewrite.hkey_uh. Qed.

Lemma key_char_frame (key : Rewrite.HEKey) keyChar :
  differs_at_most read m_keyChar key
    (Rewrite.through_key (fun k => Rewrite.key_char k keyChar) key).
Proof. frame_of Rewrite.through_key. Qed.

Lemma key_hid_frame (key : Rewrite.HEKey) state :
  differs_at_most read m_hidEnabled key
    (Rewrite.through_key (fun k => Rewrite.key_hid k state) key).
Proof. frame_of Rewrite.through_key. Qed.

Lemma digital_key_char_frame (key : Rewrite.DigitalKey) keyChar :
  differs_at_most read_digital m_keyChar key
    (Rewrite.through_key (fun k => Rewrite.key_char k keyChar) key).
Proof. frame_of Rewrite.through_key. Qed.

Lemma digital_key_hid_frame (key : Rewrite.DigitalKey) state :
  differs_at_most read_digital m_hidEnabled key
    (Rewrite.through_key (fun k => Rewrite.key_hid k state) key).
Proof. frame_of Rewrite.through_key. Qed.

Lemma legacy_setters_frame (key : Legacy.HEKey) (value : Z) (state : bool) :
  differs_at_most read_legacy m_rapidTrigger key (Legacy.key_rt key state)
  /\ differs_at_most read_legacy m_continuousRapidTrigger key
       (Legacy.key_crt key state)
  /\ differs_at_most read_legacy m_rapidTriggerUpSensitivity key
       (Legacy.key_rtus key value)
  /\ differs_at_most read_legacy m_rapidTriggerDownSensitivity key
       (Legacy.key_rtds key value)
  /\ differs_at_most read_legacy m_lowerHysteresis key
       (Legacy.key_lh key value)
  /\ differs_at_most read_legacy m_upperHysteresis key
       (Legacy.key_uh key value)
  /\ differs_at_most read_legacy m_keyChar key (Legacy.key_char key value)
  /\ differs_at_most read_legacy m_restPosition key
       (Legacy.key_rest key value)
  /\ differs_at_most read_legacy m_downPosition key
       (Legacy.key_down key value)
  /\ differs_at_most read_legacy m_hidEnabled key (Legacy.key_hid key state).
Proof.
  repeat split.
  - frame_of Legacy.key_rt.
  - frame_of Legacy.key_crt.
  - frame_of Legacy.key_rtus.
  - frame_of Legacy.key_rtds.
  - frame_of Legacy.key_lh.
  - frame_of Legacy.key_uh.
  - frame_of Legacy.key_char.
  - frame_of Legacy.key_rest.
  - frame_of Legacy.key_down.
  - frame_of Legacy.key_hid.
Qed.

End Frame.

(** The loop body handed to [for_keys] with a single target reaches that
    element of the array only. *)
Lemma for_keys_single_other {T} (body : T -> T) (arr : list T) (i j : nat) :
  i <> j -> for_keys i 1 body arr !! j = arr !! j.
Proof.
  intros Hij. unfold for_keys; simpl.
  apply list_lookup_alter_ne. lia.
Qed.

Lemma for_keys_single_target {T} (body : T -> T) (arr : list T) (i : nat) :
  for_keys i 1 body arr !! i = body <$> arr !! i.
Proof.
  unfold for_keys; simpl. rewrite Nat.add_0_r.
  rewrite list_lookup_alter. destruct (decide (i = i)); congruence.
Qed.

(** C10.  A per-key setter changes at most the member it is named
    after: whatever the key and the value, and whether the value is taken
    or refused, every other member of the key reads as before; this holds
    for the setters of the rewrite on hall effect and digital keys and for
    those of the legacy revision.  The loop that hands one targeted key to
    a setter leaves every other element of the array as it was, and an
    update of the hall effect keys does not reach the digital keys (nor
    the converse). *)
Theorem setters_modify_one_member
  {defs : Definitions} (key : Rewrite.HEKey) (dkey : Rewrite.DigitalKey)
  (lkey : Legacy.HEKey) (value : Z) (state : bool) :
  (differs_at_most read m_rapidTrigger key (Rewrite.hkey_rt key state)
   /\ differs_at_most read m_continuousRapidTrigger key
        (Rewrite.hkey_crt key state)
   /\ differs_at_most read m_rapidTriggerUpSensitivity key
        (Rewrite.hkey_rtus key value)
   /\ differs_at_most read m_rapidTriggerDownSensitivity key
        (Rewrite.hkey_rtds key value)
   /\ differs_at_most read m_lowerHysteresis key (Rewrite.hkey_lh key value)
   /\ differs_at_most read m_upperHysteresis key (Rewrite.hkey_uh key value)
   /\ differs_at_most read m_keyChar key
        (Rewrite.through_key (fun k => Rewrite.key_char k value) key)
   /\ differs_at_most read m_hidEnabled key
        (Rewrite.through_key (fun k => Rewrite.key_hid k state) key))
  /\ (differs_at_most read_digital m_keyChar dkey
        (Rewrite.through_key (fun k => Rewrite.key_char k value) dkey)
      /\ differs_at_most read_digital m_hidEnabled dkey
           (Rewrite.through_key (fun k => Rewrite.key_hid k state) dkey))
  /\ (differs_at_most read_legacy m_rapidTrigger lkey
        (Legacy.key_rt lkey state)
      /\ differs_at_most read_legacy m_continuousRapidTrigger lkey
           (Legacy.key_crt lkey state)
      /\ differs_at_most read_legacy m_rapidTriggerUpSensitivity lkey
           (Legacy.key_rtus lkey value)
      /\ differs_at_most read_legacy m_rapidTriggerDownSensitivity lkey
           (Legacy.key_rtds lkey value)
      /\ differs_at_most read_legacy m_lowerHysteresis lkey
           (Legacy.key_lh lkey value)
      /\ differs_at_most read_legacy m_upperHysteresis lkey
           (Legacy.key_uh lkey value)
      /\ differs_at_most read_legacy m_keyChar lkey
           (Legacy.key_char lkey value)
      /\ differs_at_most read_legacy m_restPosition lkey
           (Legacy.key_rest lkey value)
      /\ differs_at_most read_legacy m_downPosition lkey
           (Legacy.key_down lkey value)
      /\ differs_at_most read_legacy m_hidEnabled lkey
           (Legacy.key_hid lkey state))
  /\ (forall (T : Type) (setter : T -> T) (keys : list T) (i j : nat),
        i <> j -> for_keys i 1 setter keys !! j = keys !! j)
  /\ (forall f fw,
        Rewrite.digitalKeys (Rewrite.config (Rewrite.with_heKeys f fw))
        = Rewrite.digitalKeys (Rewrite.config fw))
  /\ (forall f fw,
        Rewrite.heKeys (Rewrite.config (Rewrite.with_digitalKeys f fw))
        = Rewrite.heKeys (Rewrite.config fw))
  /\ (forall f fw,
        Legacy.digitalKeys (Legacy.config (Legacy.with_heKeys f fw))
        = Legacy.digitalKeys (Legacy.config fw))
  /\ (forall f fw,
        Legacy.heKeys (Legacy.config (Legacy.with_digitalKeys f fw))
        = Legacy.heKeys (Legacy.config fw)).
Proof.
  split; [| split; [| split; [| split]]].
  - auto 10 using hkey_rt_frame, hkey_crt_frame, hkey_rtus_frame,
      hkey_rtds_frame, hkey_lh_frame, hkey_uh_frame, key_char_frame,
      key_hid_frame.
  - auto using digital_key_char_frame, digital_key_hid_frame.
  - apply legacy_setters_frame.
  - intros T setter keys i j. apply for_keys_single_other.
  - repeat split.
Qed.

Lemma setters_modify_one_member_witness :
  for_keys 0 1 (fun key => Rewrite.hkey_lh (defs := Box.defs) key 100)
    (Box.upto 3 Box.hkey) !! 1%nat
  = Some (Box.hkey 1).
Proof.
  pose proof (setters_modify_one_member (defs := Box.defs)
                (Box.hkey 0) (Box.dkey 0) (Box.legacy_key 0) 100 true)
    as (_ & _ & _ & Hothers & _).
  rewrite (Hothers _ _ _ 0%nat 1%nat); [reflexivity | lia].
Defined.

(** ** The device name *)

Lemma name_cases argument fw :
  (1 <= C.strlen argument <= 128 /\
   Rewrite.name argument fw
   = Rewrite.set_config
       (Rewrite.set_config_name argument (Rewrite.config fw)) fw)
  \/ (~ 1 <= C.strlen argument <= 128 /\ Rewrite.name argument fw = fw).
Proof. unfold Rewrite.name. decide_checks; accepted_or_rejected. Qed.

Lemma legacy_name_cases argument fw :
  (1 <= C.strlen argument <= 128 /\
   Legacy.name argument fw
   = Legacy.set_config
       (Legacy.set_config_name argument (Legacy.config fw)) fw)
  \/ (~ 1 <= C.strlen argument <= 128 /\ Legacy.name argument fw = fw).
Proof. unfold Legacy.name. decide_checks; accepted_or_rejected. Qed.

(** C9.  [name] stores its argument as the device name exactly when the
    argument is 1 to 128 characters long, and changes nothing otherwise,
    in both revisions.  A name of 130 characters is refused and one of 5
    characters is stored, by [name] and by the whole handler on the lines
    [name <130 characters>] and [name hello]. *)
Theorem name_accepts_1_to_128_characters
  {defs : Definitions} {ext : Legacy.Externals}
  (argument : string) (fw : Rewrite.Firmware) (lfw : Legacy.Firmware) :
  (1 <= C.strlen argument <= 128 ->
     Rewrite.config_name (Rewrite.config (Rewrite.name argument fw)) = argument
     /\ Rewrite.name argument fw
        = Rewrite.set_config
            (Rewrite.set_config_name argument (Rewrite.config fw)) fw
     /\ Legacy.config_name (Legacy.config (Legacy.name argument lfw))
        = argument
     /\ Legacy.name argument lfw
        = Legacy.set_config
            (Legacy.set_config_name argument (Legacy.config lfw)) lfw)
  /\ (~ 1 <= C.strlen argument <= 128 ->
        Rewrite.name argument fw = fw /\ Legacy.name argument lfw = lfw)
  /\ (Rewrite.name (repeated "x" 130) fw = fw
      /\ Legacy.name (repeated "x" 130) lfw = lfw
      /\ Rewrite.config_name (Rewrite.config (Rewrite.name "hello" fw))
         = "hello"
      /\ Legacy.config_name (Legacy.config (Legacy.name "hello" lfw))
         = "hello")
  /\ (Rewrite.handleSerialInput ("name " ++ repeated "x" 130) fw = fw
      /\ (forall beyond,
            Legacy.handleSerialInput beyond ("name " ++ repeated "x" 130) lfw
            = lfw)
      /\ Rewrite.config_name
           (Rewrite.config (Rewrite.handleSerialInput "name hello" fw))
         = "hello"
      /\ (forall beyond,
            Legacy.config_name
              (Legacy.config
                 (Legacy.handleSerialInput beyond "name hello" lfw))
            = "hello")).
Proof.
  split; [| split; [| split]].
  - intros Hlen.
    destruct (name_cases argument fw) as [[_ ->] | [Hno _]];
      [| contradiction].
    destruct (legacy_name_cases argument lfw) as [[_ ->] | [Hno _]];
      [| contradiction].
    repeat split.
  - intros Hlen.
    destruct (name_cases argument fw) as [[Hyes _] | [_ ->]];
      [contradiction |].
    destruct (legacy_name_cases argument lfw) as [[Hyes _] | [_ ->]];
      [contradiction |].
    split; reflexivity.
  - repeat split.
  - repeat split.
Qed.

Lemma name_witness :
  Rewrite.config_name (Rewrite.config (Rewrite.name "hello" Box.firmware))
  = "hello"
  /\ Rewrite.name "" Box.firmware = Box.firmware.
Proof.
  split.
  - pose proof (name_accepts_1_to_128_characters
                  (defs := Box.defs) (ext := Box.externals)
                  "hello" Box.firmware Box.legacy_firmware)
      as (Haccepted & _).
    apply Haccepted. unfold C.strlen; simpl; lia.
  - pose proof (name_accepts_1_to_128_characters
                  (defs := Box.defs) (ext := Box.externals)
                  "" Box.firmware Box.legacy_firmware)
      as (_ & Hrefused & _).
    apply Hrefused. unfold C.strlen; simpl; lia.
Defined.

(** ** The handler, command by command *)

Section Dispatch.

Context {defs : Definitions}.

Lemma handleSerialInput_unfold input fw :
  Rewrite.handleSerialInput input fw
  = let fw' :=
      Rewrite.global_commands (command_of input) (parameters_of input)
        (arg0_of input) fw in
    match Rewrite.hkey_commands (command_of input) (arg0_of input) fw' with
    | None => fw'
    | Some fw'' =>
        match Rewrite.dkey_commands (command_of input) (arg0_of input) fw''
        with
        | None => fw''
        | Some fw''' => fw'''
        end
    end.
Proof. reflexivity. Qed.

Lemma hkey_commands_serial command arg0 fw fw' :
  Rewrite.hkey_commands command arg0 fw = Some fw' ->
  Rewrite.serial fw' = Rewrite.serial fw.
Proof.
  unfold Rewrite.hkey_commands.
  repeat match goal with
    | |- context [if ?b then _ else _] => destruct b
    end;
    intros H; inversion H; reflexivity.
Qed.

Lemma dkey_commands_serial command arg0 fw fw' :
  Rewrite.dkey_commands command arg0 fw = Some fw' ->
  Rewrite.serial fw' = Rewrite.serial fw.
Proof.
  unfold Rewrite.dkey_commands.
  repeat match goal with
    | |- context [if ?b then _ else _] => destruct b
    end;
    intros H; inversion H; reflexivity.
Qed.

Lemma key_blocks_serial input fw' :
  Rewrite.serial
    match Rewrite.hkey_commands (command_of input) (arg0_of input) fw' with
    | None => fw'
    | Some fw'' =>
        match Rewrite.dkey_commands (command_of input) (arg0_of input) fw''
        with
        | None => fw''
        | Some fw''' => fw'''
        end
    end
  = Rewrite.serial fw'.
Proof.
  destruct (Rewrite.hkey_commands _ _ fw') as [fw'' |] eqn:Hh; [| reflexivity].
  apply hkey_commands_serial in Hh. rewrite <- Hh.
  destruct (Rewrite.dkey_commands _ _ fw'') as [fw''' |] eqn:Hd;
    [| reflexivity].
  now apply dkey_commands_serial in Hd.
Qed.

Lemma name_serial argument fw :
  Rewrite.serial (Rewrite.name argument fw) = Rewrite.serial fw.
Proof. unfold Rewrite.name. now destruct (_ && _). Qed.

Lemma setter_command_global command parameters arg0 fw :
  setter_command command = true ->
  Rewrite.serial (Rewrite.global_commands command parameters arg0 fw)
  = Rewrite.serial fw.
Proof.
  unfold setter_command, C.starts_with. intros Hcmd.
  unfold Rewrite.global_commands.
  compare_with_literals command; auto using name_serial.
Qed.

Lemma setter_commands_are_silent input fw :
  setter_command (command_of input) = true ->
  Rewrite.serial (Rewrite.handleSerialInput input fw) = Rewrite.serial fw.
Proof.
  intros Hcmd. rewrite handleSerialInput_unfold. cbv zeta.
  rewrite key_blocks_serial. now apply setter_command_global.
Qed.

End Dispatch.

Section LegacyDispatch.

Context {defs : Definitions} {ext : Legacy.Externals}.

Lemma legacy_handleSerialInput_unfold beyond input fw :
  Legacy.handleSerialInput beyond input fw
  = let fw' :=
      Legacy.global_commands (command_of input)
        (legacy_parameters_of beyond input) (legacy_arg0_of beyond input) fw in
    match Legacy.key_commands (command_of input)
            (legacy_arg0_of beyond input) fw' with
    | None => fw'
    | Some fw'' =>
        match Legacy.dkey_commands (command_of input)
                (legacy_arg0_of beyond input) fw'' with
        | None => fw''
        | Some fw''' => fw'''
        end
    end.
Proof. reflexivity. Qed.

Lemma key_commands_serial command arg0 fw fw' :
  Legacy.key_commands command arg0 fw = Some fw' ->
  Legacy.serial fw' = Legacy.serial fw.
Proof.
  unfold Legacy.key_commands.
  repeat match goal with
    | |- context [if ?b then _ else _] => destruct b
    end;
    intros H; inversion H; reflexivity.
Qed.

Lemma legacy_dkey_commands_serial command arg0 fw fw' :
  Legacy.dkey_commands command arg0 fw = Some fw' ->
  Legacy.serial fw' = Legacy.serial fw.
Proof.
  unfold Legacy.dkey_commands.
  repeat match goal with
    | |- context [if ?b then _ else _] => destruct b
    end;
    intros H; inversion H; reflexivity.
Qed.

Lemma legacy_key_blocks_serial command arg0 fw' :
  Legacy.serial
    match Legacy.key_commands command arg0 fw' with
    | None => fw'
    | Some fw'' =>
        match Legacy.dkey_commands command arg0 fw'' with
        | None => fw''
        | Some fw''' => fw'''
        end
    end
  = Legacy.serial fw'.
Proof.
  destruct (Legacy.key_commands _ _ fw') as [fw'' |] eqn:Hh; [| reflexivity].
  apply key_commands_serial in Hh. rewrite <- Hh.
  destruct (Legacy.dkey_commands _ _ fw'') as [fw''' |] eqn:Hd;
    [| reflexivity].
  now apply legacy_dkey_commands_serial in Hd.
Qed.

Lemma legacy_name_serial argument fw :
  Legacy.serial (Legacy.name argument fw) = Legacy.serial fw.
Proof. unfold Legacy.name. now destruct (_ && _). Qed.

Lemma legacy_setter_command_global command parameters arg0 fw :
  legacy_setter_command command = true ->
  Legacy.serial (Legacy.global_commands command parameters arg0 fw)
  = Legacy.serial fw.
Proof.
  unfold legacy_setter_command, C.starts_with. intros Hcmd.
  unfold Legacy.global_commands.
  compare_with_literals command; auto using legacy_name_serial.
  rewrite andb_false_r. reflexivity.
Qed.

Lemma legacy_setter_commands_are_silent beyond input fw :
  legacy_setter_command (command_of input) = true ->
  Legacy.serial (Legacy.handleSerialInput beyond input fw) = Legacy.serial fw.
Proof.
  intros Hcmd. rewrite legacy_handleSerialInput_unfold. cbv zeta.
  rewrite legacy_key_blocks_serial. now apply legacy_setter_command_global.
Qed.

End LegacyDispatch.

(** ** Refused values *)

Lemma key_char_cases (key : Legacy.HEKey) (keyChar : Z) :
  (97 <= keyChar <= 122 /\
   Legacy.key_char key keyChar = Legacy.set_keyChar keyChar key)
  \/ (~ 97 <= keyChar <= 122 /\ Legacy.key_char key keyChar = key).
Proof. unfold Legacy.key_char. decide_checks; accepted_or_rejected. Qed.

(** C3.  A setter handed a value that fails its check leaves the key (or
    the configuration) exactly as it was: the sensitivities outside
    [RAPID_TRIGGER_TOLERANCE .. TRAVEL_DISTANCE_IN_0_01MM], a lower or an
    upper threshold that breaks a tolerance condition, a rest or down
    position that breaks the ordering, a legacy key character outside
    97..122, a name that is not 1 to 128 characters long.  And a line
    whose command sets a member ([hkey...], [key...], [dkey...], [name])
    writes nothing to the serial port, whether its value is taken or
    not. *)
Theorem refused_values_change_nothing
  {defs : Definitions} {ext : Legacy.Externals}
  (key : Rewrite.HEKey) (lkey : Legacy.HEKey) (value : Z)
  (argument input beyond : string)
  (fw : Rewrite.Firmware) (lfw : Legacy.Firmware) :
  (~ sensitivity_in_range value ->
     Rewrite.hkey_rtus key value = key /\ Rewrite.hkey_rtds key value = key
     /\ Legacy.key_rtus lkey value = lkey /\ Legacy.key_rtds lkey value = lkey)
  /\ (~ Rewrite.upperHysteresis key - value >= HYSTERESIS_TOLERANCE ->
      Rewrite.hkey_lh key value = key)
  /\ (~ (value - Rewrite.lowerHysteresis key >= HYSTERESIS_TOLERANCE
         /\ TRAVEL_DISTANCE_IN_0_01MM - value >= HYSTERESIS_TOLERANCE) ->
      Rewrite.hkey_uh key value = key)
  /\ (~ Legacy.upperHysteresis lkey - value >= HYSTERESIS_TOLERANCE ->
      Legacy.key_lh lkey value = lkey)
  /\ (~ (value - Legacy.lowerHysteresis lkey >= HYSTERESIS_TOLERANCE
         /\ TRAVEL_DISTANCE_IN_0_01MM - value >= HYSTERESIS_TOLERANCE) ->
      Legacy.key_uh lkey value = lkey)
  /\ (~ (value > Legacy.downPosition lkey
         /\ value <= 2 ^ ANALOG_RESOLUTION - 1) ->
      Legacy.key_rest lkey value = lkey)
  /\ (~ value < Legacy.restPosition lkey -> Legacy.key_down lkey value = lkey)
  /\ (~ 97 <= value <= 122 -> Legacy.key_char lkey value = lkey)
  /\ (~ 1 <= C.strlen argument <= 128 ->
      Rewrite.name argument fw = fw /\ Legacy.name argument lfw = lfw)
  /\ (setter_command (command_of input) = true ->
      Rewrite.serial (Rewrite.handleSerialInput input fw) = Rewrite.serial fw)
  /\ (legacy_setter_command (command_of input) = true ->
      Legacy.serial (Legacy.handleSerialInput beyond input lfw)
      = Legacy.serial lfw).
Proof.
  repeat apply conj.
  - intros Hout.
    destruct (hkey_rtus_cases key value) as [[? _] | [_ ->]]; [easy |].
    destruct (hkey_rtds_cases key value) as [[? _] | [_ ->]]; [easy |].
    destruct (key_rtus_cases lkey value) as [[? _] | [_ ->]]; [easy |].
    destruct (key_rtds_cases lkey value) as [[? _] | [_ ->]]; easy.
  - intros Hout.
    destruct (hkey_lh_cases key value) as [[? _] | [_ ->]]; easy.
  - intros Hout.
    destruct (hkey_uh_cases key value) as [[? _] | [_ ->]]; easy.
  - intros Hout.
    destruct (key_lh_cases lkey value) as [[? _] | [_ ->]]; easy.
  - intros Hout.
    destruct (key_uh_cases lkey value) as [[? _] | [_ ->]]; easy.
  - intros Hout.
    destruct (key_rest_cases lkey value) as [[? _] | [_ ->]]; easy.
  - intros Hout.
    destruct (key_down_cases lkey value) as [[? _] | [_ ->]]; easy.
  - intros Hout.
    destruct (key_char_cases lkey value) as [[? _] | [_ ->]]; easy.
  - intros Hout.
    destruct (name_cases argument fw) as [[? _] | [_ ->]]; [easy |].
    destruct (legacy_name_cases argument lfw) as [[? _] | [_ ->]]; easy.
  - apply setter_commands_are_silent.
  - apply legacy_setter_commands_are_silent.
Qed.

Lemma refused_values_witness :
  Rewrite.hkey_rtus (defs := Box.defs) (Box.hkey 0) 9 = Box.hkey 0
  /\ Rewrite.hkey_lh (defs := Box.defs) (Box.hkey 0) 291 = Box.hkey 0
  /\ Rewrite.hkey_uh (defs := Box.defs) (Box.hkey 0) 391 = Box.hkey 0
  /\ Legacy.key_lh (defs := Box.defs) (Box.legacy_key 0) 291
     = Box.legacy_key 0
  /\ Legacy.key_uh (defs := Box.defs) (Box.legacy_key 0) 259
     = Box.legacy_key 0
  /\ Legacy.key_rest (defs := Box.defs) (Box.legacy_key 0) 4096
     = Box.legacy_key 0
  /\ Legacy.key_down (Box.legacy_key 0) 3800 = Box.legacy_key 0
  /\ Legacy.key_char (Box.legacy_key 0) 65 = Box.legacy_key 0
  /\ Rewrite.name (repeated "x" 129) Box.firmware = Box.firmware
  /\ Rewrite.serial
       (Rewrite.handleSerialInput (defs := Box.defs) "hkey1.rtus 9"
          Box.firmware)
     = Rewrite.serial Box.firmware
  /\ Legacy.serial
       (Legacy.handleSerialInput (defs := Box.defs) (ext := Box.externals)
          "" "key1.rest 4096" Box.legacy_firmware)
     = Legacy.serial Box.legacy_firmware.
Proof.
  pose proof (refused_values_change_nothing
                (defs := Box.defs) (ext := Box.externals)
                (Box.hkey 0) (Box.legacy_key 0) 9
                (repeated "x" 129) "hkey1.rtus 9" ""
                Box.firmware Box.legacy_firmware)
    as (Hsens & _ & _ & _ & _ & _ & _ & _ & Hname & Hsilent & _).
  pose proof (refused_values_change_nothing
                (defs := Box.defs) (ext := Box.externals)
                (Box.hkey 0) (Box.legacy_key 0) 291
                "" "" "" Box.firmware Box.legacy_firmware)
    as (_ & Hlh & _ & Hllh & _).
  pose proof (refused_values_change_nothing
                (defs := Box.defs) (ext := Box.externals)
                (Box.hkey 0) (Box.legacy_key 0) 391
                "" "" "" Box.firmware Box.legacy_firmware)
    as (_ & _ & Huh & _).
  pose proof (refused_values_change_nothing
                (defs := Box.defs) (ext := Box.externals)
                (Box.hkey 0) (Box.legacy_key 0) 259
                "" "" "" Box.firmware Box.legacy_firmware)
    as (_ & _ & _ & _ & Hluh & _).
  pose proof (refused_values_change_nothing
                (defs := Box.defs) (ext := Box.externals)
                (Box.hkey 0) (Box.legacy_key 0) 4096
                "" "key1.rest 4096" "" Box.firmware Box.legacy_firmware)
    as (_ & _ & _ & _ & _ & Hrest & _ & _ & _ & _ & Hlsilent).
  pose proof (refused_values_change_nothing
                (defs := Box.defs) (ext := Box.externals)
                (Box.hkey 0) (Box.legacy_key 0) 3800
                "" "" "" Box.firmware Box.legacy_firmware)
    as (_ & _ & _ & _ & _ & _ & Hdown & _).
  pose proof (refused_values_change_nothing
                (defs := Box.defs) (ext := Box.externals)
                (Box.hkey 0) (Box.legacy_key 0) 65
                "" "" "" Box.firmware Box.legacy_firmware)
    as (_ & _ & _ & _ & _ & _ & _ & Hchar & _).
  repeat apply conj.
  - apply Hsens. unfold sensitivity_in_range; simpl; lia.
  - apply Hlh. simpl; lia.
  - apply Huh. simpl; lia.
  - apply Hllh. simpl; lia.
  - apply Hluh. simpl; lia.
  - apply Hrest. simpl; lia.
  - apply Hdown. simpl; lia.
  - apply Hchar. lia.
  - apply Hname. unfold C.strlen; simpl; lia.
  - apply Hsilent. reflexivity.
  - apply Hlsilent. reflexivity.
Defined.

(** ** The [out] command *)

Section Out.

Context {defs : Definitions}.

Lemma serial_print_all lines fw :
  Rewrite.serial (Rewrite.print_all lines fw)
  = (Rewrite.serial fw ++ lines)%list.
Proof.
  unfold Rewrite.print_all. revert fw.
  induction lines as [| line lines IH]; intros fw; simpl.
  - now rewrite app_nil_r.
  - rewrite IH. simpl. now rewrite <- app_assoc.
Qed.

Lemma outputMode_print_all lines fw :
  Rewrite.outputMode (Rewrite.print_all lines fw) = Rewrite.outputMode fw.
Proof.
  unfold Rewrite.print_all. revert fw.
  induction lines as [| line lines IH]; intros fw; simpl; [easy |].
  now rewrite IH.
Qed.

Lemma config_print_all lines fw :
  Rewrite.config (Rewrite.print_all lines fw) = Rewrite.config fw.
Proof.
  unfold Rewrite.print_all. revert fw.
  induction lines as [| line lines IH]; intros fw; simpl; [easy |].
  now rewrite IH.
Qed.

(** The dump reads the key states, which printing does not touch. *)
Lemma dump_is_print_all keys fw fw' :
  Rewrite.heKeyStates fw' = Rewrite.heKeyStates fw ->
  fold_left (fun fw key => Rewrite.printHEKeyOutput key fw) keys fw'
  = Rewrite.print_all (map (out_line fw) keys) fw'.
Proof.
  revert fw'. induction keys as [| key keys IH]; intros fw' Hstates; simpl.
  - reflexivity.
  - rewrite IH by exact Hstates.
    unfold Rewrite.print_all; simpl. f_equal.
    unfold Rewrite.printHEKeyOutput, out_line, Rewrite.stateAt.
    now rewrite Hstates.
Qed.

Lemma out_single state fw :
  Rewrite.out true state fw
  = Rewrite.print_all (map (out_line fw) (Rewrite.heKeys (Rewrite.config fw)))
      fw.
Proof. unfold Rewrite.out. now apply dump_is_print_all. Qed.

Lemma out_command input fw :
  command_of input = "out" ->
  Rewrite.handleSerialInput input fw
  = Rewrite.out (C.isEqual (arg0_of input) "") (C.isTrue (arg0_of input)) fw.
Proof.
  intros Hcmd. rewrite handleSerialInput_unfold, Hcmd. reflexivity.
Qed.

End Out.

(** C5 as the code has it.  On a line whose command is [out]: with no
    argument the handler appends, for every hall effect key in order, the
    line [OUT hkey<N>=<raw> <mapped>] made of the key's index plus one and
    the last raw and mapped readings of its state, and changes nothing
    else, the streaming mode included; with an argument it sets the
    streaming mode to whether the argument is [1] or [true], and changes
    nothing else, so nothing is printed.  In particular for the lines
    [out], [out 1], [out true], [out 0] and [out false]. *)
Theorem out_dumps_once_or_sets_the_mode
  {defs : Definitions} (input : string) (fw : Rewrite.Firmware) :
  command_of input = "out" ->
  (arg0_of input = "" ->
     Rewrite.handleSerialInput input fw
     = Rewrite.print_all
         (map (out_line fw) (Rewrite.heKeys (Rewrite.config fw))) fw
     /\ Rewrite.serial (Rewrite.handleSerialInput input fw)
        = (Rewrite.serial fw
           ++ map (out_line fw) (Rewrite.heKeys (Rewrite.config fw)))%list
     /\ Rewrite.outputMode (Rewrite.handleSerialInput input fw)
        = Rewrite.outputMode fw)
  /\ (arg0_of input <> "" ->
      Rewrite.handleSerialInput input fw
      = Rewrite.set_outputMode (C.isTrue (arg0_of input)) fw
      /\ Rewrite.outputMode (Rewrite.handleSerialInput input fw)
         = C.isTrue (arg0_of input)
      /\ Rewrite.serial (Rewrite.handleSerialInput input fw)
         = Rewrite.serial fw)
  /\ (Rewrite.handleSerialInput "out" fw
      = Rewrite.print_all
          (map (out_line fw) (Rewrite.heKeys (Rewrite.config fw))) fw
      /\ Rewrite.handleSerialInput "out 1" fw = Rewrite.set_outputMode true fw
      /\ Rewrite.handleSerialInput "out true" fw
         = Rewrite.set_outputMode true fw
      /\ Rewrite.handleSerialInput "out 0" fw = Rewrite.set_outputMode false fw
      /\ Rewrite.handleSerialInput "out false" fw
         = Rewrite.set_outputMode false fw).
Proof.
  intros Hcmd. split; [| split].
  - intros Harg. rewrite (out_command _ _ Hcmd), Harg.
    change (C.isEqual "" "") with true. rewrite out_single.
    rewrite serial_print_all, outputMode_print_all. repeat split.
  - intros Harg. rewrite (out_command _ _ Hcmd).
    assert (Hsingle : C.isEqual (arg0_of input) "" = false)
      by (unfold C.isEqual; now apply String.eqb_neq).
    rewrite Hsingle. repeat split.
  - repeat split.
    rewrite (out_command "out" fw) by reflexivity. apply out_single.
Qed.

Lemma out_witness :
  Rewrite.serial (Rewrite.handleSerialInput (defs := Box.defs) "OUT"
                    Box.firmware)
  = ["OUT hkey1=3000 90"; "OUT hkey2=3001 91"; "OUT hkey3=3002 92"]
  /\ Rewrite.handleSerialInput (defs := Box.defs) "out yes" Box.firmware
     = Box.firmware.
Proof.
  split.
  - pose proof (out_dumps_once_or_sets_the_mode (defs := Box.defs)
                  "OUT" Box.firmware eq_refl) as (Hsingle & _).
    destruct (Hsingle eq_refl) as (_ & Hserial & _).
    rewrite Hserial. reflexivity.
  - pose proof (out_dumps_once_or_sets_the_mode (defs := Box.defs)
                  "out yes" Box.firmware eq_refl) as (_ & Hmode & _).
    destruct Hmode as (Hfw & _); [discriminate |].
    rewrite Hfw. reflexivity.
Defined.

(** C5 as stated fails on the form of the lines: the dump of the sample
    build is made of [OUT hkey<N>=...] lines, none of which is the
    [OUT key<N>=...] line of the specification. *)
Lemma out_lines_are_hkey_lines :
  Rewrite.serial (Rewrite.handleSerialInput (defs := Box.defs) "out"
                    Box.firmware)
  = ["OUT hkey1=3000 90"; "OUT hkey2=3001 91"; "OUT hkey3=3002 92"]
  /\ [specified_out_line 1 3000 90; specified_out_line 2 3001 91;
      specified_out_line 3 3002 92]
     = ["OUT key1=3000 90"; "OUT key2=3001 91"; "OUT key3=3002 92"]
  /\ Rewrite.serial (Rewrite.handleSerialInput (defs := Box.defs) "out"
                       Box.firmware)
     <> [specified_out_line 1 3000 90; specified_out_line 2 3001 91;
         specified_out_line 3 3002 92]
  /\ ~ In (specified_out_line 1 3000 90)
         (Rewrite.serial (Rewrite.handleSerialInput (defs := Box.defs) "out"
                            Box.firmware)).
Proof.
  repeat apply conj; try reflexivity.
  - vm_compute. discriminate.
  - vm_compute. intros [H | [H | [H | []]]]; discriminate.
Qed.

(** ** The [char] setting *)

Lemma code_is_a_byte c : C.uint8_t (C.code c) = C.code c.
Proof.
  unfold C.uint8_t, C.code. apply Z.mod_small.
  pose proof (nat_ascii_bounded c). lia.
Qed.

Lemma char_argument_literal c :
  Rewrite.char_argument (String c "") = C.code c.
Proof. reflexivity. Qed.

Lemma char_argument_decimal arg0 :
  C.strlen arg0 <> 1 -> Rewrite.char_argument arg0 = C.atoi arg0.
Proof.
  intros Hlen. unfold Rewrite.char_argument.
  destruct (Z.eqb_spec (C.strlen arg0) 1); [contradiction | reflexivity].
Qed.

Lemma hkey_setting_char {defs : Definitions} arg0 key :
  Rewrite.hkey_setting "char" arg0 key
  = Rewrite.through_key
      (fun k => Rewrite.key_char k (C.uint8_t (Rewrite.char_argument arg0)))
      key.
Proof. reflexivity. Qed.

Lemma dkey_setting_char {defs : Definitions} arg0 key :
  Rewrite.dkey_setting "char" arg0 key
  = Rewrite.through_key
      (fun k => Rewrite.key_char k (C.uint8_t (Rewrite.char_argument arg0)))
      key.
Proof. reflexivity. Qed.

(** C6 as the code has it.  In the rewrite the [char] setting of a hall
    effect or digital key stores the code of the argument's character when
    the argument is one character long, and otherwise [atoi] of the
    argument narrowed to [uint8_t]; the byte is stored whatever it is.
    In the legacy revision the [char] setting of a hall effect key reads
    its argument with [atoi] only, narrows it to [uint8_t], and stores it
    only when it lies in 97..122, leaving the key as it was otherwise; the
    [char] setting of a digital key hands the same number to [dkey_char]. *)
Theorem char_is_a_literal_or_a_code
  {defs : Definitions} {ext : Legacy.Externals}
  (arg0 : string) (c : ascii)
  (key : Rewrite.HEKey) (dkey : Rewrite.DigitalKey)
  (lkey : Legacy.HEKey) (ldkey : Legacy.DigitalKey) :
  (Rewrite.keyChar
     (Rewrite.he_key (Rewrite.hkey_setting "char" (String c "") key))
   = C.code c
   /\ Rewrite.keyChar
        (Rewrite.digital_key (Rewrite.dkey_setting "char" (String c "") dkey))
      = C.code c)
  /\ (C.strlen arg0 <> 1 ->
      Rewrite.keyChar (Rewrite.he_key (Rewrite.hkey_setting "char" arg0 key))
      = C.uint8_t (C.atoi arg0)
      /\ Rewrite.keyChar
           (Rewrite.digital_key (Rewrite.dkey_setting "char" arg0 dkey))
         = C.uint8_t (C.atoi arg0))
  /\ (forall (k : Rewrite.Key) (byte : Z),
        Rewrite.key_char k byte = Rewrite.set_keyChar byte k)
  /\ (97 <= C.uint8_t (C.atoi arg0) <= 122 ->
      Legacy.key_setting "char" arg0 lkey
      = Legacy.set_keyChar (C.uint8_t (C.atoi arg0)) lkey)
  /\ (~ 97 <= C.uint8_t (C.atoi arg0) <= 122 ->
      Legacy.key_setting "char" arg0 lkey = lkey)
  /\ Legacy.dkey_setting "char" arg0 ldkey
     = Legacy.dkey_char ldkey (C.uint8_t (C.atoi arg0)).
Proof.
  repeat apply conj.
  - cbn. apply code_is_a_byte.
  - cbn. apply code_is_a_byte.
  - intros Hlen.
    rewrite hkey_setting_char, dkey_setting_char.
    rewrite char_argument_decimal by exact Hlen.
    split; reflexivity.
  - reflexivity.
  - intros Hin. cbn.
    destruct (key_char_cases lkey (C.uint8_t (C.atoi arg0)))
      as [[_ ->] | [Hout _]]; [reflexivity | contradiction].
  - intros Hout. cbn.
    destruct (key_char_cases lkey (C.uint8_t (C.atoi arg0)))
      as [[Hin _] | [_ ->]]; [contradiction | reflexivity].
  - reflexivity.
Qed.

Lemma char_witness :
  Rewrite.keyChar
    (Rewrite.he_key
       (Rewrite.hkey_setting (defs := Box.defs) "char" "200" (Box.hkey 0)))
  = 200
  /\ Legacy.keyChar
       (Legacy.key_setting (defs := Box.defs) "char" "122" (Box.legacy_key 0))
     = 122
  /\ Legacy.key_setting (defs := Box.defs) "char" "z" (Box.legacy_key 0)
     = Box.legacy_key 0.
Proof.
  pose proof (char_is_a_literal_or_a_code
                (defs := Box.defs) (ext := Box.externals) "200" "a"
                (Box.hkey 0) (Box.dkey 0) (Box.legacy_key 0)
                (Box.legacy_dkey 0))
    as (_ & Hdecimal & _).
  pose proof (char_is_a_literal_or_a_code
                (defs := Box.defs) (ext := Box.externals) "122" "a"
                (Box.hkey 0) (Box.dkey 0) (Box.legacy_key 0)
                (Box.legacy_dkey 0))
    as (_ & _ & _ & Hletter & _).
  pose proof (char_is_a_literal_or_a_code
                (defs := Box.defs) (ext := Box.externals) "z" "a"
                (Box.hkey 0) (Box.dkey 0) (Box.legacy_key 0)
                (Box.legacy_dkey 0))
    as (_ & _ & _ & _ & Hrefused & _).
  repeat apply conj.
  - destruct Hdecimal as [-> _]; [discriminate | reflexivity].
  - rewrite Hletter; [reflexivity | ].
    change (C.uint8_t (C.atoi "122")) with 122. lia.
  - apply Hrefused. change (C.uint8_t (C.atoi "z")) with 0. lia.
Defined.

(** C6 as stated fails in the legacy revision, on a hall effect key: the
    line [key1.char 65] leaves the character of the first key at 97, and
    so does [key1.char b], a literal character. *)
Lemma legacy_char_is_checked_on_hall_effect_keys :
  Legacy.keyChar
    <$> Legacy.heKeys
          (Legacy.config
             (Legacy.handleSerialInput (defs := Box.defs)
                (ext := Box.externals) "" "key1.char 65" Box.legacy_firmware))
        !! 0%nat
  = Some 97
  /\ Legacy.keyChar
       <$> Legacy.heKeys
             (Legacy.config
                (Legacy.handleSerialInput (defs := Box.defs)
                   (ext := Box.externals) "" "key1.char b"
                   Box.legacy_firmware))
           !! 0%nat
     = Some 97
  /\ Legacy.handleSerialInput (defs := Box.defs) (ext := Box.externals)
       "" "key1.char 65" Box.legacy_firmware
     = Box.legacy_firmware.
Proof. repeat split. Qed.

(** ** The key index *)

Section KeyIndex.

Context {defs : Definitions}.

Lemma hkey_is_no_global_command command parameters arg0 fw :
  C.starts_with "hkey" command = true ->
  Rewrite.global_commands command parameters arg0 fw = fw.
Proof.
  unfold C.starts_with. intros Hcmd. unfold Rewrite.global_commands.
  compare_with_literals command. reflexivity.
Qed.

Lemma dkey_is_no_global_command command parameters arg0 fw :
  C.starts_with "dkey" command = true ->
  Rewrite.global_commands command parameters arg0 fw = fw.
Proof.
  unfold C.starts_with. intros Hcmd. unfold Rewrite.global_commands.
  compare_with_literals command. reflexivity.
Qed.

Lemma dkey_is_no_hkey_command command arg0 fw :
  C.starts_with "dkey" command = true ->
  Rewrite.hkey_commands command arg0 fw = Some fw.
Proof.
  unfold C.starts_with, Rewrite.hkey_commands. intros Hcmd.
  destruct command as [| [b0 b1 b2 b3 b4 b5 b6 b7] command]; [discriminate |].
  destruct b0, b1, b2, b3, b4, b5, b6, b7;
    first [ discriminate Hcmd | reflexivity ].
Qed.

(** What the range check does guarantee: when the index the handler
    computes, [atoi] of the digits minus one narrowed to [uint8_t], is not
    below the number of keys, the line changes nothing at all. *)
Lemma hkey_index_out_of_range input fw :
  C.starts_with "hkey" (command_of input) = true ->
  C.strlen (StringHelper.getArgumentAt (command_of input) "."%char 0) > 4 ->
  C.uint8_t
    (C.atoi
       (C.advance 4 (StringHelper.getArgumentAt (command_of input) "."%char 0))
     - 1)
  >= Rewrite.HE_KEYS fw ->
  Rewrite.handleSerialInput input fw = fw.
Proof.
  intros Hcmd Hlen Hidx.
  rewrite handleSerialInput_unfold. cbv zeta.
  rewrite hkey_is_no_global_command by exact Hcmd.
  unfold Rewrite.hkey_commands. rewrite Hcmd.
  destruct (Z.gtb_spec
              (C.strlen
                 (StringHelper.getArgumentAt (command_of input) "."%char 0)) 4);
    [| lia].
  destruct (Z.geb_spec
              (C.uint8_t
                 (C.atoi
                    (C.advance 4
                       (StringHelper.getArgumentAt (command_of input)
                          "."%char 0)) - 1))
              (Rewrite.HE_KEYS fw)); [reflexivity | lia].
Qed.

Lemma dkey_index_out_of_range input fw :
  C.starts_with "dkey" (command_of input) = true ->
  C.strlen (StringHelper.getArgumentAt (command_of input) "."%char 0) > 4 ->
  C.uint8_t
    (C.atoi
       (C.advance 4 (StringHelper.getArgumentAt (command_of input) "."%char 0))
     - 1)
  >= Rewrite.DIGITAL_KEYS fw ->
  Rewrite.handleSerialInput input fw = fw.
Proof.
  intros Hcmd Hlen Hidx.
  rewrite handleSerialInput_unfold. cbv zeta.
  rewrite dkey_is_no_global_command by exact Hcmd.
  rewrite dkey_is_no_hkey_command by exact Hcmd.
  unfold Rewrite.dkey_commands. rewrite Hcmd.
  destruct (Z.gtb_spec
              (C.strlen
                 (StringHelper.getArgumentAt (command_of input) "."%char 0)) 4);
    [| lia].
  destruct (Z.geb_spec
              (C.uint8_t
                 (C.atoi
                    (C.advance 4
                       (StringHelper.getArgumentAt (command_of input)
                          "."%char 0)) - 1))
              (Rewrite.DIGITAL_KEYS fw)); [reflexivity | lia].
Qed.

End KeyIndex.

Lemma hkey_index_out_of_range_witness :
  Rewrite.handleSerialInput (defs := Box.defs) "hkey4.rt 1" Box.firmware
  = Box.firmware
  /\ Rewrite.handleSerialInput (defs := Box.defs) "HKEY0.uh 200" Box.firmware
     = Box.firmware.
Proof.
  split.
  - apply hkey_index_out_of_range;
      [reflexivity | vm_compute; reflexivity | vm_compute; discriminate].
  - apply hkey_index_out_of_range;
      [reflexivity | vm_compute; reflexivity | vm_compute; discriminate].
Defined.

Section LegacyKeyIndex.

Context {defs : Definitions} {ext : Legacy.Externals}.

Lemma key_is_no_global_command command parameters arg0 fw :
  C.starts_with "key" command = true ->
  Legacy.global_commands command parameters arg0 fw = fw.
Proof.
  unfold C.starts_with. intros Hcmd. unfold Legacy.global_commands.
  compare_with_literals command. now rewrite andb_false_r.
Qed.

Lemma key_index_out_of_range beyond input fw :
  C.starts_with "key" (command_of input) = true ->
  C.strlen (StringHelper.getArgumentAt (command_of input) "."%char 0) > 3 ->
  C.uint8_t
    (C.atoi
       (C.advance 3 (StringHelper.getArgumentAt (command_of input) "."%char 0))
     - 1)
  >= Legacy.HE_KEYS fw ->
  Legacy.handleSerialInput beyond input fw = fw.
Proof.
  intros Hcmd Hlen Hidx.
  rewrite legacy_handleSerialInput_unfold. cbv zeta.
  rewrite key_is_no_global_command by exact Hcmd.
  unfold Legacy.key_commands. rewrite Hcmd.
  destruct (Z.gtb_spec
              (C.strlen
                 (StringHelper.getArgumentAt (command_of input) "."%char 0)) 3);
    [| lia].
  destruct (Z.geb_spec
              (C.uint8_t
                 (C.atoi
                    (C.advance 3
                       (StringHelper.getArgumentAt (command_of input)
                          "."%char 0)) - 1))
              (Legacy.HE_KEYS fw)); [reflexivity | lia].
Qed.

End LegacyKeyIndex.

(** C2, where the code departs from it.  With three hall effect keys the
    index 257 is out of range, yet [hkey257.rt 1] switches rapid trigger
    on for the first key: [atoi("257") - 1 = 256] becomes 0 in the
    [uint8_t] that is compared with [HE_KEYS].  The legacy line
    [key257.rt 1] and the digital line [dkey257.hid 1] behave alike, while
    the indices 0 and 4 are refused as the claim says. *)
Lemma index_257_reaches_the_first_key :
  (Rewrite.rapidTrigger
     <$> Rewrite.heKeys (Rewrite.config Box.firmware) !! 0%nat
   = Some false
   /\ Rewrite.rapidTrigger
        <$> Rewrite.heKeys
              (Rewrite.config
                 (Rewrite.handleSerialInput (defs := Box.defs)
                    "hkey257.rt 1" Box.firmware))
            !! 0%nat
      = Some true)
  /\ (Legacy.rapidTrigger
        <$> Legacy.heKeys (Legacy.config Box.legacy_firmware) !! 0%nat
      = Some false
      /\ Legacy.rapidTrigger
           <$> Legacy.heKeys
                 (Legacy.config
                    (Legacy.handleSerialInput (defs := Box.defs)
                       (ext := Box.externals) "" "key257.rt 1"
                       Box.legacy_firmware))
               !! 0%nat
         = Some true)
  /\ (Rewrite.hidEnabled ∘ Rewrite.digital_key
        <$> Rewrite.digitalKeys (Rewrite.config Box.firmware) !! 0%nat
      = Some false
      /\ Rewrite.hidEnabled ∘ Rewrite.digital_key
           <$> Rewrite.digitalKeys
                 (Rewrite.config
                    (Rewrite.handleSerialInput (defs := Box.defs)
                       "dkey257.hid 1" Box.firmware))
               !! 0%nat
         = Some true)
  /\ (Rewrite.handleSerialInput (defs := Box.defs) "hkey0.rt 1" Box.firmware
      = Box.firmware
      /\ Rewrite.handleSerialInput (defs := Box.defs) "hkey4.rt 1" Box.firmware
         = Box.firmware
      /\ Rewrite.handleSerialInput (defs := Box.defs) "hkey256.rt 1"
           Box.firmware
         = Box.firmware).
Proof. repeat split. Qed.

(** ** The invariants of the configuration, line after line *)

Lemma for_keys_Forall {T} (P : T -> Prop) (first n : nat) (body : T -> T)
  (arr : list T) :
  (forall key, P key -> P (body key)) ->
  Forall P arr -> Forall P (for_keys first n body arr).
Proof.
  intros Hbody. unfold for_keys. generalize (seq 0 n) as indices.
  intros indices. revert arr.
  induction indices as [| i indices IH]; intros arr Harr; simpl.
  - exact Harr.
  - apply IH. apply Forall_alter; auto.
Qed.

Lemma for_keys_length {T} (first n : nat) (body : T -> T) (arr : list T) :
  length (for_keys first n body arr) = length arr.
Proof.
  unfold for_keys. generalize (seq 0 n) as indices.
  intros indices. revert arr.
  induction indices as [| i indices IH]; intros arr; simpl.
  - reflexivity.
  - rewrite IH. apply length_alter.
Qed.

Section Invariants.

Context {defs : Definitions}.

Lemma hkey_setting_invariant setting arg0 key :
  key_invariant key -> key_invariant (Rewrite.hkey_setting setting arg0 key).
Proof.
  unfold key_invariant, hysteresis_gap, sensitivity_in_range.
  intros (Hgap & Hreach & Hus & Hds).
  unfold Rewrite.hkey_setting.
  repeat match goal with
    | |- context [C.isEqual setting ?lit] => destruct (C.isEqual setting lit)
    end;
    unfold Rewrite.hkey_rt, Rewrite.hkey_crt, Rewrite.hkey_rtus,
      Rewrite.hkey_rtds, Rewrite.hkey_lh, Rewrite.hkey_uh,
      Rewrite.through_key; simpl;
    try (generalize (C.uint16_t (C.atoi arg0)); intros value);
    decide_checks; simpl; repeat split; lia.
Qed.

Lemma config_fold_print {K} (line : Rewrite.Firmware -> K -> Rewrite.Firmware)
  (keys : list K) fw :
  (forall fw key, Rewrite.config (line fw key) = Rewrite.config fw) ->
  Rewrite.config (fold_left line keys fw) = Rewrite.config fw.
Proof.
  intros Hline. revert fw.
  induction keys as [| key keys IH]; intros fw; simpl; [reflexivity |].
  now rewrite IH.
Qed.

Lemma config_get fw : Rewrite.config (Rewrite.get fw) = Rewrite.config fw.
Proof.
  unfold Rewrite.get. cbv zeta. cbn [Rewrite.print Rewrite.config].
  rewrite !config_fold_print; [apply config_print_all | |];
    intros; apply config_print_all.
Qed.

Lemma config_out single state fw :
  Rewrite.config (Rewrite.out single state fw) = Rewrite.config fw.
Proof.
  unfold Rewrite.out. destruct single; [| reflexivity].
  now apply config_fold_print.
Qed.

Lemma heKeys_global_commands command parameters arg0 fw :
  Rewrite.heKeys
    (Rewrite.config (Rewrite.global_commands command parameters arg0 fw))
  = Rewrite.heKeys (Rewrite.config fw).
Proof.
  unfold Rewrite.global_commands.
  repeat match goal with
    | |- context [C.isEqual command ?lit] => destruct (C.isEqual command lit)
    end;
    try reflexivity.
  - now rewrite config_get.
  - unfold Rewrite.name. now destruct (_ && _).
  - now rewrite config_out.
Qed.

Lemma hkey_commands_invariant command arg0 fw fw' :
  Rewrite.hkey_commands command arg0 fw = Some fw' ->
  Forall key_invariant (Rewrite.heKeys (Rewrite.config fw)) ->
  Forall key_invariant (Rewrite.heKeys (Rewrite.config fw')).
Proof.
  unfold Rewrite.hkey_commands.
  repeat match goal with
    | |- context [if ?b then _ else _] => destruct b
    end;
    intros H Hinv; inversion H; subst; simpl; try exact Hinv;
    apply for_keys_Forall; auto using hkey_setting_invariant.
Qed.

Lemma dkey_commands_heKeys command arg0 fw fw' :
  Rewrite.dkey_commands command arg0 fw = Some fw' ->
  Rewrite.heKeys (Rewrite.config fw') = Rewrite.heKeys (Rewrite.config fw).
Proof.
  unfold Rewrite.dkey_commands.
  repeat match goal with
    | |- context [if ?b then _ else _] => destruct b
    end;
    intros H; inversion H; reflexivity.
Qed.

End Invariants.

(** Whatever the line, [handleSerialInput] keeps the invariants of the
    settings of every hall effect key: the thresholds stay a tolerance
    apart, the upper threshold stays a tolerance below the end of the
    travel, and both sensitivities stay within their range. *)
Theorem handleSerialInput_keeps_the_key_invariants
  {defs : Definitions} (input : string) (fw : Rewrite.Firmware) :
  Forall key_invariant (Rewrite.heKeys (Rewrite.config fw)) ->
  Forall key_invariant
    (Rewrite.heKeys (Rewrite.config (Rewrite.handleSerialInput input fw))).
Proof.
  intros Hinv. rewrite handleSerialInput_unfold. cbv zeta.
  rewrite <- (heKeys_global_commands (command_of input) (parameters_of input)
                (arg0_of input) fw) in Hinv.
  destruct (Rewrite.hkey_commands _ _ _) as [fw'' |] eqn:Hh; [| exact Hinv].
  apply hkey_commands_invariant in Hh; [| exact Hinv].
  destruct (Rewrite.dkey_commands _ _ fw'') as [fw''' |] eqn:Hd;
    [| exact Hh].
  apply dkey_commands_heKeys in Hd. now rewrite Hd.
Qed.

Lemma handleSerialInput_keeps_the_key_invariants_witness :
  Forall (key_invariant (defs := Box.defs))
    (Rewrite.heKeys
       (Rewrite.config
          (Rewrite.handleSerialInput (defs := Box.defs) "hkey.uh 395"
             (Rewrite.handleSerialInput (defs := Box.defs) "hkey2.lh 100"
                Box.firmware)))).
Proof.
  apply handleSerialInput_keeps_the_key_invariants.
  apply handleSerialInput_keeps_the_key_invariants.
  repeat constructor; unfold hysteresis_gap, sensitivity_in_range; simpl; lia.
Defined.

Section LegacyInvariants.

Context {defs : Definitions} {ext : Legacy.Externals}.

Lemma key_setting_invariant setting arg0 key :
  legacy_key_invariant key ->
  legacy_key_invariant (Legacy.key_setting setting arg0 key).
Proof.
  unfold legacy_key_invariant, key_invariant, hysteresis_gap,
    sensitivity_in_range, rest_above_down.
  intros ((Hgap & Hreach & Hus & Hds) & Hpol). simpl in *.
  unfold Legacy.key_setting.
  repeat match goal with
    | |- context [C.isEqual setting ?lit] => destruct (C.isEqual setting lit)
    end;
    unfold Legacy.key_rt, Legacy.key_crt, Legacy.key_rtus, Legacy.key_rtds,
      Legacy.key_lh, Legacy.key_uh, Legacy.key_char, Legacy.key_rest,
      Legacy.key_down, Legacy.key_hid; simpl;
    try (generalize (C.uint16_t (C.atoi arg0)); intros value);
    try (generalize (C.uint8_t (C.atoi arg0)); intros byte);
    decide_checks; simpl; repeat split; lia.
Qed.

Lemma legacy_config_print_all lines fw :
  Legacy.config (Legacy.print_all lines fw) = Legacy.config fw.
Proof.
  unfold Legacy.print_all. revert fw.
  induction lines as [| line lines IH]; intros fw; simpl; [easy |].
  now rewrite IH.
Qed.

Lemma legacy_config_fold_print {K}
  (line : Legacy.Firmware -> K -> Legacy.Firmware) (keys : list K) fw :
  (forall fw key, Legacy.config (line fw key) = Legacy.config fw) ->
  Legacy.config (fold_left line keys fw) = Legacy.config fw.
Proof.
  intros Hline. revert fw.
  induction keys as [| key keys IH]; intros fw; simpl; [reflexivity |].
  now rewrite IH.
Qed.

Lemma legacy_config_get fw : Legacy.config (Legacy.get fw) = Legacy.config fw.
Proof.
  unfold Legacy.get. cbv zeta. cbn [Legacy.print Legacy.config].
  rewrite legacy_config_fold_print; [apply legacy_config_print_all |].
  intros; apply legacy_config_print_all.
Qed.

Lemma legacy_heKeys_global_commands command parameters arg0 fw :
  Legacy.heKeys
    (Legacy.config (Legacy.global_commands command parameters arg0 fw))
  = Legacy.heKeys (Legacy.config fw).
Proof.
  unfold Legacy.global_commands.
  repeat match goal with
    | |- context [C.isEqual command ?lit] => destruct (C.isEqual command lit)
    end;
    try reflexivity.
  - now rewrite legacy_config_get.
  - unfold Legacy.name. now destruct (_ && _).
  - now destruct Legacy.DEBUG.
  - now destruct Legacy.DEBUG.
Qed.

Lemma key_commands_invariant command arg0 fw fw' :
  Legacy.key_commands command arg0 fw = Some fw' ->
  Forall legacy_key_invariant (Legacy.heKeys (Legacy.config fw)) ->
  Forall legacy_key_invariant (Legacy.heKeys (Legacy.config fw')).
Proof.
  unfold Legacy.key_commands.
  repeat match goal with
    | |- context [if ?b then _ else _] => destruct b
    end;
    intros H Hinv; inversion H; subst; simpl; try exact Hinv;
    apply for_keys_Forall; auto using key_setting_invariant.
Qed.

Lemma legacy_dkey_commands_heKeys command arg0 fw fw' :
  Legacy.dkey_commands command arg0 fw = Some fw' ->
  Legacy.heKeys (Legacy.config fw') = Legacy.heKeys (Legacy.config fw).
Proof.
  unfold Legacy.dkey_commands.
  repeat match goal with
    | |- context [if ?b then _ else _] => destruct b
    end;
    intros H; inversion H; reflexivity.
Qed.

End LegacyInvariants.

(** Whatever the line (and whatever lies beyond a line without
    parameters), the legacy [handleSerialInput] keeps the invariants of
    every hall effect key: those of the settings, and a rest position
    above the down position. *)
Theorem legacy_handleSerialInput_keeps_the_key_invariants
  {defs : Definitions} {ext : Legacy.Externals}
  (beyond input : string) (fw : Legacy.Firmware) :
  Forall legacy_key_invariant (Legacy.heKeys (Legacy.config fw)) ->
  Forall legacy_key_invariant
    (Legacy.heKeys
       (Legacy.config (Legacy.handleSerialInput beyond input fw))).
Proof.
  intros Hinv. rewrite legacy_handleSerialInput_unfold. cbv zeta.
  rewrite <- (legacy_heKeys_global_commands (command_of input)
                (legacy_parameters_of beyond input)
                (legacy_arg0_of beyond input) fw) in Hinv.
  destruct (Legacy.key_commands _ _ _) as [fw'' |] eqn:Hh; [| exact Hinv].
  apply key_commands_invariant in Hh; [| exact Hinv].
  destruct (Legacy.dkey_commands _ _ fw'') as [fw''' |] eqn:Hd;
    [| exact Hh].
  apply legacy_dkey_commands_heKeys in Hd. now rewrite Hd.
Qed.

Lemma legacy_handleSerialInput_keeps_the_key_invariants_witness :
  Forall (legacy_key_invariant (defs := Box.defs))
    (Legacy.heKeys
       (Legacy.config
          (Legacy.handleSerialInput (defs := Box.defs) (ext := Box.externals)
             "" "key.down 3800" Box.legacy_firmware))).
Proof.
  apply legacy_handleSerialInput_keeps_the_key_invariants.
  repeat constructor;
    unfold hysteresis_gap, sensitivity_in_range, rest_above_down; simpl; lia.
Defined.

(** ** Numbers written by [printf] and read back by [atoi] *)

Lemma digits_step c s acc :
  C.isdigit c = true ->
  C.digits acc (String c s) = C.digits (acc * 10 + (C.code c - 48)) s.
Proof. intros H. simpl. now rewrite H. Qed.

Lemma digits_of_uint_acc d acc :
  C.digits (Z.pos acc) (NilEmpty.string_of_uint d)
  = Z.pos (Pos.of_uint_acc d acc).
Proof.
  revert acc.
  induction d; intros acc;
    cbn [NilEmpty.string_of_uint Pos.of_uint_acc];
    try reflexivity;
    rewrite digits_step by reflexivity; rewrite <- IHd; f_equal;
    vm_compute (C.code _ - 48); lia.
Qed.

Lemma digits_of_uint d :
  C.digits 0 (NilEmpty.string_of_uint d) = Z.of_N (Pos.of_uint d).
Proof.
  induction d; cbn [NilEmpty.string_of_uint Pos.of_uint]; try reflexivity;
    rewrite digits_step by reflexivity;
    vm_compute (0 * 10 + (C.code _ - 48));
    first [ exact IHd | apply digits_of_uint_acc ].
Qed.

(** [atoi] reads back every [int] that [%d] printed. *)
Lemma atoi_printf_d z :
  C.INT_MIN <= z <= C.INT_MAX -> C.atoi (C.printf_d z) = z.
Proof.
  intros Hz. unfold C.atoi, C.printf_d.
  destruct z as [| p | p]; cbn [Z.to_int NilEmpty.string_of_int].
  - reflexivity.
  - assert (H : match
                  C.skip_spaces (NilEmpty.string_of_uint (Pos.to_uint p))
                with
                | String "-" s' => - C.digits 0 s'
                | String "+" s' => C.digits 0 s'
                | s' => C.digits 0 s'
                end
                = C.digits 0 (NilEmpty.string_of_uint (Pos.to_uint p))).
    { destruct (Pos.to_uint p); reflexivity. }
    rewrite H, digits_of_uint, DecimalPos.Unsigned.of_to.
    unfold C.INT_MIN, C.INT_MAX in *. lia.
  - cbn [C.skip_spaces]. change (C.isspace "-") with false. cbv iota.
    rewrite digits_of_uint, DecimalPos.Unsigned.of_to.
    unfold C.INT_MIN, C.INT_MAX in *. lia.
Qed.

Lemma uint16_t_read_back z :
  C.is_uint16_t z -> C.uint16_t (C.atoi (C.printf_d z)) = z.
Proof.
  intros Hz. rewrite atoi_printf_d.
  - now apply uint16_t_of_uint16_t.
  - unfold C.is_uint16_t, C.INT_MIN, C.INT_MAX in *. lia.
Qed.

Lemma uint8_t_read_back z :
  C.is_uint8_t z -> C.uint8_t (C.atoi (C.printf_d z)) = z.
Proof.
  intros Hz. rewrite atoi_printf_d.
  - now apply uint8_t_of_uint8_t.
  - unfold C.is_uint8_t, C.INT_MIN, C.INT_MAX in *. lia.
Qed.

Lemma isTrue_printf_b b : C.isTrue (C.printf_b b) = b.
Proof. now destruct b. Qed.

(** A number of two digits or more is not taken for a literal. *)
Lemma printf_d_two_digits z :
  10 <= z < 256 -> C.strlen (C.printf_d z) <> 1.
Proof.
  intros Hz.
  assert (Hall : forallb
                   (fun n => negb (C.strlen (C.printf_d (Z.of_nat n)) =? 1))
                   (seq 10 246) = true) by (vm_compute; reflexivity).
  rewrite forallb_forall in Hall.
  specialize (Hall (Z.to_nat z)).
  rewrite Z2Nat.id in Hall by lia.
  assert (Hin : In (Z.to_nat z) (seq 10 246)) by (apply in_seq; lia).
  apply Hall in Hin. apply negb_true_iff in Hin. now apply Z.eqb_neq.
Qed.

Lemma printf_d_one_digit z :
  0 <= z <= 9 -> Rewrite.char_argument (C.printf_d z) = 48 + z.
Proof.
  intros Hz.
  assert (Hcases : z = 0 \/ z = 1 \/ z = 2 \/ z = 3 \/ z = 4 \/ z = 5
                   \/ z = 6 \/ z = 7 \/ z = 8 \/ z = 9) by lia.
  repeat destruct Hcases as [-> | Hcases]; try subst z; reflexivity.
Qed.

(** ** A dump read back *)

Section ReadBack.

Context {defs : Definitions}.

Lemma hkey_setting_dispatch arg0 key :
  Rewrite.hkey_setting "rt" arg0 key = Rewrite.hkey_rt key (C.isTrue arg0)
  /\ Rewrite.hkey_setting "crt" arg0 key
     = Rewrite.hkey_crt key (C.isTrue arg0)
  /\ Rewrite.hkey_setting "rtus" arg0 key
     = Rewrite.hkey_rtus key (C.uint16_t (C.atoi arg0))
  /\ Rewrite.hkey_setting "rtds" arg0 key
     = Rewrite.hkey_rtds key (C.uint16_t (C.atoi arg0))
  /\ Rewrite.hkey_setting "lh" arg0 key
     = Rewrite.hkey_lh key (C.uint16_t (C.atoi arg0))
  /\ Rewrite.hkey_setting "uh" arg0 key
     = Rewrite.hkey_uh key (C.uint16_t (C.atoi arg0))
  /\ Rewrite.hkey_setting "hid" arg0 key
     = Rewrite.through_key (fun k => Rewrite.key_hid k (C.isTrue arg0)) key.
Proof. repeat split. Qed.

Lemma hkey_rtus_same key :
  Rewrite.hkey_rtus key (Rewrite.rapidTriggerUpSensitivity key) = key.
Proof.
  unfold Rewrite.hkey_rtus. destruct (_ && _); [| reflexivity].
  now destruct key.
Qed.

Lemma hkey_rtds_same key :
  Rewrite.hkey_rtds key (Rewrite.rapidTriggerDownSensitivity key) = key.
Proof.
  unfold Rewrite.hkey_rtds. destruct (_ && _); [| reflexivity].
  now destruct key.
Qed.

Lemma hkey_lh_same key :
  Rewrite.hkey_lh key (Rewrite.lowerHysteresis key) = key.
Proof.
  unfold Rewrite.hkey_lh. destruct (_ >=? _); [| reflexivity].
  now destruct key.
Qed.

Lemma hkey_uh_same key :
  Rewrite.hkey_uh key (Rewrite.upperHysteresis key) = key.
Proof.
  unfold Rewrite.hkey_uh. destruct (_ && _); [| reflexivity].
  now destruct key.
Qed.

End ReadBack.

(** What [get] prints for a setting of a hall effect key, sent back as the
    argument of that setting, leaves the key as it is: the flags, the
    sensitivities, the thresholds, and the key character when its code has
    two digits or more.  A code below 10 is printed as one digit, which
    the [char] setting takes for a literal: it reads back as the code of
    that digit, 48 more. *)
Theorem printed_settings_read_back
  {defs : Definitions} (key : Rewrite.HEKey) :
  members_in_range key ->
  Rewrite.hkey_setting "rt" (C.printf_b (Rewrite.rapidTrigger key)) key = key
  /\ Rewrite.hkey_setting "crt"
       (C.printf_b (Rewrite.continuousRapidTrigger key)) key
     = key
  /\ Rewrite.hkey_setting "rtus"
       (C.printf_d (Rewrite.rapidTriggerUpSensitivity key)) key
     = key
  /\ Rewrite.hkey_setting "rtds"
       (C.printf_d (Rewrite.rapidTriggerDownSensitivity key)) key
     = key
  /\ Rewrite.hkey_setting "lh" (C.printf_d (Rewrite.lowerHysteresis key)) key
     = key
  /\ Rewrite.hkey_setting "uh" (C.printf_d (Rewrite.upperHysteresis key)) key
     = key
  /\ Rewrite.hkey_setting "hid"
       (C.printf_b (Rewrite.hidEnabled (Rewrite.he_key key))) key
     = key
  /\ (10 <= Rewrite.keyChar (Rewrite.he_key key) ->
      Rewrite.hkey_setting "char"
        (C.printf_d (Rewrite.keyChar (Rewrite.he_key key))) key
      = key)
  /\ (Rewrite.keyChar (Rewrite.he_key key) <= 9 ->
      Rewrite.keyChar
        (Rewrite.he_key
           (Rewrite.hkey_setting "char"
              (C.printf_d (Rewrite.keyChar (Rewrite.he_key key))) key))
      = 48 + Rewrite.keyChar (Rewrite.he_key key)).
Proof.
  intros (Hus & Hds & Hlh & Huh & Hchar).
  pose proof (hkey_setting_dispatch (C.printf_b (Rewrite.rapidTrigger key))
                key) as (-> & _).
  pose proof (hkey_setting_dispatch
                (C.printf_b (Rewrite.continuousRapidTrigger key)) key)
    as (_ & -> & _).
  pose proof (hkey_setting_dispatch
                (C.printf_d (Rewrite.rapidTriggerUpSensitivity key)) key)
    as (_ & _ & -> & _).
  pose proof (hkey_setting_dispatch
                (C.printf_d (Rewrite.rapidTriggerDownSensitivity key)) key)
    as (_ & _ & _ & -> & _).
  pose proof (hkey_setting_dispatch
                (C.printf_d (Rewrite.lowerHysteresis key)) key)
    as (_ & _ & _ & _ & -> & _).
  pose proof (hkey_setting_dispatch
                (C.printf_d (Rewrite.upperHysteresis key)) key)
    as (_ & _ & _ & _ & _ & -> & _).
  pose proof (hkey_setting_dispatch
                (C.printf_b (Rewrite.hidEnabled (Rewrite.he_key key))) key)
    as (_ & _ & _ & _ & _ & _ & ->).
  rewrite !isTrue_printf_b, !uint16_t_read_back by assumption.
  rewrite hkey_rtus_same, hkey_rtds_same, hkey_lh_same, hkey_uh_same.
  rewrite hkey_setting_char.
  repeat apply conj; try reflexivity.
  - now destruct key.
  - now destruct key.
  - now destruct key as [[] ? ? ? ? ? ?].
  - intros Hten.
    rewrite char_argument_decimal
      by (apply printf_d_two_digits; unfold C.is_uint8_t in Hchar; lia).
    rewrite uint8_t_read_back by exact Hchar.
    now destruct key as [[] ? ? ? ? ? ?].
  - intros Hdigit.
    rewrite printf_d_one_digit by (unfold C.is_uint8_t in Hchar; lia).
    cbn. apply uint8_t_of_uint8_t.
    unfold C.is_uint8_t in *. lia.
Qed.

Lemma printed_settings_read_back_witness :
  Rewrite.hkey_setting (defs := Box.defs) "uh" "300" (Box.hkey 0)
  = Box.hkey 0
  /\ Rewrite.hkey_setting (defs := Box.defs) "char" "97" (Box.hkey 0)
     = Box.hkey 0.
Proof.
  assert (Hrange : members_in_range (Box.hkey 0))
    by (unfold members_in_range, C.is_uint16_t, C.is_uint8_t; simpl; lia).
  pose proof (printed_settings_read_back (defs := Box.defs) (Box.hkey 0)
                Hrange) as (_ & _ & _ & _ & _ & Huh & _ & Hchar & _).
  split; [exact Huh | apply Hchar; simpl; lia].
Defined.

Section LegacyReadBack.

Context {defs : Definitions}.



End LegacyReadBack.



(** ** The dump *)

Section Get.

Context {defs : Definitions}.

Lemma print_all_app lines lines' fw :
  Rewrite.print_all (lines ++ lines')%list fw
  = Rewrite.print_all lines' (Rewrite.print_all lines fw).
Proof. unfold Rewrite.print_all. apply fold_left_app. Qed.

Lemma heKeyStates_print_all lines fw :
  Rewrite.heKeyStates (Rewrite.print_all lines fw) = Rewrite.heKeyStates fw.
Proof.
  unfold Rewrite.print_all. revert fw.
  induction lines as [| line lines IH]; intros fw; simpl; [easy |].
  now rewrite IH.
Qed.

Lemma get_hkey_lines_states fw fw' key :
  Rewrite.heKeyStates fw' = Rewrite.heKeyStates fw ->
  get_hkey_lines fw' key = get_hkey_lines fw key.
Proof.
  intros Hstates. unfold get_hkey_lines, Rewrite.stateAt.
  now rewrite Hstates.
Qed.

Lemma get_hkeys_is_print_all keys fw fw' :
  Rewrite.heKeyStates fw' = Rewrite.heKeyStates fw ->
  fold_left Rewrite.get_hkey keys fw'
  = Rewrite.print_all (flat_map (get_hkey_lines fw) keys) fw'.
Proof.
  revert fw'. induction keys as [| key keys IH]; intros fw' Hstates.
  - reflexivity.
  - cbn [fold_left flat_map]. rewrite print_all_app.
    rewrite <- (get_hkey_lines_states fw fw' key Hstates).
    apply IH.
    change (Rewrite.get_hkey fw' key)
      with (Rewrite.print_all (get_hkey_lines fw' key) fw').
    now rewrite heKeyStates_print_all.
Qed.

Lemma get_dkeys_is_print_all keys fw' :
  fold_left Rewrite.get_dkey keys fw'
  = Rewrite.print_all (flat_map get_dkey_lines keys) fw'.
Proof.
  revert fw'. induction keys as [| key keys IH]; intros fw'.
  - reflexivity.
  - cbn [fold_left flat_map]. rewrite print_all_app. apply IH.
Qed.

Lemma get_is_print_all fw :
  Rewrite.get fw = Rewrite.print_all (get_lines fw) fw.
Proof.
  unfold Rewrite.get, get_lines. cbv zeta.
  rewrite !print_all_app.
  change (Rewrite.print "GET END" ?x) with (Rewrite.print_all ["GET END"] x).
  f_equal.
  rewrite get_dkeys_is_print_all. f_equal.
  - f_equal. rewrite config_fold_print, config_print_all; [reflexivity |].
    intros; apply config_print_all.
  - rewrite config_print_all.
    apply get_hkeys_is_print_all, heKeyStates_print_all.
Qed.

Lemma length_flat_map_const {A B} (f : A -> list B) (n : nat) (l : list A) :
  (forall x, length (f x) = n) -> length (flat_map f l) = (n * length l)%nat.
Proof.
  intros Hf. induction l as [| x l IH]; simpl; [lia |].
  rewrite length_app, Hf, IH. lia.
Qed.

Lemma get_lines_start_with_GET fw :
  Forall (fun line => C.starts_with "GET " line = true) (get_lines fw).
Proof.
  unfold get_lines. repeat apply Forall_app_2.
  - repeat constructor.
  - apply Forall_flat_map, Forall_forall. intros key _. repeat constructor.
  - apply Forall_flat_map, Forall_forall. intros key _. repeat constructor.
  - repeat constructor.
Qed.

End Get.

Lemma print_all_record lines fw :
  Rewrite.print_all lines fw
  = {| Rewrite.config := Rewrite.config fw;
       Rewrite.savedConfig := Rewrite.savedConfig fw;
       Rewrite.heKeyStates := Rewrite.heKeyStates fw;
       Rewrite.outputMode := Rewrite.outputMode fw;
       Rewrite.usbBoot := Rewrite.usbBoot fw;
       Rewrite.serial := (Rewrite.serial fw ++ lines)%list |}.
Proof.
  unfold Rewrite.print_all. revert fw.
  induction lines as [| line lines IH]; intros fw; simpl.
  - rewrite app_nil_r. now destruct fw.
  - rewrite IH. simpl. now rewrite <- app_assoc.
Qed.

(** On a line whose command is [get] the handler appends the dump to the
    serial port and changes nothing else.  The dump has 8 global lines, 10
    lines for every hall effect key, 2 for every digital key and the
    closing line [GET END], which is its last; every line starts with
    [GET ]. *)
Theorem get_appends_the_dump
  {defs : Definitions} (input : string) (fw : Rewrite.Firmware) :
  command_of input = "get" ->
  Rewrite.handleSerialInput input fw
  = {| Rewrite.config := Rewrite.config fw;
       Rewrite.savedConfig := Rewrite.savedConfig fw;
       Rewrite.heKeyStates := Rewrite.heKeyStates fw;
       Rewrite.outputMode := Rewrite.outputMode fw;
       Rewrite.usbBoot := Rewrite.usbBoot fw;
       Rewrite.serial := (Rewrite.serial fw ++ get_lines fw)%list |}
  /\ Z.of_nat (length (get_lines fw))
     = 9 + 10 * Rewrite.HE_KEYS fw + 2 * Rewrite.DIGITAL_KEYS fw
  /\ last (get_lines fw) = Some "GET END"
  /\ Forall (fun line => C.starts_with "GET " line = true) (get_lines fw).
Proof.
  intros Hcmd. repeat apply conj.
  - rewrite handleSerialInput_unfold, Hcmd.
    change (Rewrite.get fw = {|
       Rewrite.config := Rewrite.config fw;
       Rewrite.savedConfig := Rewrite.savedConfig fw;
       Rewrite.heKeyStates := Rewrite.heKeyStates fw;
       Rewrite.outputMode := Rewrite.outputMode fw;
       Rewrite.usbBoot := Rewrite.usbBoot fw;
       Rewrite.serial := (Rewrite.serial fw ++ get_lines fw)%list |}).
    rewrite get_is_print_all. apply print_all_record.
  - unfold get_lines, Rewrite.HE_KEYS, Rewrite.DIGITAL_KEYS.
    rewrite !length_app.
    rewrite (length_flat_map_const _ 10) by reflexivity.
    rewrite (length_flat_map_const _ 2) by reflexivity.
    simpl length. lia.
  - unfold get_lines. rewrite !app_assoc. apply last_snoc.
  - apply get_lines_start_with_GET.
Qed.

Lemma get_appends_the_dump_witness :
  Z.of_nat
    (length
       (Rewrite.serial
          (Rewrite.handleSerialInput (defs := Box.defs) "GET" Box.firmware)))
  = 75.
Proof.
  pose proof (get_appends_the_dump (defs := Box.defs) "GET" Box.firmware
                eq_refl) as (Hdump & Hcount & _).
  rewrite Hdump. cbn [Rewrite.serial]. rewrite length_app, Nat2Z.inj_add.
  rewrite Hcount. reflexivity.
Defined.

(** ** Key lines: every key, or one *)

Lemma for_keys_one {T} (body : T -> T) (arr : list T) (i : nat) :
  for_keys i 1 body arr = alter body i arr.
Proof. unfold for_keys; simpl. now rewrite Nat.add_0_r. Qed.

Lemma for_keys_from {T} (body : T -> T) (done todo : list T) :
  fold_left (fun arr i => alter body (0 + i)%nat arr)
    (seq (length done) (length todo)) (done ++ todo)%list
  = (done ++ map body todo)%list.
Proof.
  revert done. induction todo as [| key todo IH]; intros done.
  - reflexivity.
  - cbn [length seq fold_left map]. rewrite Nat.add_0_l.
    replace (length done) with (length done + 0)%nat at 2 by lia.
    rewrite alter_app_r. cbn [alter list_alter].
    specialize (IH (done ++ [body key])%list).
    rewrite length_app, <- !app_assoc in IH. cbn [length app] in IH.
    replace (length done + 1)%nat with (S (length done)) in IH by lia.
    exact IH.
Qed.

(** The loop over the whole array hands every key to the body once. *)
Lemma for_keys_all {T} (body : T -> T) (arr : list T) :
  for_keys 0 (length arr) body arr = map body arr.
Proof. exact (for_keys_from body [] arr). Qed.

Section KeyLines.

Context {defs : Definitions}.

Lemma hkey_is_no_dkey_command command arg0 fw :
  C.starts_with "hkey" command = true ->
  Rewrite.dkey_commands command arg0 fw = Some fw.
Proof.
  unfold C.starts_with, Rewrite.dkey_commands. intros Hcmd.
  destruct command as [| [b0 b1 b2 b3 b4 b5 b6 b7] command]; [discriminate |].
  destruct b0, b1, b2, b3, b4, b5, b6, b7;
    first [ discriminate Hcmd | reflexivity ].
Qed.

Lemma hkey_line input fw :
  C.starts_with "hkey" (command_of input) = true ->
  Rewrite.handleSerialInput input fw
  = match
      Rewrite.hkey_commands (command_of input) (arg0_of input) fw
    with
    | Some fw' => fw'
    | None => fw
    end.
Proof.
  intros Hcmd. rewrite handleSerialInput_unfold. cbv zeta.
  rewrite hkey_is_no_global_command by exact Hcmd.
  destruct (Rewrite.hkey_commands _ _ fw) as [fw' |]; [| reflexivity].
  now rewrite hkey_is_no_dkey_command.
Qed.

Lemma dkey_line input fw :
  C.starts_with "dkey" (command_of input) = true ->
  Rewrite.handleSerialInput input fw
  = match
      Rewrite.dkey_commands (command_of input) (arg0_of input) fw
    with
    | Some fw' => fw'
    | None => fw
    end.
Proof.
  intros Hcmd. rewrite handleSerialInput_unfold. cbv zeta.
  rewrite dkey_is_no_global_command by exact Hcmd.
  now rewrite dkey_is_no_hkey_command.
Qed.

End KeyLines.

(** A line whose command starts with [hkey] and carries no index hands
    every hall effect key to the setting, in one pass (the loop counter is
    a [uint8_t], so for at most 255 keys); with an index within the array
    it hands over that key alone.  Nothing but the array of hall effect
    keys changes. *)
Theorem hkey_line_sets_every_key_or_one
  {defs : Definitions} (input : string) (fw : Rewrite.Firmware) :
  C.starts_with "hkey" (command_of input) = true ->
  (C.strlen (key_string_of input) <= 4 ->
   Rewrite.HE_KEYS fw <= 255 ->
   Rewrite.handleSerialInput input fw
   = Rewrite.with_heKeys
       (map (Rewrite.hkey_setting (setting_of input) (arg0_of input))) fw)
  /\ (C.strlen (key_string_of input) > 4 ->
      key_index_of 4 input < Rewrite.HE_KEYS fw ->
      Rewrite.handleSerialInput input fw
      = Rewrite.with_heKeys
          (alter (Rewrite.hkey_setting (setting_of input) (arg0_of input))
             (Z.to_nat (key_index_of 4 input))) fw).
Proof.
  intros Hcmd. rewrite (hkey_line _ _ Hcmd).
  unfold Rewrite.hkey_commands. rewrite Hcmd.
  fold (key_string_of input) (setting_of input).
  fold (key_index_of 4 input).
  split.
  - intros Hlen _.
    destruct (Z.gtb_spec (C.strlen (key_string_of input)) 4); [lia |].
    unfold Rewrite.with_heKeys, Rewrite.HE_KEYS.
    now rewrite Nat2Z.id, for_keys_all.
  - intros Hlen Hidx.
    destruct (Z.gtb_spec (C.strlen (key_string_of input)) 4); [| lia].
    destruct (Z.geb_spec (key_index_of 4 input) (Rewrite.HE_KEYS fw));
      [lia |].
    unfold Rewrite.with_heKeys. now rewrite for_keys_one.
Qed.

Lemma hkey_line_witness :
  Rewrite.handleSerialInput (defs := Box.defs) "hkey.rtus 33" Box.firmware
  = Rewrite.with_heKeys
      (map (Rewrite.hkey_setting (defs := Box.defs) "rtus" "33"))
      Box.firmware
  /\ Rewrite.handleSerialInput (defs := Box.defs) "hkey2.rtus 33"
       Box.firmware
     = Rewrite.with_heKeys
         (alter (Rewrite.hkey_setting (defs := Box.defs) "rtus" "33") 1%nat)
         Box.firmware.
Proof.
  split.
  - pose proof (hkey_line_sets_every_key_or_one (defs := Box.defs)
                  "hkey.rtus 33" Box.firmware eq_refl) as (Hall & _).
    apply Hall; vm_compute; discriminate.
  - pose proof (hkey_line_sets_every_key_or_one (defs := Box.defs)
                  "hkey2.rtus 33" Box.firmware eq_refl) as (_ & Hone).
    apply Hone; vm_compute; reflexivity.
Defined.

(** The same for the digital keys: a line whose command starts with
    [dkey] sets every digital key when it carries no index, and the one
    key of its index when that is within the array; nothing but the array
    of digital keys changes. *)
Theorem dkey_line_sets_every_key_or_one
  {defs : Definitions} (input : string) (fw : Rewrite.Firmware) :
  C.starts_with "dkey" (command_of input) = true ->
  (C.strlen (key_string_of input) <= 4 ->
   Rewrite.DIGITAL_KEYS fw <= 255 ->
   Rewrite.handleSerialInput input fw
   = Rewrite.with_digitalKeys
       (map (Rewrite.dkey_setting (setting_of input) (arg0_of input))) fw)
  /\ (C.strlen (key_string_of input) > 4 ->
      key_index_of 4 input < Rewrite.DIGITAL_KEYS fw ->
      Rewrite.handleSerialInput input fw
      = Rewrite.with_digitalKeys
          (alter (Rewrite.dkey_setting (setting_of input) (arg0_of input))
             (Z.to_nat (key_index_of 4 input))) fw).
Proof.
  intros Hcmd. rewrite (dkey_line _ _ Hcmd).
  unfold Rewrite.dkey_commands. rewrite Hcmd.
  fold (key_string_of input) (setting_of input).
  fold (key_index_of 4 input).
  split.
  - intros Hlen _.
    destruct (Z.gtb_spec (C.strlen (key_string_of input)) 4); [lia |].
    unfold Rewrite.with_digitalKeys, Rewrite.DIGITAL_KEYS.
    now rewrite Nat2Z.id, for_keys_all.
  - intros Hlen Hidx.
    destruct (Z.gtb_spec (C.strlen (key_string_of input)) 4); [| lia].
    destruct (Z.geb_spec (key_index_of 4 input) (Rewrite.DIGITAL_KEYS fw));
      [lia |].
    unfold Rewrite.with_digitalKeys. now rewrite for_keys_one.
Qed.

Lemma dkey_line_witness :
  Rewrite.handleSerialInput (defs := Box.defs) "dkey.hid 1" Box.firmware
  = Rewrite.with_digitalKeys
      (map (Rewrite.dkey_setting "hid" "1")) Box.firmware
  /\ Rewrite.handleSerialInput (defs := Box.defs) "dkey18.char q"
       Box.firmware
     = Rewrite.with_digitalKeys
         (alter (Rewrite.dkey_setting "char" "q") 17%nat) Box.firmware.
Proof.
  split.
  - pose proof (dkey_line_sets_every_key_or_one (defs := Box.defs)
                  "dkey.hid 1" Box.firmware eq_refl) as (Hall & _).
    apply Hall; vm_compute; discriminate.
  - pose proof (dkey_line_sets_every_key_or_one (defs := Box.defs)
                  "dkey18.char q" Box.firmware eq_refl) as (_ & Hone).
    apply Hone; vm_compute; reflexivity.
Defined.

(** ** What a line is, and what it leaves alone *)

(** The loops of the handler count the keys in a [uint8_t]: the arrays
    are taken to hold at most 255 keys, as every build of the firmware
    does (the key index of a command is a [uint8_t] too). *)

Lemma for_keys_id {T} (first n : nat) (body : T -> T) (arr : list T) :
  (forall key, body key = key) -> for_keys first n body arr = arr.
Proof.
  intros Hbody. unfold for_keys. generalize (seq 0 n) as indices.
  induction indices as [| i indices IH]; simpl; [reflexivity |].
  now rewrite list_alter_id.
Qed.

Lemma with_heKeys_id f fw :
  (forall keys, f keys = keys) -> Rewrite.with_heKeys f fw = fw.
Proof.
  intros Hf. unfold Rewrite.with_heKeys. rewrite Hf.
  now destruct fw as [[? ? ?] ? ? ? ? ?].
Qed.

Lemma with_digitalKeys_id f fw :
  (forall keys, f keys = keys) -> Rewrite.with_digitalKeys f fw = fw.
Proof.
  intros Hf. unfold Rewrite.with_digitalKeys. rewrite Hf.
  now destruct fw as [[? ? ?] ? ? ? ? ?].
Qed.

Section Lines.

Context {defs : Definitions}.

Lemma global_commands_cases command parameters arg0 fw :
  (command = "boot"
   /\ Rewrite.global_commands command parameters arg0 fw = Rewrite.boot fw)
  \/ (command = "save"
      /\ Rewrite.global_commands command parameters arg0 fw = Rewrite.save fw)
  \/ (command = "get"
      /\ Rewrite.global_commands command parameters arg0 fw = Rewrite.get fw)
  \/ (command = "name"
      /\ Rewrite.global_commands command parameters arg0 fw
         = Rewrite.name parameters fw)
  \/ (command = "out"
      /\ Rewrite.global_commands command parameters arg0 fw
         = Rewrite.out (C.isEqual arg0 "") (C.isTrue arg0) fw)
  \/ (command = "echo"
      /\ Rewrite.global_commands command parameters arg0 fw
         = Rewrite.echo parameters fw)
  \/ (~ In command global_command_names
      /\ Rewrite.global_commands command parameters arg0 fw = fw).
Proof.
  unfold Rewrite.global_commands, C.isEqual, global_command_names.
  repeat match goal with
    | |- context [String.eqb command ?lit] =>
        destruct (String.eqb_spec command lit);
        [ subst command; tauto | ]
    end.
  repeat right. split; [| reflexivity]. simpl. intuition congruence.
Qed.

Lemma hkey_commands_shape command arg0 fw fw' :
  Rewrite.hkey_commands command arg0 fw = Some fw' ->
  exists f,
    fw' = Rewrite.with_heKeys f fw
    /\ (C.starts_with "hkey" command = false -> forall keys, f keys = keys).
Proof.
  unfold Rewrite.hkey_commands.
  destruct (C.starts_with "hkey" command).
  - repeat match goal with
      | |- context [if ?b then _ else _] => destruct b
      end;
      intros H; inversion H; eexists; (split; [reflexivity | discriminate]).
  - intros H; inversion H; subst. exists (fun keys => keys).
    split; [| reflexivity]. symmetry. now apply with_heKeys_id.
Qed.

Lemma dkey_commands_shape command arg0 fw fw' :
  Rewrite.dkey_commands command arg0 fw = Some fw' ->
  exists g,
    fw' = Rewrite.with_digitalKeys g fw
    /\ (C.starts_with "dkey" command = false -> forall keys, g keys = keys).
Proof.
  unfold Rewrite.dkey_commands.
  destruct (C.starts_with "dkey" command).
  - repeat match goal with
      | |- context [if ?b then _ else _] => destruct b
      end;
      intros H; inversion H; eexists; (split; [reflexivity | discriminate]).
  - intros H; inversion H; subst. exists (fun keys => keys).
    split; [| reflexivity]. symmetry. now apply with_digitalKeys_id.
Qed.

(** A line is a global command followed by an update of the hall effect
    keys and an update of the digital keys, each of which is idle unless
    the command has its prefix. *)
Lemma handleSerialInput_shape input fw :
  exists f g,
    Rewrite.handleSerialInput input fw
    = Rewrite.with_digitalKeys g
        (Rewrite.with_heKeys f
           (Rewrite.global_commands (command_of input) (parameters_of input)
              (arg0_of input) fw))
    /\ (C.starts_with "hkey" (command_of input) = false ->
        forall keys, f keys = keys)
    /\ (C.starts_with "dkey" (command_of input) = false ->
        forall keys, g keys = keys).
Proof.
  rewrite handleSerialInput_unfold. cbv zeta.
  set (fw1 := Rewrite.global_commands _ _ _ fw).
  destruct (Rewrite.hkey_commands _ _ fw1) as [fw2 |] eqn:Hh.
  - apply hkey_commands_shape in Hh as (f & -> & Hf).
    destruct (Rewrite.dkey_commands _ _ _) as [fw3 |] eqn:Hd.
    + apply dkey_commands_shape in Hd as (g & -> & Hg). now exists f, g.
    + exists f, (fun keys => keys). split; [| split; [exact Hf | easy]].
      symmetry. now apply with_digitalKeys_id.
  - exists (fun keys => keys), (fun keys => keys).
    split; [| split; [easy | easy]].
    now rewrite with_heKeys_id, with_digitalKeys_id.
Qed.

Lemma out_cases single state fw :
  Rewrite.out single state fw
  = if single
    then Rewrite.print_all
           (map (out_line fw) (Rewrite.heKeys (Rewrite.config fw))) fw
    else Rewrite.set_outputMode state fw.
Proof. destruct single; [apply out_single | reflexivity]. Qed.

End Lines.

(** A line whose command is neither a global command nor a key command
    changes nothing and prints nothing; the empty line is one of them. *)
Theorem unknown_commands_are_ignored
  {defs : Definitions} (input : string) (fw : Rewrite.Firmware) :
  ~ In (command_of input) global_command_names ->
  C.starts_with "hkey" (command_of input) = false ->
  C.starts_with "dkey" (command_of input) = false ->
  Rewrite.handleSerialInput input fw = fw.
Proof.
  intros Hglobal Hhkey Hdkey.
  destruct (handleSerialInput_shape input fw) as (f & g & -> & Hf & Hg).
  rewrite with_digitalKeys_id, with_heKeys_id by auto.
  destruct (global_commands_cases (command_of input) (parameters_of input)
              (arg0_of input) fw)
    as [[Hc _] | [[Hc _] | [[Hc _] | [[Hc _] | [[Hc _] | [[Hc _] | [_ Hfw]]]]]]];
    try exact Hfw;
    exfalso; apply Hglobal; rewrite Hc; unfold global_command_names;
    simpl; tauto.
Qed.

Lemma unknown_commands_witness :
  Rewrite.handleSerialInput (defs := Box.defs) "" Box.firmware = Box.firmware
  /\ Rewrite.handleSerialInput (defs := Box.defs) "key1.rt 1" Box.firmware
     = Box.firmware.
Proof.
  split.
  - apply unknown_commands_are_ignored; [| reflexivity | reflexivity].
    vm_compute. intuition discriminate.
  - apply unknown_commands_are_ignored; [| reflexivity | reflexivity].
    vm_compute. intuition discriminate.
Defined.

Section UnknownSettings.

Context {defs : Definitions}.

Lemma unknown_hkey_setting setting arg0 key :
  ~ In setting hkey_setting_names ->
  Rewrite.hkey_setting setting arg0 key = key.
Proof.
  unfold hkey_setting_names, Rewrite.hkey_setting, C.isEqual. intros Hnot.
  repeat match goal with
    | |- context [String.eqb setting ?lit] =>
        destruct (String.eqb_spec setting lit);
        [ exfalso; apply Hnot; subst setting; simpl; tauto | ]
    end.
  reflexivity.
Qed.

Lemma unknown_dkey_setting setting arg0 key :
  ~ In setting dkey_setting_names ->
  Rewrite.dkey_setting setting arg0 key = key.
Proof.
  unfold dkey_setting_names, Rewrite.dkey_setting, C.isEqual. intros Hnot.
  repeat match goal with
    | |- context [String.eqb setting ?lit] =>
        destruct (String.eqb_spec setting lit);
        [ exfalso; apply Hnot; subst setting; simpl; tauto | ]
    end.
  reflexivity.
Qed.

End UnknownSettings.

(** A key line whose setting is not one of the settings of its kind of
    key changes nothing, with or without an index and whatever the index:
    [hkey1.rest 3000] and [dkey.rt 1] are such lines, and so is a key
    command with no dot at all. *)
Theorem unknown_settings_are_ignored
  {defs : Definitions} (input : string) (fw : Rewrite.Firmware) :
  (C.starts_with "hkey" (command_of input) = true
   /\ ~ In (setting_of input) hkey_setting_names)
  \/ (C.starts_with "dkey" (command_of input) = true
      /\ ~ In (setting_of input) dkey_setting_names) ->
  Rewrite.handleSerialInput input fw = fw.
Proof.
  intros [[Hcmd Hnot] | [Hcmd Hnot]].
  - rewrite (hkey_line _ _ Hcmd).
    destruct (Rewrite.hkey_commands _ _ fw) as [fw' |] eqn:Hh;
      [| reflexivity].
    unfold Rewrite.hkey_commands in Hh. rewrite Hcmd in Hh.
    fold (setting_of input) in Hh.
    repeat match type of Hh with
      | context [if ?b then _ else _] => destruct b
      end;
      inversion Hh; apply with_heKeys_id; intros keys;
      apply for_keys_id; intros key; now apply unknown_hkey_setting.
  - rewrite (dkey_line _ _ Hcmd).
    destruct (Rewrite.dkey_commands _ _ fw) as [fw' |] eqn:Hd;
      [| reflexivity].
    unfold Rewrite.dkey_commands in Hd. rewrite Hcmd in Hd.
    fold (setting_of input) in Hd.
    repeat match type of Hd with
      | context [if ?b then _ else _] => destruct b
      end;
      inversion Hd; apply with_digitalKeys_id; intros keys;
      apply for_keys_id; intros key; now apply unknown_dkey_setting.
Qed.

Lemma unknown_settings_witness :
  Rewrite.handleSerialInput (defs := Box.defs) "hkey1.rest 3000" Box.firmware
  = Box.firmware
  /\ Rewrite.handleSerialInput (defs := Box.defs) "dkey.rt 1" Box.firmware
     = Box.firmware.
Proof.
  split.
  - apply unknown_settings_are_ignored. left. split; [reflexivity |].
    vm_compute. intuition discriminate.
  - apply unknown_settings_are_ignored. right. split; [reflexivity |].
    vm_compute. intuition discriminate.
Defined.

Section Frames.

Context {defs : Definitions}.

Lemma global_commands_frame command parameters arg0 fw :
  Rewrite.heKeyStates (Rewrite.global_commands command parameters arg0 fw)
  = Rewrite.heKeyStates fw
  /\ (command <> "boot" ->
      Rewrite.usbBoot (Rewrite.global_commands command parameters arg0 fw)
      = Rewrite.usbBoot fw)
  /\ (command <> "save" ->
      Rewrite.savedConfig (Rewrite.global_commands command parameters arg0 fw)
      = Rewrite.savedConfig fw)
  /\ (command <> "out" ->
      Rewrite.outputMode (Rewrite.global_commands command parameters arg0 fw)
      = Rewrite.outputMode fw)
  /\ (command <> "name" ->
      Rewrite.config (Rewrite.global_commands command parameters arg0 fw)
      = Rewrite.config fw)
  /\ Rewrite.heKeys
       (Rewrite.config (Rewrite.global_commands command parameters arg0 fw))
     = Rewrite.heKeys (Rewrite.config fw)
  /\ Rewrite.digitalKeys
       (Rewrite.config (Rewrite.global_commands command parameters arg0 fw))
     = Rewrite.digitalKeys (Rewrite.config fw)
  /\ (command <> "get" -> command <> "out" -> command <> "echo" ->
      Rewrite.serial (Rewrite.global_commands command parameters arg0 fw)
      = Rewrite.serial fw).
Proof.
  destruct (global_commands_cases command parameters arg0 fw)
    as [[Hc ->] | [[Hc ->] | [[Hc ->] | [[Hc ->] | [[Hc ->] | [[Hc ->]
        | [_ ->]]]]]]];
    try subst command;
    try rewrite get_is_print_all;
    try rewrite out_cases;
    try (destruct (C.isEqual arg0 ""));
    try rewrite !print_all_record;
    unfold Rewrite.name;
    try (destruct (_ && _));
    repeat split; intros; try reflexivity; congruence.
Qed.

End Frames.

(** The configuration is persisted by [save] and by nothing else: a line
    whose command is [save] copies the configuration in force to the
    store and changes nothing besides, every other line leaves the stored
    configuration as it was; so what a line has set is stored by the
    [save] that follows it. *)
Theorem only_save_persists
  {defs : Definitions} (input : string) (fw : Rewrite.Firmware) :
  (command_of input = "save" ->
   Rewrite.handleSerialInput input fw
   = Rewrite.set_savedConfig (Rewrite.config fw) fw)
  /\ (command_of input <> "save" ->
      Rewrite.savedConfig (Rewrite.handleSerialInput input fw)
      = Rewrite.savedConfig fw)
  /\ Rewrite.savedConfig
       (Rewrite.handleSerialInput "save" (Rewrite.handleSerialInput input fw))
     = Rewrite.config (Rewrite.handleSerialInput input fw).
Proof.
  repeat apply conj.
  - intros Hcmd. rewrite handleSerialInput_unfold, Hcmd. reflexivity.
  - intros Hcmd.
    destruct (handleSerialInput_shape input fw) as (f & g & -> & _).
    cbn [Rewrite.with_digitalKeys Rewrite.with_heKeys Rewrite.set_config
           Rewrite.savedConfig].
    now apply global_commands_frame.
  - reflexivity.
Qed.

Lemma only_save_persists_witness :
  Rewrite.savedConfig
    (Rewrite.handleSerialInput (defs := Box.defs) "hkey.rt 1" Box.firmware)
  = Box.configuration
  /\ Rewrite.savedConfig
       (Rewrite.handleSerialInput (defs := Box.defs) "SAVE"
          (Rewrite.handleSerialInput (defs := Box.defs) "hkey.rt 1"
             Box.firmware))
     = Rewrite.config
         (Rewrite.handleSerialInput (defs := Box.defs) "hkey.rt 1"
            Box.firmware).
Proof.
  split.
  - pose proof (only_save_persists (defs := Box.defs) "hkey.rt 1"
                  Box.firmware) as (_ & Hkept & _).
    apply Hkept. vm_compute. discriminate.
  - pose proof (only_save_persists (defs := Box.defs) "SAVE"
                  (Rewrite.handleSerialInput (defs := Box.defs) "hkey.rt 1"
                     Box.firmware)) as (Hsave & _).
    rewrite Hsave; reflexivity.
Defined.

(** Every part of the state has the commands that can change it, and no
    other line does: the key states are never written; the boot flag only
    by [boot], which sets it; the streaming mode only by [out]; the name
    only by [name]; the hall effect keys only by [hkey...] lines and the
    digital keys only by [dkey...] lines; and only [get], [out] and [echo]
    print. *)
Theorem lines_change_only_their_part
  {defs : Definitions} (input : string) (fw : Rewrite.Firmware) :
  Rewrite.heKeyStates (Rewrite.handleSerialInput input fw)
  = Rewrite.heKeyStates fw
  /\ (command_of input = "boot" ->
      Rewrite.handleSerialInput input fw = Rewrite.set_usbBoot true fw)
  /\ (command_of input <> "boot" ->
      Rewrite.usbBoot (Rewrite.handleSerialInput input fw)
      = Rewrite.usbBoot fw)
  /\ (command_of input <> "out" ->
      Rewrite.outputMode (Rewrite.handleSerialInput input fw)
      = Rewrite.outputMode fw)
  /\ (command_of input <> "name" ->
      Rewrite.config_name (Rewrite.config (Rewrite.handleSerialInput input fw))
      = Rewrite.config_name (Rewrite.config fw))
  /\ (C.starts_with "hkey" (command_of input) = false ->
      Rewrite.heKeys (Rewrite.config (Rewrite.handleSerialInput input fw))
      = Rewrite.heKeys (Rewrite.config fw))
  /\ (C.starts_with "dkey" (command_of input) = false ->
      Rewrite.digitalKeys
        (Rewrite.config (Rewrite.handleSerialInput input fw))
      = Rewrite.digitalKeys (Rewrite.config fw))
  /\ (command_of input <> "get" -> command_of input <> "out" ->
      command_of input <> "echo" ->
      Rewrite.serial (Rewrite.handleSerialInput input fw)
      = Rewrite.serial fw).
Proof.
  pose proof (global_commands_frame (command_of input) (parameters_of input)
                (arg0_of input) fw)
    as (Hstates & Hboot & _ & Hmode & Hname & Hhkeys & Hdkeys & Hserial).
  assert (Hisboot : command_of input = "boot" ->
                    Rewrite.handleSerialInput input fw
                    = Rewrite.set_usbBoot true fw).
  { intros Hcmd. rewrite handleSerialInput_unfold, Hcmd. reflexivity. }
  repeat apply conj; try exact Hisboot;
    destruct (handleSerialInput_shape input fw) as (f & g & -> & Hf & Hg);
    cbn [Rewrite.with_digitalKeys Rewrite.with_heKeys Rewrite.set_config
           Rewrite.set_heKeys Rewrite.set_digitalKeys Rewrite.heKeyStates
           Rewrite.usbBoot Rewrite.outputMode Rewrite.serial Rewrite.config
           Rewrite.config_name Rewrite.heKeys Rewrite.digitalKeys];
    auto.
  - intros Hcmd. now rewrite Hname.
  - intros Hcmd. now rewrite Hf.
  - intros Hcmd. now rewrite Hg.
Qed.

Lemma lines_change_only_their_part_witness :
  Rewrite.serial
    (Rewrite.handleSerialInput (defs := Box.defs) "name pad" Box.firmware)
  = []
  /\ Rewrite.heKeys
       (Rewrite.config
          (Rewrite.handleSerialInput (defs := Box.defs) "dkey.hid 1"
             Box.firmware))
     = Rewrite.heKeys Box.configuration.
Proof.
  split.
  - pose proof (lines_change_only_their_part (defs := Box.defs) "name pad"
                  Box.firmware) as (_ & _ & _ & _ & _ & _ & _ & Hserial).
    apply Hserial; vm_compute; discriminate.
  - pose proof (lines_change_only_their_part (defs := Box.defs) "dkey.hid 1"
                  Box.firmware) as (_ & _ & _ & _ & _ & Hhkeys & _).
    apply Hhkeys. reflexivity.
Defined.

(** ** The name, as the handler stores it *)





Lemma starts_with_space s : C.starts_with " " (String " " s) = true.
Proof. unfold C.starts_with. simpl. now destruct s. Qed.




(** ** Moving the thresholds and the calibration points *)

(** Any pair of thresholds that meets the two tolerance conditions can be
    set on a key whose thresholds are a tolerance apart, with one [lh] and
    one [uh] command: lower threshold first when the new lower threshold
    is a tolerance below the present upper one, upper threshold first
    otherwise.  The lower threshold is taken first exactly in the first
    case, so the order matters. *)
Theorem thresholds_are_reached_in_two_commands
  {defs : Definitions} (key : Rewrite.HEKey) (lower upper : Z) :
  hysteresis_gap key ->
  upper - lower >= HYSTERESIS_TOLERANCE ->
  TRAVEL_DISTANCE_IN_0_01MM - upper >= HYSTERESIS_TOLERANCE ->
  (Rewrite.upperHysteresis key - lower >= HYSTERESIS_TOLERANCE ->
   Rewrite.hkey_uh (Rewrite.hkey_lh key lower) upper
   = Rewrite.set_upperHysteresis upper (Rewrite.set_lowerHysteresis lower key))
  /\ (Rewrite.upperHysteresis key - lower < HYSTERESIS_TOLERANCE ->
      Rewrite.hkey_lh (Rewrite.hkey_uh key upper) lower
      = Rewrite.set_lowerHysteresis lower
          (Rewrite.set_upperHysteresis upper key)
      /\ Rewrite.hkey_lh key lower = key).
Proof.
  unfold hysteresis_gap. intros Hgap Htarget Hreach. split; intros Hcase.
  - destruct (hkey_lh_cases key lower) as [[_ ->] | [Hno _]]; [| lia].
    destruct (hkey_uh_cases (Rewrite.set_lowerHysteresis lower key) upper)
      as [[_ ->] | [Hno _]]; [reflexivity | simpl in Hno; lia].
  - destruct (hkey_uh_cases key upper) as [[_ ->] | [Hno _]]; [| lia].
    destruct (hkey_lh_cases (Rewrite.set_upperHysteresis upper key) lower)
      as [[_ ->] | [Hno _]]; [| simpl in Hno; lia].
    destruct (hkey_lh_cases key lower) as [[Hyes _] | [_ ->]];
      [lia | split; reflexivity].
Qed.

Lemma thresholds_witness :
  Rewrite.hkey_uh (defs := Box.defs)
    (Rewrite.hkey_lh (defs := Box.defs) (Box.hkey 0) 100) 120
  = Rewrite.set_upperHysteresis 120
      (Rewrite.set_lowerHysteresis 100 (Box.hkey 0))
  /\ Rewrite.hkey_lh (defs := Box.defs)
       (Rewrite.hkey_uh (defs := Box.defs) (Box.hkey 0) 380) 350
     = Rewrite.set_lowerHysteresis 350
         (Rewrite.set_upperHysteresis 380 (Box.hkey 0)).
Proof.
  assert (Hgap : hysteresis_gap (defs := Box.defs) (Box.hkey 0))
    by (unfold hysteresis_gap; simpl; lia).
  split.
  - pose proof (thresholds_are_reached_in_two_commands (defs := Box.defs)
                  (Box.hkey 0) 100 120 Hgap) as Hreach.
    apply Hreach; simpl; lia.
  - pose proof (thresholds_are_reached_in_two_commands (defs := Box.defs)
                  (Box.hkey 0) 350 380 Hgap) as Hreach.
    apply Hreach; simpl; lia.
Defined.

(** Likewise for the calibration points of a legacy key whose rest
    position is above its down position: any rest position within the
    resolution and any down position below it are set with one [rest] and
    one [down] command, rest position first when it is above the present
    down position, down position first otherwise. *)
Theorem calibration_is_reached_in_two_commands
  {defs : Definitions} (key : Legacy.HEKey) (rest down : Z) :
  rest_above_down key ->
  rest > down ->
  rest <= 2 ^ ANALOG_RESOLUTION - 1 ->
  (rest > Legacy.downPosition key ->
   Legacy.key_down (Legacy.key_rest key rest) down
   = Legacy.set_downPosition down (Legacy.set_restPosition rest key))
  /\ (~ rest > Legacy.downPosition key ->
      Legacy.key_rest (Legacy.key_down key down) rest
      = Legacy.set_restPosition rest (Legacy.set_downPosition down key)
      /\ Legacy.key_rest key rest = key).
Proof.
  unfold rest_above_down. intros Hpol Htarget Hmax. split; intros Hcase.
  - destruct (key_rest_cases key rest) as [[_ ->] | [Hno _]]; [| lia].
    destruct (key_down_cases (Legacy.set_restPosition rest key) down)
      as [[_ ->] | [Hno _]]; [reflexivity | simpl in Hno; lia].
  - destruct (key_down_cases key down) as [[_ ->] | [Hno _]]; [| lia].
    destruct (key_rest_cases (Legacy.set_downPosition down key) rest)
      as [[_ ->] | [Hno _]]; [| simpl in Hno; lia].
    destruct (key_rest_cases key rest) as [[Hyes _] | [_ ->]];
      [lia | split; reflexivity].
Qed.

Lemma calibration_witness :
  Legacy.key_rest (defs := Box.defs)
    (Legacy.key_down (Box.legacy_key 0) 100) 150
  = Legacy.set_restPosition 150
      (Legacy.set_downPosition 100 (Box.legacy_key 0)).
Proof.
  assert (Hpol : rest_above_down (Box.legacy_key 0))
    by (unfold rest_above_down; simpl; lia).
  pose proof (calibration_is_reached_in_two_commands (defs := Box.defs)
                (Box.legacy_key 0) 150 100 Hpol) as Hreach.
  apply Hreach; simpl; lia.
Defined.

(** ** The arrays keep their shape *)

Lemma for_keys_map_kept {T U} (p : T -> U) (first n : nat) (body : T -> T)
  (arr : list T) :
  (forall key, p (body key) = p key) ->
  map p (for_keys first n body arr) = map p arr.
Proof.
  intros Hbody. unfold for_keys. generalize (seq 0 n) as indices.
  intros indices. revert arr.
  induction indices as [| i indices IH]; intros arr; simpl; [reflexivity |].
  rewrite IH.
  change (map p (alter body (first + i)%nat arr))
    with (p <$> alter body (first + i)%nat arr).
  rewrite (list_fmap_alter p body (fun x => x)).
  - now rewrite list_alter_id.
  - apply Forall_forall. intros key _. apply Hbody.
Qed.

Section Shape.

Context {defs : Definitions}.

Lemma hkey_setting_index setting arg0 key :
  Rewrite.index (Rewrite.he_key (Rewrite.hkey_setting setting arg0 key))
  = Rewrite.index (Rewrite.he_key key).
Proof.
  unfold Rewrite.hkey_setting.
  repeat match goal with
    | |- context [C.isEqual setting ?lit] => destruct (C.isEqual setting lit)
    end;
    unfold Rewrite.hkey_rt, Rewrite.hkey_crt, Rewrite.hkey_rtus,
      Rewrite.hkey_rtds, Rewrite.hkey_lh, Rewrite.hkey_uh;
    decide_checks; reflexivity.
Qed.

Lemma dkey_setting_index setting arg0 key :
  Rewrite.index (Rewrite.digital_key (Rewrite.dkey_setting setting arg0 key))
  = Rewrite.index (Rewrite.digital_key key).
Proof.
  unfold Rewrite.dkey_setting.
  repeat match goal with
    | |- context [C.isEqual setting ?lit] => destruct (C.isEqual setting lit)
    end;
    reflexivity.
Qed.

Lemma hkey_commands_indices command arg0 fw fw' :
  Rewrite.hkey_commands command arg0 fw = Some fw' ->
  map (fun key => Rewrite.index (Rewrite.he_key key))
    (Rewrite.heKeys (Rewrite.config fw'))
  = map (fun key => Rewrite.index (Rewrite.he_key key))
      (Rewrite.heKeys (Rewrite.config fw)).
Proof.
  unfold Rewrite.hkey_commands.
  repeat match goal with
    | |- context [if ?b then _ else _] => destruct b
    end;
    intros H; inversion H; subst; simpl; try reflexivity;
    apply for_keys_map_kept; intros key; apply hkey_setting_index.
Qed.

Lemma dkey_commands_indices command arg0 fw fw' :
  Rewrite.dkey_commands command arg0 fw = Some fw' ->
  map (fun key => Rewrite.index (Rewrite.digital_key key))
    (Rewrite.digitalKeys (Rewrite.config fw'))
  = map (fun key => Rewrite.index (Rewrite.digital_key key))
      (Rewrite.digitalKeys (Rewrite.config fw)).
Proof.
  unfold Rewrite.dkey_commands.
  repeat match goal with
    | |- context [if ?b then _ else _] => destruct b
    end;
    intros H; inversion H; subst; simpl; try reflexivity;
    apply for_keys_map_kept; intros key; apply dkey_setting_index.
Qed.

Lemma hkey_commands_digitalKeys command arg0 fw fw' :
  Rewrite.hkey_commands command arg0 fw = Some fw' ->
  Rewrite.digitalKeys (Rewrite.config fw')
  = Rewrite.digitalKeys (Rewrite.config fw).
Proof.
  intros H. apply hkey_commands_shape in H as (f & -> & _). reflexivity.
Qed.

End Shape.

(** No line changes how many keys there are, nor the [index] member of
    any key: the two arrays keep their length and, position by position,
    their indices.  The key numbers that [get] and [out] print are
    therefore the same before and after any line. *)
Theorem lines_keep_the_indices
  {defs : Definitions} (input : string) (fw : Rewrite.Firmware) :
  map (fun key => Rewrite.index (Rewrite.he_key key))
    (Rewrite.heKeys (Rewrite.config (Rewrite.handleSerialInput input fw)))
  = map (fun key => Rewrite.index (Rewrite.he_key key))
      (Rewrite.heKeys (Rewrite.config fw))
  /\ map (fun key => Rewrite.index (Rewrite.digital_key key))
       (Rewrite.digitalKeys
          (Rewrite.config (Rewrite.handleSerialInput input fw)))
     = map (fun key => Rewrite.index (Rewrite.digital_key key))
         (Rewrite.digitalKeys (Rewrite.config fw))
  /\ Rewrite.HE_KEYS (Rewrite.handleSerialInput input fw) = Rewrite.HE_KEYS fw
  /\ Rewrite.DIGITAL_KEYS (Rewrite.handleSerialInput input fw)
     = Rewrite.DIGITAL_KEYS fw.
Proof.
  assert (Hmaps :
    map (fun key => Rewrite.index (Rewrite.he_key key))
      (Rewrite.heKeys (Rewrite.config (Rewrite.handleSerialInput input fw)))
    = map (fun key => Rewrite.index (Rewrite.he_key key))
        (Rewrite.heKeys (Rewrite.config fw))
    /\ map (fun key => Rewrite.index (Rewrite.digital_key key))
         (Rewrite.digitalKeys
            (Rewrite.config (Rewrite.handleSerialInput input fw)))
       = map (fun key => Rewrite.index (Rewrite.digital_key key))
           (Rewrite.digitalKeys (Rewrite.config fw))).
  { rewrite handleSerialInput_unfold. cbv zeta.
    pose proof (global_commands_frame (command_of input)
                  (parameters_of input) (arg0_of input) fw)
      as (_ & _ & _ & _ & _ & Hhkeys & Hdkeys & _).
    rewrite <- Hhkeys, <- Hdkeys.
    destruct (Rewrite.hkey_commands _ _ _) as [fw2 |] eqn:Hh;
      [| split; reflexivity].
    rewrite <- (hkey_commands_indices _ _ _ _ Hh).
    rewrite <- (hkey_commands_digitalKeys _ _ _ _ Hh).
    destruct (Rewrite.dkey_commands _ _ fw2) as [fw3 |] eqn:Hd;
      [| split; reflexivity].
    rewrite (dkey_commands_heKeys _ _ _ _ Hd).
    now rewrite (dkey_commands_indices _ _ _ _ Hd). }
  destruct Hmaps as (Hh & Hd). repeat apply conj; try assumption.
  - unfold Rewrite.HE_KEYS. f_equal.
    apply (f_equal (@length Z)) in Hh. now rewrite !length_map in Hh.
  - unfold Rewrite.DIGITAL_KEYS. f_equal.
    apply (f_equal (@length Z)) in Hd. now rewrite !length_map in Hd.
Qed.

(** ** A line sent twice *)

Section Twice.

Context {defs : Definitions}.

Lemma hkey_setting_twice setting arg0 key :
  Rewrite.hkey_setting setting arg0
    (Rewrite.hkey_setting setting arg0 key)
  = Rewrite.hkey_setting setting arg0 key.
Proof.
  unfold Rewrite.hkey_setting.
  repeat match goal with
    | |- context [C.isEqual setting ?lit] => destruct (C.isEqual setting lit)
    end;
    try reflexivity;
    generalize (C.uint16_t (C.atoi arg0)); intros value.
  - destruct (hkey_rtus_cases key value) as [[Hin ->] | [_ Hsame]];
      [| now rewrite !Hsame].
    destruct (hkey_rtus_cases
                (Rewrite.set_rapidTriggerUpSensitivity value key) value)
      as [[_ ->] | [Hout _]]; [reflexivity | contradiction].
  - destruct (hkey_rtds_cases key value) as [[Hin ->] | [_ Hsame]];
      [| now rewrite !Hsame].
    destruct (hkey_rtds_cases
                (Rewrite.set_rapidTriggerDownSensitivity value key) value)
      as [[_ ->] | [Hout _]]; [reflexivity | contradiction].
  - destruct (hkey_lh_cases key value) as [[Hin ->] | [_ Hsame]];
      [| now rewrite !Hsame].
    destruct (hkey_lh_cases (Rewrite.set_lowerHysteresis value key) value)
      as [[_ ->] | [Hout _]]; [reflexivity | simpl in Hout; lia].
  - destruct (hkey_uh_cases key value) as [[Hin ->] | [_ Hsame]];
      [| now rewrite !Hsame].
    destruct (hkey_uh_cases (Rewrite.set_upperHysteresis value key) value)
      as [[_ ->] | [Hout _]]; [reflexivity | simpl in Hout; tauto].
Qed.

Lemma dkey_setting_twice setting arg0 key :
  Rewrite.dkey_setting setting arg0
    (Rewrite.dkey_setting setting arg0 key)
  = Rewrite.dkey_setting setting arg0 key.
Proof.
  unfold Rewrite.dkey_setting.
  repeat match goal with
    | |- context [C.isEqual setting ?lit] => destruct (C.isEqual setting lit)
    end;
    reflexivity.
Qed.

Lemma for_keys_one_twice {T} (body : T -> T) (arr : list T) (i : nat) :
  (forall key, body (body key) = body key) ->
  for_keys i 1 body (for_keys i 1 body arr) = for_keys i 1 body arr.
Proof.
  intros Hbody. rewrite !for_keys_one, list_alter_alter_eq.
  apply list_alter_ext; [| reflexivity]. intros key _. apply Hbody.
Qed.

Lemma for_keys_all_twice {T} (body : T -> T) (arr : list T) :
  (forall key, body (body key) = body key) ->
  for_keys 0 (length (for_keys 0 (length arr) body arr)) body
    (for_keys 0 (length arr) body arr)
  = for_keys 0 (length arr) body arr.
Proof.
  intros Hbody. rewrite !for_keys_all, map_map.
  apply map_ext. intros key. apply Hbody.
Qed.

Lemma hkey_commands_twice command arg0 fw fw' :
  Rewrite.hkey_commands command arg0 fw = Some fw' ->
  Rewrite.hkey_commands command arg0 fw' = Some fw'.
Proof.
  unfold Rewrite.hkey_commands.
  destruct (C.starts_with "hkey" command); [| congruence].
  destruct (_ >? 4).
  - destruct (Z.geb_spec
                (C.uint8_t
                   (C.atoi
                      (C.advance 4
                         (StringHelper.getArgumentAt command "."%char 0)) - 1))
                (Rewrite.HE_KEYS fw)) as [Hge | Hlt]; [discriminate |].
    intros H; inversion H; subst; clear H.
    unfold Rewrite.HE_KEYS, Rewrite.with_heKeys;
      cbn [Rewrite.config Rewrite.heKeys Rewrite.set_config
             Rewrite.set_heKeys].
    rewrite for_keys_length.
    match goal with
    | |- context [?a >=? ?b] => destruct (Z.geb_spec a b)
    end; [unfold Rewrite.HE_KEYS in Hlt; lia |].
    rewrite for_keys_one_twice by apply hkey_setting_twice. reflexivity.
  - intros H; inversion H; subst; clear H.
    unfold Rewrite.HE_KEYS, Rewrite.with_heKeys;
      cbn [Rewrite.config Rewrite.heKeys Rewrite.set_config
             Rewrite.set_heKeys].
    rewrite !Nat2Z.id.
    rewrite for_keys_all_twice by apply hkey_setting_twice. reflexivity.
Qed.

Lemma dkey_commands_twice command arg0 fw fw' :
  Rewrite.dkey_commands command arg0 fw = Some fw' ->
  Rewrite.dkey_commands command arg0 fw' = Some fw'.
Proof.
  unfold Rewrite.dkey_commands.
  destruct (C.starts_with "dkey" command); [| congruence].
  destruct (_ >? 4).
  - destruct (Z.geb_spec
                (C.uint8_t
                   (C.atoi
                      (C.advance 4
                         (StringHelper.getArgumentAt command "."%char 0)) - 1))
                (Rewrite.DIGITAL_KEYS fw)) as [Hge | Hlt]; [discriminate |].
    intros H; inversion H; subst; clear H.
    unfold Rewrite.DIGITAL_KEYS, Rewrite.with_digitalKeys;
      cbn [Rewrite.config Rewrite.digitalKeys Rewrite.set_config
             Rewrite.set_digitalKeys].
    rewrite for_keys_length.
    match goal with
    | |- context [?a >=? ?b] => destruct (Z.geb_spec a b)
    end; [unfold Rewrite.DIGITAL_KEYS in Hlt; lia |].
    rewrite for_keys_one_twice by apply dkey_setting_twice. reflexivity.
  - intros H; inversion H; subst; clear H.
    unfold Rewrite.DIGITAL_KEYS, Rewrite.with_digitalKeys;
      cbn [Rewrite.config Rewrite.digitalKeys Rewrite.set_config
             Rewrite.set_digitalKeys].
    rewrite !Nat2Z.id.
    rewrite for_keys_all_twice by apply dkey_setting_twice. reflexivity.
Qed.

Lemma name_twice parameters fw :
  Rewrite.name parameters (Rewrite.name parameters fw)
  = Rewrite.name parameters fw.
Proof. unfold Rewrite.name. now destruct (_ && _). Qed.

End Twice.

(** A line that prints nothing can be sent again without effect: for
    every line whose command is neither [get] nor [echo] nor an [out]
    without argument, handling it a second time leaves the state reached
    by the first. *)
Theorem a_line_sent_twice_is_sent_once
  {defs : Definitions} (input : string) (fw : Rewrite.Firmware) :
  command_of input <> "get" ->
  command_of input <> "echo" ->
  (command_of input = "out" -> arg0_of input <> "") ->
  Rewrite.handleSerialInput input (Rewrite.handleSerialInput input fw)
  = Rewrite.handleSerialInput input fw.
Proof.
  intros Hget Hecho Hout.
  destruct (C.starts_with "hkey" (command_of input)) eqn:Hhkey;
    [| destruct (C.starts_with "dkey" (command_of input)) eqn:Hdkey].
  - rewrite !(hkey_line _ _ Hhkey).
    destruct (Rewrite.hkey_commands _ _ fw) as [fw' |] eqn:Hh.
    + now rewrite (hkey_commands_twice _ _ _ _ Hh).
    + now rewrite Hh.
  - rewrite !(dkey_line _ _ Hdkey).
    destruct (Rewrite.dkey_commands _ _ fw) as [fw' |] eqn:Hd.
    + now rewrite (dkey_commands_twice _ _ _ _ Hd).
    + now rewrite Hd.
  - assert (Hline : forall fw0,
               Rewrite.handleSerialInput input fw0
               = Rewrite.global_commands (command_of input)
                   (parameters_of input) (arg0_of input) fw0).
    { intros fw0.
      destruct (handleSerialInput_shape input fw0) as (f & g & -> & Hf & Hg).
      now rewrite with_digitalKeys_id, with_heKeys_id by auto. }
    rewrite !Hline.
    destruct (global_commands_cases (command_of input) (parameters_of input)
                (arg0_of input) fw)
      as [[Hc Hfw] | [[Hc Hfw] | [[Hc Hfw] | [[Hc Hfw] | [[Hc Hfw]
          | [[Hc Hfw] | [Hc Hfw]]]]]]];
      try contradiction.
    + rewrite Hfw, Hc. reflexivity.
    + rewrite Hfw, Hc. reflexivity.
    + rewrite Hfw, Hc. apply name_twice.
    + rewrite Hfw, Hc.
      assert (Hsingle : C.isEqual (arg0_of input) "" = false)
        by (unfold C.isEqual; apply String.eqb_neq; auto).
      change (Rewrite.global_commands "out" (parameters_of input)
                (arg0_of input) ?x)
        with (Rewrite.out (C.isEqual (arg0_of input) "")
                (C.isTrue (arg0_of input)) x).
      rewrite Hsingle. reflexivity.
    + rewrite Hfw.
      destruct (global_commands_cases (command_of input)
                  (parameters_of input) (arg0_of input) fw)
        as [[Hc' _] | [[Hc' _] | [[Hc' _] | [[Hc' _] | [[Hc' _]
            | [[Hc' _] | [_ Hfw']]]]]]];
        try exact Hfw';
        exfalso; apply Hc; rewrite Hc'; unfold global_command_names;
        simpl; tauto.
Qed.

Lemma a_line_sent_twice_witness :
  Rewrite.handleSerialInput (defs := Box.defs) "hkey.uh 320"
    (Rewrite.handleSerialInput (defs := Box.defs) "hkey.uh 320" Box.firmware)
  = Rewrite.handleSerialInput (defs := Box.defs) "hkey.uh 320" Box.firmware.
Proof.
  apply a_line_sent_twice_is_sent_once;
    [vm_compute; discriminate | vm_compute; discriminate |].
  vm_compute. discriminate.
Defined.

(** ** The key commands of the two revisions *)

Lemma starts_with_append p s : C.starts_with p (p ++ s) = true.
Proof.
  unfold C.starts_with. induction p as [| c p IH]; simpl.
  - now destruct s.
  - destruct (ascii_dec c c); [exact IH | contradiction].
Qed.

Lemma for_keys_map_commute {T U} (p : T -> U) (first n : nat)
  (body : T -> T) (body' : U -> U) (arr : list T) :
  (forall key, p (body key) = body' (p key)) ->
  map p (for_keys first n body arr) = for_keys first n body' (map p arr).
Proof.
  intros Hbody. unfold for_keys. generalize (seq 0 n) as indices.
  intros indices. revert arr.
  induction indices as [| i indices IH]; intros arr; simpl; [reflexivity |].
  rewrite IH. f_equal.
  change (map p (alter body (first + i)%nat arr))
    with (p <$> alter body (first + i)%nat arr).
  apply list_fmap_alter, Forall_forall. intros key _. apply Hbody.
Qed.

Section RevisionsOfTheCommands.

Context {defs : Definitions}.

Lemma setting_commutes setting arg0 key :
  setting <> "char" ->
  settings_of (Legacy.key_setting setting arg0 key)
  = Rewrite.hkey_setting setting arg0 (settings_of key).
Proof.
  intros Hchar. unfold Legacy.key_setting, Rewrite.hkey_setting, C.isEqual.
  repeat match goal with
    | |- context [String.eqb setting ?lit] =>
        destruct (String.eqb_spec setting lit);
        [ subst setting; try congruence; simpl | ]
    end;
    auto using rtus_commutes, rtds_commutes, lh_commutes, uh_commutes.
  - unfold Legacy.key_rest. now destruct (_ && _).
  - unfold Legacy.key_down. now destruct (_ <? _).
Qed.

End RevisionsOfTheCommands.

(** The [hkey] commands of the rewrite are the [key] commands of the
    legacy revision, but for [char]: when the hall effect keys of the two
    revisions hold the same settings, [hkey<rest>] and [key<rest>] with the
    same argument either both stop at an index out of range or leave keys
    that again hold the same settings.  The legacy [rest] and [down], which
    the rewrite takes for unknown settings, change the calibration points
    only. *)
Theorem hkey_commands_are_the_legacy_key_commands
  {defs : Definitions}
  (rest arg0 : string) (lfw : Legacy.Firmware) (fw : Rewrite.Firmware) :
  map settings_of (Legacy.heKeys (Legacy.config lfw))
  = Rewrite.heKeys (Rewrite.config fw) ->
  StringHelper.getArgumentAt rest "."%char 1 <> "char" ->
  match
    Legacy.key_commands ("key" ++ rest) arg0 lfw,
    Rewrite.hkey_commands ("hkey" ++ rest) arg0 fw
  with
  | Some lfw', Some fw' =>
      map settings_of (Legacy.heKeys (Legacy.config lfw'))
      = Rewrite.heKeys (Rewrite.config fw')
  | None, None => True
  | _, _ => False
  end.
Proof.
  intros Hsame Hchar.
  assert (Hkeys : Legacy.HE_KEYS lfw = Rewrite.HE_KEYS fw).
  { unfold Legacy.HE_KEYS, Rewrite.HE_KEYS.
    now rewrite <- Hsame, length_map. }
  unfold Legacy.key_commands, Rewrite.hkey_commands.
  rewrite !starts_with_append.
  change (StringHelper.getArgumentAt ("key" ++ rest) "."%char 1)
    with (StringHelper.getArgumentAt rest "."%char 1).
  change (StringHelper.getArgumentAt ("hkey" ++ rest) "."%char 1)
    with (StringHelper.getArgumentAt rest "."%char 1).
  change (StringHelper.getArgumentAt ("key" ++ rest) "."%char 0)
    with ("key" ++ StringHelper.getArgumentAt rest "."%char 0).
  change (StringHelper.getArgumentAt ("hkey" ++ rest) "."%char 0)
    with ("hkey" ++ StringHelper.getArgumentAt rest "."%char 0).
  change (C.advance 3 ("key" ++ StringHelper.getArgumentAt rest "."%char 0))
    with (StringHelper.getArgumentAt rest "."%char 0).
  change (C.advance 4 ("hkey" ++ StringHelper.getArgumentAt rest "."%char 0))
    with (StringHelper.getArgumentAt rest "."%char 0).
  set (digits := StringHelper.getArgumentAt rest "."%char 0).
  set (setting := StringHelper.getArgumentAt rest "."%char 1) in *.
  set (idx := C.uint8_t (C.atoi digits - 1)).
  assert (Hlen : (C.strlen ("key" ++ digits) >? 3)
                 = (C.strlen ("hkey" ++ digits) >? 4)).
  { unfold C.strlen. cbn [String.length append].
    destruct (Z.gtb_spec (Z.of_nat (S (S (S (String.length digits))))) 3),
             (Z.gtb_spec (Z.of_nat (S (S (S (S (String.length digits)))))) 4);
      first [reflexivity | lia]. }
  rewrite Hlen, Hkeys.
  destruct (C.strlen ("hkey" ++ digits) >? 4).
  - destruct (idx >=? Rewrite.HE_KEYS fw); [exact I |].
    unfold Legacy.with_heKeys, Rewrite.with_heKeys; simpl.
    rewrite <- Hsame. apply for_keys_map_commute.
    intros key. now apply setting_commutes.
  - unfold Legacy.with_heKeys, Rewrite.with_heKeys; simpl.
    rewrite <- Hsame, <- Hkeys. apply for_keys_map_commute.
    intros key. now apply setting_commutes.
Qed.

Lemma hkey_commands_are_the_legacy_key_commands_witness :
  map settings_of
    (Legacy.heKeys
       (Legacy.config
          (Legacy.handleSerialInput (defs := Box.defs) (ext := Box.externals)
             "" "key2.uh 320" Box.legacy_firmware)))
  = Rewrite.heKeys
      (Rewrite.config
         (Rewrite.handleSerialInput (defs := Box.defs) "hkey2.uh 320"
            Box.firmware)).
Proof.
  assert (Hsame : map settings_of
                    (Legacy.heKeys (Legacy.config Box.legacy_firmware))
                  = Rewrite.heKeys (Rewrite.config Box.firmware))
    by reflexivity.
  assert (Hchar : StringHelper.getArgumentAt "2.uh" "."%char 1 <> "char")
    by (vm_compute; discriminate).
  exact (hkey_commands_are_the_legacy_key_commands
           (defs := Box.defs)
           "2.uh" "320" Box.legacy_firmware Box.firmware Hsame Hchar).
Defined.

(** ** The end of a legacy line *)

(** The legacy handler looks for the parameters one character after the
    command.  A line with a space after its command is handled the same
    whatever lies beyond it, and so are [boot], [save] and [get], which
    read no parameter.  But a bare [out] takes its argument from what
    lies beyond the end of the line: the streaming mode is switched on
    exactly when the first word found there is [1] or [true]. *)
Theorem legacy_lines_and_what_lies_beyond
  {defs : Definitions} {ext : Legacy.Externals}
  (beyond beyond' input : string) (lfw : Legacy.Firmware) :
  (C.strlen (command_of input) < C.strlen (StringHelper.toLower input) ->
   Legacy.handleSerialInput beyond input lfw
   = Legacy.handleSerialInput beyond' input lfw)
  /\ (command_of input = "boot" \/ command_of input = "save"
      \/ command_of input = "get" ->
      Legacy.handleSerialInput beyond input lfw
      = Legacy.handleSerialInput beyond' input lfw)
  /\ Legacy.handleSerialInput beyond "out" lfw
     = Legacy.set_outputMode
         (C.isTrue (StringHelper.getArgumentAt beyond " "%char 0)) lfw.
Proof.
  repeat apply conj.
  - intros Hspace. rewrite !legacy_handleSerialInput_unfold.
    unfold legacy_arg0_of, legacy_parameters_of.
    destruct (Z.ltb_spec (C.strlen (command_of input))
                (C.strlen (StringHelper.toLower input))); [reflexivity | lia].
  - rewrite !legacy_handleSerialInput_unfold.
    intros [Hcmd | [Hcmd | Hcmd]]; rewrite Hcmd; reflexivity.
  - reflexivity.
Qed.

Lemma legacy_lines_witness :
  Legacy.handleSerialInput (defs := Box.defs) (ext := Box.externals)
    "1" "out 0" Box.legacy_firmware
  = Legacy.handleSerialInput (defs := Box.defs) (ext := Box.externals)
      "" "out 0" Box.legacy_firmware
  /\ Legacy.handleSerialInput (defs := Box.defs) (ext := Box.externals)
       "1" "save" Box.legacy_firmware
     = Legacy.handleSerialInput (defs := Box.defs) (ext := Box.externals)
         "" "save" Box.legacy_firmware.
Proof.
  pose proof (legacy_lines_and_what_lies_beyond
                (defs := Box.defs) (ext := Box.externals)
                "1" "" "out 0" Box.legacy_firmware) as (Hspace & _).
  pose proof (legacy_lines_and_what_lies_beyond
                (defs := Box.defs) (ext := Box.externals)
                "1" "" "save" Box.legacy_firmware) as (_ & Hbare & _).
  split.
  - apply Hspace. vm_compute. reflexivity.
  - apply Hbare. right. left. reflexivity.
Defined.

(** ** [echo] *)

Lemma echo_line_parameters rest :
  parameters_of ("echo " ++ rest) = StringHelper.toLower rest.
Proof.
  unfold parameters_of.
  change (command_of ("echo " ++ rest)) with "echo".
  change (StringHelper.toLower ("echo " ++ rest))
    with ("echo " ++ StringHelper.toLower rest).
  cbv zeta.
  change (C.advance (String.length "echo")
            ("echo " ++ StringHelper.toLower rest))
    with (String " " (StringHelper.toLower rest)).
  now rewrite starts_with_space.
Qed.

(** The line [echo <rest>] prints one line, the whole of [rest] in lower
    case, and changes nothing else.  The legacy handler does so in a
    [DEBUG] build only and ignores the line otherwise. *)
Theorem echo_prints_the_rest_in_lower_case
  {defs : Definitions} {ext : Legacy.Externals}
  (rest beyond : string) (fw : Rewrite.Firmware) (lfw : Legacy.Firmware) :
  Rewrite.handleSerialInput ("echo " ++ rest) fw
  = Rewrite.print (StringHelper.toLower rest) fw
  /\ Legacy.handleSerialInput beyond ("echo " ++ rest) lfw
     = if Legacy.DEBUG
       then Legacy.print (StringHelper.toLower rest) lfw
       else lfw.
Proof.
  split.
  - rewrite handleSerialInput_unfold.
    unfold arg0_of. rewrite echo_line_parameters.
    change (command_of ("echo " ++ rest)) with "echo". reflexivity.
  - rewrite legacy_handleSerialInput_unfold.
    assert (Hpar : legacy_parameters_of beyond ("echo " ++ rest)
                   = StringHelper.toLower rest).
    { unfold legacy_parameters_of.
      change (command_of ("echo " ++ rest)) with "echo".
      change (StringHelper.toLower ("echo " ++ rest))
        with ("echo " ++ StringHelper.toLower rest).
      unfold C.strlen. cbn [String.length append].
      match goal with
      | |- context [?a <? ?b] =>
          destruct (Z.ltb_spec a b); [reflexivity | lia]
      end. }
    unfold legacy_arg0_of. rewrite Hpar.
    change (command_of ("echo " ++ rest)) with "echo".
    cbv zeta. unfold Legacy.global_commands. simpl.
    now destruct Legacy.DEBUG.
Qed.

(** ** Numeric arguments out of the ordinary *)




